(** * yun-commit-helper: the commit inference engine and its git surface

    A shallow embedding of [src/git-service.ts] (class [GitService]) and of
    the AI service (class [AIService]) of the extension, with the host
    runtime (network, notifications, Unicode case tables) kept as explicit
    parameters.

    Conventions.
    - A JavaScript string is the list of its UTF-16 code units ([jsstring]);
      [length] on it is the [.length] of the source.
    - A JavaScript number that the code only ever builds from decimal digits
      and sums is an integer ([Z]); a confidence is a rational ([Q]).  Both
      are exact where a double would round, which leaves comparisons with
      the constants of the code unchanged as long as the integers stay
      below 2^53.
    - A function that can throw returns [Exc]; an [async] function that
      talks to the host returns in the monad [M], which also records the
      requests and notifications it issued. *)

From Stdlib Require Import String Ascii.
From Stdlib Require Import List ZArith NArith QArith Bool Lia.
Import ListNotations.

Set Implicit Arguments.
Set Warnings "-register-all".

(* ===================================================================== *)
(** ** JavaScript strings *)
(* ===================================================================== *)

Module JsString.

Local Open Scope N_scope.

Definition codeunit := N.
Definition jsstring := list codeunit.

(** Literals are written as Rocq strings (UTF-8 bytes in the file) and
    decoded to UTF-16 code units. *)
Fixpoint utf8_decode (l : list N) : jsstring :=
  match l with
  | [] => []
  | b0 :: t0 =>
      if b0 <? 128 then b0 :: utf8_decode t0
      else if b0 <? 224 then
        match t0 with
        | b1 :: t1 => ((b0 - 192) * 64 + (b1 - 128)) :: utf8_decode t1
        | _ => []
        end
      else if b0 <? 240 then
        match t0 with
        | b1 :: b2 :: t2 =>
            ((b0 - 224) * 4096 + (b1 - 128) * 64 + (b2 - 128)) :: utf8_decode t2
        | _ => []
        end
      else
        match t0 with
        | b1 :: b2 :: b3 :: t3 =>
            let cp := (b0 - 240) * 262144 + (b1 - 128) * 4096
                      + (b2 - 128) * 64 + (b3 - 128) in
            let v := cp - 65536 in
            (55296 + v / 1024) :: (56320 + v mod 1024) :: utf8_decode t3
        | _ => []
        end
  end.

Definition lit (s : string) : jsstring :=
  utf8_decode (map N_of_ascii (list_ascii_of_string s)).

(** Named code units. *)
Definition LF : codeunit := 10.
Definition CR : codeunit := 13.
Definition SPACE : codeunit := 32.
Definition DQUOTE : codeunit := 34.
Definition SQUOTE : codeunit := 39.
Definition BACKTICK : codeunit := 96.
Definition DOLLAR : codeunit := 36.
Definition BACKSLASH : codeunit := 92.
Definition SLASH : codeunit := 47.
Definition DOT : codeunit := 46.

(** [===] on strings. *)
Fixpoint eqb (a b : jsstring) : bool :=
  match a, b with
  | [], [] => true
  | x :: a', y :: b' => (x =? y) && eqb a' b'
  | _, _ => false
  end.

(** [s.startsWith(p)] *)
Fixpoint startsWith (s p : jsstring) : bool :=
  match p, s with
  | [], _ => true
  | y :: p', x :: s' => (x =? y) && startsWith s' p'
  | _ :: _, [] => false
  end.

(** [s.endsWith(p)] *)
Definition endsWith (s p : jsstring) : bool :=
  startsWith (rev s) (rev p).

(** [s.includes(p)] *)
Fixpoint includes (s p : jsstring) : bool :=
  match s with
  | [] => startsWith [] p
  | _ :: t => startsWith s p || includes t p
  end.

(** [/a|b|c/.test(s)] for literal alternatives. *)
Definition testAny (alts : list jsstring) (s : jsstring) : bool :=
  existsb (includes s) alts.

(** WhiteSpace and LineTerminator of ECMAScript: what [trim] strips and
    what [\s] matches. *)
Definition isWhiteSpace (c : codeunit) : bool :=
  ((9 <=? c) && (c <=? 13)) || (c =? 32) || (c =? 160) || (c =? 5760)
  || ((8192 <=? c) && (c <=? 8202)) || (c =? 8232) || (c =? 8233)
  || (c =? 8239) || (c =? 8287) || (c =? 12288) || (c =? 65279).

Fixpoint trimStart (s : jsstring) : jsstring :=
  match s with
  | [] => []
  | c :: t => if isWhiteSpace c then trimStart t else s
  end.

Definition trimEnd (s : jsstring) : jsstring := rev (trimStart (rev s)).

(** [s.trim()] *)
Definition trim (s : jsstring) : jsstring := trimEnd (trimStart s).

(** [!s.trim()] *)
Definition isBlank (s : jsstring) : bool :=
  match trim s with
  | [] => true
  | _ => false
  end.

(** [s.split(sep)] for a one-unit separator; the empty string splits into
    one empty piece. *)
Fixpoint split (sep : codeunit) (s : jsstring) : list jsstring :=
  match s with
  | [] => [[]]
  | c :: t =>
      if c =? sep then [] :: split sep t
      else match split sep t with
           | [] => [[c]]
           | w :: ws => (c :: w) :: ws
           end
  end.

(** [l.join(sep)] *)
Fixpoint join (sep : jsstring) (l : list jsstring) : jsstring :=
  match l with
  | [] => []
  | [x] => x
  | x :: t => x ++ sep ++ join sep t
  end.

(** [s.replace(/pat/g, rep)] for a literal, non-empty [pat]: leftmost
    non-overlapping occurrences, one pass.  [skip] counts the units of the
    occurrence just replaced that are still to be dropped. *)
Fixpoint replaceAll_go (pat rep : jsstring) (skip : nat) (s : jsstring)
  : jsstring :=
  match s with
  | [] => []
  | c :: t =>
      match skip with
      | S k => replaceAll_go pat rep k t
      | O =>
          if startsWith s pat
          then rep ++ replaceAll_go pat rep (pred (length pat)) t
          else c :: replaceAll_go pat rep 0 t
      end
  end.

Definition replaceAll (pat rep s : jsstring) : jsstring :=
  replaceAll_go pat rep 0 s.

(** [s.replace(pat, rep)] with a string pattern: the first occurrence only. *)
Fixpoint replaceFirst (pat rep s : jsstring) : jsstring :=
  match s with
  | [] => if startsWith [] pat then rep else []
  | c :: t =>
      if startsWith s pat then rep ++ skipn (length pat) s
      else c :: replaceFirst pat rep t
  end.

(** [s.replace(/[class]/g, f($&))]: every unit of the class is replaced by
    what [f] gives for it. *)
Definition replaceClass (cls : codeunit -> bool) (f : codeunit -> jsstring)
  (s : jsstring) : jsstring :=
  flat_map (fun c => if cls c then f c else [c]) s.

Definition inClass (cls : jsstring) (c : codeunit) : bool :=
  existsb (N.eqb c) cls.

(** [s.slice(1, -1)] *)
Definition slice_1_m1 (s : jsstring) : jsstring :=
  removelast (tl s).

(** [s.substring(n)] *)
Definition substringFrom (n : nat) (s : jsstring) : jsstring := skipn n s.

(** [s.substring(0, n)] *)
Definition substringTo (n : nat) (s : jsstring) : jsstring := firstn n s.

Definition isDigit (c : codeunit) : bool := (48 <=? c) && (c <=? 57).

(** [\w] *)
Definition isWordChar (c : codeunit) : bool :=
  isDigit c || ((65 <=? c) && (c <=? 90)) || ((97 <=? c) && (c <=? 122))
  || (c =? 95).

(** The longest prefix of units satisfying [p], and the rest. *)
Fixpoint span (p : codeunit -> bool) (s : jsstring) : jsstring * jsstring :=
  match s with
  | [] => ([], [])
  | c :: t =>
      if p c then let (a, b) := span p t in (c :: a, b) else ([], s)
  end.

(** [parseInt] on a run of decimal digits. *)
Definition parseDigits (s : jsstring) : Z :=
  fold_left (fun acc c => (acc * 10 + (Z.of_N c - 48))%Z) s 0%Z.

(** [String(n)] for a non-negative integer. *)
Fixpoint digits_go (fuel : nat) (n : N) (acc : jsstring) : jsstring :=
  match fuel with
  | O => acc
  | S f =>
      let acc' := (48 + n mod 10) :: acc in
      if n <? 10 then acc' else digits_go f (n / 10) acc'
  end.

Definition NToString (n : N) : jsstring :=
  digits_go (S (N.size_nat n)) n [].

Definition natToString (n : nat) : jsstring := NToString (N.of_nat n).

Definition intToString (z : Z) : jsstring :=
  if (z <? 0)%Z then 45 :: NToString (Z.to_N (- z))
  else NToString (Z.to_N z).

(** [toLowerCase] restricted to Basic Latin; the full Unicode table is a
    parameter of the AI service below, this is the instance used on ASCII
    examples. *)
Definition toLowerCaseAscii (s : jsstring) : jsstring :=
  map (fun c => if (65 <=? c) && (c <=? 90) then c + 32 else c) s.

End JsString.

Import JsString.

(* ===================================================================== *)
(** ** Exceptions *)
(* ===================================================================== *)

(** A thrown error object: its [name] and its [message]. *)
Record JsError := mkError {
  error_name : jsstring;
  error_message : jsstring
}.

Inductive Exc (A : Type) : Type :=
| Threw (e : JsError)
| Ok (a : A).
Arguments Threw {A} e.
Arguments Ok {A} a.

Definition bindE {A B} (m : Exc A) (k : A -> Exc B) : Exc B :=
  match m with
  | Threw e => Threw e
  | Ok a => k a
  end.

Notation "x <~ m ;; k" := (bindE m (fun x => k))
  (at level 61, m at next level, right associativity).

(* ===================================================================== *)
(** ** [GitService] (src/git-service.ts) *)
(* ===================================================================== *)

Module GitService.

Local Open Scope N_scope.

(** [interface GitFileStatus] *)
Record GitFileStatus := mkGitFileStatus {
  path : jsstring;
  status : jsstring;
  description : jsstring;
  staged : bool
}.

(** [CONSTANTS.GIT.STATUS_CODES] *)
Definition STATUS_MODIFIED : codeunit := 77.
Definition STATUS_ADDED : codeunit := 65.
Definition STATUS_DELETED : codeunit := 68.
Definition STATUS_RENAMED : codeunit := 82.
Definition STATUS_COPIED : codeunit := 67.
Definition STATUS_UNTRACKED : codeunit := 63.
Definition STATUS_SPACE : codeunit := 32.

(** [getStatusInfo] *)
Definition getStatusInfo (statusCode : codeunit) : jsstring * jsstring :=
  if statusCode =? STATUS_MODIFIED then (lit "M", lit "Modified")
  else if statusCode =? STATUS_ADDED then (lit "A", lit "Added")
  else if statusCode =? STATUS_DELETED then (lit "D", lit "Deleted")
  else if statusCode =? STATUS_RENAMED then (lit "R", lit "Renamed")
  else if statusCode =? STATUS_COPIED then (lit "C", lit "Copied")
  else (lit "C", lit "Changed").

(** A JavaScript [Map] with string keys: insertion ordered, [set] on a key
    already present keeps its position and replaces the value. *)
Definition JsMap (V : Type) := list (jsstring * V).

Fixpoint map_set {V} (m : JsMap V) (k : jsstring) (v : V) : JsMap V :=
  match m with
  | [] => [(k, v)]
  | (k', v') :: m' =>
      if JsString.eqb k' k then (k, v) :: m'
      else (k', v') :: map_set m' k v
  end.

Definition map_values {V} (m : JsMap V) : list V := map snd m.

(** The path of a porcelain line: [line.substring(3).trim()], unquoted when
    git quoted it. *)
Definition linePath (line : jsstring) : jsstring :=
  let path := trim (substringFrom 3 line) in
  if startsWith path [DQUOTE] && endsWith path [DQUOTE] then
    replaceAll [BACKSLASH; BACKSLASH] [BACKSLASH]
      (replaceAll [BACKSLASH; DQUOTE] [DQUOTE] (slice_1_m1 path))
  else path.

(** The body of the [forEach] in [getFileStatus]. *)
Definition processLine (fileMap : JsMap GitFileStatus) (line : jsstring)
  : JsMap GitFileStatus :=
  match line with
  | indexStatus :: workTreeStatus :: _ :: _ =>
      let path := linePath line in
      let m1 :=
        if negb (indexStatus =? STATUS_SPACE)
           && negb (indexStatus =? STATUS_UNTRACKED)
        then
          let (status, description) := getStatusInfo indexStatus in
          map_set fileMap (path ++ lit "_staged")
            (mkGitFileStatus path status description true)
        else fileMap in
      let m2 :=
        if negb (workTreeStatus =? STATUS_SPACE)
           && negb (indexStatus =? STATUS_UNTRACKED)
           && negb (workTreeStatus =? STATUS_UNTRACKED)
        then
          let (status, description) := getStatusInfo workTreeStatus in
          map_set m1 (path ++ lit "_unstaged")
            (mkGitFileStatus path status description false)
        else m1 in
      if (indexStatus =? STATUS_UNTRACKED)
         && (workTreeStatus =? STATUS_UNTRACKED)
      then
        map_set m2 (path ++ lit "_untracked")
          (mkGitFileStatus path (lit "?") (lit "Untracked") false)
      else m2
  | _ => fileMap
  end.

(** [getFileStatus], given how [git status --porcelain] ended: its standard
    output, or a failure of the command. *)
Definition getFileStatus (exec : Exc jsstring) : list GitFileStatus :=
  match exec with
  | Ok stdout =>
      let lines :=
        filter (fun line => negb (Nat.eqb (length line) 0))
          (split LF stdout) in
      map_values (fold_left processLine lines [])
  | Threw _ => []
  end.

(** The three kinds of entry [getFileStatus] produces, read off an entry:
    staged entries carry [staged = true], untracked ones the status [?]. *)
Inductive Category := Staged | Unstaged | Untracked.

Definition categoryOf (e : GitFileStatus) : Category :=
  if e.(staged) then Staged
  else if JsString.eqb e.(status) (lit "?") then Untracked
  else Unstaged.

Definition category_eqb (a b : Category) : bool :=
  match a, b with
  | Staged, Staged | Unstaged, Unstaged | Untracked, Untracked => true
  | _, _ => false
  end.

(** The key under which [getFileStatus] stores an entry of a category. *)
Definition keySuffix (c : Category) : jsstring :=
  match c with
  | Staged => lit "_staged"
  | Unstaged => lit "_unstaged"
  | Untracked => lit "_untracked"
  end.

Definition entryKey (e : GitFileStatus) : jsstring :=
  e.(path) ++ keySuffix (categoryOf e).

(** A map is well keyed when its keys are distinct and every entry sits
    under the key of its own path and category. *)
Definition WellKeyed (m : JsMap GitFileStatus) : Prop :=
  NoDup (map fst m) /\ Forall (fun kv => fst kv = entryKey (snd kv)) m.

(** [sanitizeFilePath] *)
Definition sanitizeFilePath (filePath : jsstring) : jsstring :=
  trim
    (replaceAll (lit "../") []
       (replaceClass (inClass (lit ";&|`$(){}[]")) (fun _ => []) filePath)).

(** [sanitizeCommitMessage] *)
Definition sanitizeCommitMessage (message : jsstring) : jsstring :=
  trim
    (replaceClass (inClass [BACKTICK; DOLLAR; BACKSLASH])
       (fun c => [BACKSLASH; c])
       (replaceAll [DQUOTE] [BACKSLASH; DQUOTE] message)).

(** The command line [stageFile] hands to the shell:
    [`${CONSTANTS.GIT.COMMANDS.ADD} "${sanitizedPath}"`]. *)
Definition stageFileCommand (filePath : jsstring) : jsstring :=
  lit "git add" ++ [SPACE; DQUOTE] ++ sanitizeFilePath filePath ++ [DQUOTE].

(** The command line of [commit]. *)
Definition commitCommand (message : jsstring) : jsstring :=
  lit "git commit -m" ++ [SPACE; DQUOTE] ++ sanitizeCommitMessage message
  ++ [DQUOTE].

(** [formatCommitMessage] *)
Definition formatCommitMessage (commitType scope message : jsstring)
  : jsstring :=
  let scopeStr :=
    match scope with [] => [] | _ => lit "(" ++ scope ++ lit ")" end in
  commitType ++ scopeStr ++ lit ": " ++ message.

End GitService.


(* ===================================================================== *)
(** ** JavaScript values *)
(* ===================================================================== *)

(** The values that [JSON.parse] can produce, and [undefined]. *)
Inductive JsValue : Type :=
| JUndefined
| JNull
| JBool (b : bool)
| JNum (q : Q)
| JStr (s : jsstring)
| JArr (items : list JsValue)
| JObj (fields : list (jsstring * JsValue)).

(** ToBoolean: what [!v] and [v || d] test. *)
Definition truthy (v : JsValue) : bool :=
  match v with
  | JUndefined | JNull => false
  | JBool b => b
  | JNum q => negb (Qeq_bool q 0)
  | JStr s => negb (Nat.eqb (length s) 0)
  | JArr _ | JObj _ => true
  end.

(** [v || d] *)
Definition orElse (v d : JsValue) : JsValue := if truthy v then v else d.

(** Own-property lookup and assignment on an object. *)
Fixpoint obj_get (fields : list (jsstring * JsValue)) (k : jsstring)
  : JsValue :=
  match fields with
  | [] => JUndefined
  | (k', v) :: fields' => if JsString.eqb k' k then v else obj_get fields' k
  end.

Fixpoint obj_set (fields : list (jsstring * JsValue)) (k : jsstring)
  (v : JsValue) : list (jsstring * JsValue) :=
  match fields with
  | [] => [(k, v)]
  | (k', v') :: fields' =>
      if JsString.eqb k' k then (k', v) :: fields'
      else (k', v') :: obj_set fields' k v
  end.

Definition TypeError (msg : string) : JsError :=
  mkError (lit "TypeError") (lit msg).

Definition SyntaxError (msg : string) : JsError :=
  mkError (lit "SyntaxError") (lit msg).

(** [new Error(msg)] *)
Definition Error (msg : jsstring) : JsError := mkError (lit "Error") msg.

(** [String(e)] for an error object ([Error.prototype.toString]). *)
Definition errorToString (e : JsError) : jsstring :=
  match e.(error_name), e.(error_message) with
  | [], m => m
  | n, [] => n
  | n, m => n ++ lit ": " ++ m
  end.

(** [v.name] for a property name that no prototype defines (none of the
    names the code reads is defined on a prototype): an own property of an
    object, [undefined] on any other value, a [TypeError] on [undefined] and
    [null]. *)
Definition getField (v : JsValue) (name : string) : Exc JsValue :=
  match v with
  | JUndefined | JNull => Threw (TypeError "Cannot read properties")
  | JObj fields => Ok (obj_get fields (lit name))
  | _ => Ok JUndefined
  end.

(** [v?.name] *)
Definition getFieldOpt (v : JsValue) (name : string) : JsValue :=
  match v with
  | JObj fields => obj_get fields (lit name)
  | _ => JUndefined
  end.

(** [v[0]] *)
Definition getFirst (v : JsValue) : Exc JsValue :=
  match v with
  | JUndefined | JNull => Threw (TypeError "Cannot read properties")
  | JArr items => Ok (hd JUndefined items)
  | JStr s => Ok match s with [] => JUndefined | c :: _ => JStr [c] end
  | JObj fields => Ok (obj_get fields (lit "0"))
  | _ => Ok JUndefined
  end.

(** [v?.[0]] *)
Definition getFirstOpt (v : JsValue) : JsValue :=
  match getFirst v with Ok x => x | Threw _ => JUndefined end.

(** [v.length] *)
Definition getLength (v : JsValue) : Exc JsValue :=
  match v with
  | JUndefined | JNull => Threw (TypeError "Cannot read properties")
  | JArr items => Ok (JNum (inject_Z (Z.of_nat (length items))))
  | JStr s => Ok (JNum (inject_Z (Z.of_nat (length s))))
  | JObj fields => Ok (obj_get fields (lit "length"))
  | _ => Ok JUndefined
  end.

(** [v === 'literal'] *)
Definition strictEqualsLit (v : JsValue) (l : string) : bool :=
  match v with
  | JStr s => JsString.eqb s (lit l)
  | _ => false
  end.

(* ===================================================================== *)
(** ** [JSON.parse] *)
(* ===================================================================== *)

Module JSON.

Local Open Scope N_scope.

Definition isJsonWs (c : codeunit) : bool :=
  (c =? 32) || (c =? 9) || (c =? 10) || (c =? 13).

Fixpoint skipWs (s : jsstring) : jsstring :=
  match s with
  | [] => []
  | c :: t => if isJsonWs c then skipWs t else s
  end.

Definition hexValue (c : codeunit) : option N :=
  if isDigit c then Some (c - 48)
  else if (97 <=? c) && (c <=? 102) then Some (c - 87)
  else if (65 <=? c) && (c <=? 70) then Some (c - 55)
  else None.

Definition unescape (c : codeunit) : option codeunit :=
  if c =? 34 then Some 34
  else if c =? 92 then Some 92
  else if c =? 47 then Some 47
  else if c =? 98 then Some 8
  else if c =? 102 then Some 12
  else if c =? 110 then Some 10
  else if c =? 114 then Some 13
  else if c =? 116 then Some 9
  else None.

(** The characters of a string literal, after its opening quote. *)
Fixpoint parseChars (s : jsstring) : option (jsstring * jsstring) :=
  match s with
  | [] => None
  | c :: t =>
      if c =? 34 then Some ([], t)
      else if c <? 32 then None
      else if c =? 92 then
        match t with
        | [] => None
        | e :: t1 =>
            if e =? 117 then
              match t1 with
              | h1 :: h2 :: h3 :: h4 :: t5 =>
                  match hexValue h1, hexValue h2, hexValue h3, hexValue h4
                  with
                  | Some a, Some b, Some c', Some d =>
                      match parseChars t5 with
                      | Some (r, rest) =>
                          Some ((a * 4096 + b * 256 + c' * 16 + d) :: r, rest)
                      | None => None
                      end
                  | _, _, _, _ => None
                  end
              | _ => None
              end
            else
              match unescape e with
              | Some u =>
                  match parseChars t1 with
                  | Some (r, rest) => Some (u :: r, rest)
                  | None => None
                  end
              | None => None
              end
        end
      else
        match parseChars t with
        | Some (r, rest) => Some (c :: r, rest)
        | None => None
        end
  end.

(** A number: an optional minus, then [0] or a digit run that does not
    start with [0], an optional fraction (a dot and a digit run), an
    optional exponent ([e] or [E], a sign, a digit run); with its exact
    decimal value. *)
Definition parseNumber (s : jsstring) : option (Q * jsstring) :=
  let (neg, s1) :=
    match s with
    | c :: t => if c =? 45 then (true, t) else (false, s)
    | [] => (false, s)
    end in
  let (intPart, s2) :=
    match s1 with
    | c :: t => if c =? 48 then ([c], t) else span isDigit s1
    | [] => ([], [])
    end in
  match intPart with
  | [] => None
  | _ =>
      let fracResult :=
        match s2 with
        | c :: t =>
            if c =? 46 then
              match span isDigit t with
              | ([], _) => None
              | (ds, r) => Some (ds, r)
              end
            else Some ([], s2)
        | [] => Some ([], s2)
        end in
      match fracResult with
      | None => None
      | Some (frac, s3) =>
          let expResult :=
            match s3 with
            | c :: t =>
                if (c =? 101) || (c =? 69) then
                  let (eneg, t') :=
                    match t with
                    | sg :: t1 =>
                        if sg =? 45 then (true, t1)
                        else if sg =? 43 then (false, t1)
                        else (false, t)
                    | [] => (false, t)
                    end in
                  match span isDigit t' with
                  | ([], _) => None
                  | (ds, r) =>
                      Some ((if eneg then - parseDigits ds
                             else parseDigits ds)%Z, r)
                  end
                else Some (0%Z, s3)
            | [] => Some (0%Z, s3)
            end in
          match expResult with
          | None => None
          | Some (e, rest) =>
              let m := parseDigits (intPart ++ frac) in
              let m := (if neg then - m else m)%Z in
              let e := (e - Z.of_nat (length frac))%Z in
              let q :=
                if (0 <=? e)%Z then inject_Z (m * 10 ^ e)
                else Qmake m (Z.to_pos (10 ^ (- e))) in
              Some (q, rest)
          end
      end
  end.

(** Values, the elements of an array after [[] or [,], and the members of
    an object after [{] or [,].  [fuel] bounds the calls; every second call
    at least consumes one unit, so [2 * length + 2] is enough. *)
Fixpoint parseValue (fuel : nat) (s : jsstring)
  : option (JsValue * jsstring) :=
  match fuel with
  | O => None
  | S f =>
      match skipWs s with
      | [] => None
      | c :: t =>
          if c =? 123 then
            match skipWs t with
            | c' :: t' =>
                if c' =? 125 then Some (JObj [], t')
                else parseMembers f [] t
            | [] => None
            end
          else if c =? 91 then
            match skipWs t with
            | c' :: t' =>
                if c' =? 93 then Some (JArr [], t')
                else parseElements f [] t
            | [] => None
            end
          else if c =? 34 then
            match parseChars t with
            | Some (str, rest) => Some (JStr str, rest)
            | None => None
            end
          else if startsWith (c :: t) (lit "true") then
            Some (JBool true, skipn 4 (c :: t))
          else if startsWith (c :: t) (lit "false") then
            Some (JBool false, skipn 5 (c :: t))
          else if startsWith (c :: t) (lit "null") then
            Some (JNull, skipn 4 (c :: t))
          else
            match parseNumber (c :: t) with
            | Some (q, rest) => Some (JNum q, rest)
            | None => None
            end
      end
  end

with parseElements (fuel : nat) (acc : list JsValue) (s : jsstring)
  : option (JsValue * jsstring) :=
  match fuel with
  | O => None
  | S f =>
      match parseValue f s with
      | Some (v, rest) =>
          match skipWs rest with
          | c :: t =>
              if c =? 44 then parseElements f (acc ++ [v]) t
              else if c =? 93 then Some (JArr (acc ++ [v]), t)
              else None
          | [] => None
          end
      | None => None
      end
  end

with parseMembers (fuel : nat) (acc : list (jsstring * JsValue))
  (s : jsstring) : option (JsValue * jsstring) :=
  match fuel with
  | O => None
  | S f =>
      match skipWs s with
      | q :: t0 =>
          if q =? 34 then
            match parseChars t0 with
            | Some (k, r1) =>
                match skipWs r1 with
                | colon :: r2 =>
                    if colon =? 58 then
                      match parseValue f r2 with
                      | Some (v, rest) =>
                          match skipWs rest with
                          | c :: t =>
                              if c =? 44 then parseMembers f (obj_set acc k v) t
                              else if c =? 125 then
                                Some (JObj (obj_set acc k v), t)
                              else None
                          | [] => None
                          end
                      | None => None
                      end
                    else None
                | [] => None
                end
            | None => None
            end
          else None
      | [] => None
      end
  end.

(** [JSON.parse(text)]: the value, or a [SyntaxError]. *)
Definition parse (text : jsstring) : Exc JsValue :=
  match parseValue (2 * length text + 2) text with
  | Some (v, rest) =>
      match skipWs rest with
      | [] => Ok v
      | _ => Threw (SyntaxError "Unexpected token in JSON")
      end
  | None => Threw (SyntaxError "Unexpected token in JSON")
  end.

End JSON.

(* ===================================================================== *)
(** ** [AIService]: the rule engine *)
(* ===================================================================== *)

Module AIService.

Local Open Scope N_scope.

(** [interface AICommitContent].  The fields hold what the code stores in
    them at run time: the rule engine stores strings and a number, the
    response parser stores whatever the provider's JSON held. *)
Record AICommitContent := mkContent {
  type : JsValue;
  scope : JsValue;
  message : JsValue;
  confidence : JsValue
}.

(** The shape of [changeStats]. *)
Record ChangeStats := mkStats {
  additions : Z;
  deletions : Z;
  fileCount : Z
}.

(** The shape of [contentAnalysis]. *)
Record ContentAnalysis := mkAnalysis {
  hasNewFeature : bool;
  hasBugFix : bool;
  hasRefactor : bool;
  hasTests : bool;
  hasDocs : bool;
  hasStyles : bool;
  hasConfig : bool
}.

(** All matches of [/pre(cls+)/g], for a literal [pre] and a greedy run of
    a character class: each match is [pre] followed by the longest run. *)
Fixpoint matchAllRun (pre : jsstring) (cls : codeunit -> bool) (skip : nat)
  (s : jsstring) : list jsstring :=
  match s with
  | [] => []
  | _ :: t =>
      match skip with
      | S k => matchAllRun pre cls k t
      | O =>
          if startsWith s pre then
            match fst (span cls (skipn (length pre) s)) with
            | [] => matchAllRun pre cls 0 t
            | run =>
                (pre ++ run)
                :: matchAllRun pre cls (pred (length pre + length run)) t
            end
          else matchAllRun pre cls 0 t
      end
  end.

(** [m.match(/\d+/)?.[0] || '0'] *)
Fixpoint firstDigitRun (m : jsstring) : jsstring :=
  match m with
  | [] => lit "0"
  | c :: t => if isDigit c then fst (span isDigit m) else firstDigitRun t
  end.

(** [extractFilePatterns]: [/檔案: ([^\n]+)/g] *)
Definition extractFilePatterns (summary : jsstring) : list jsstring :=
  let fileMatches :=
    matchAllRun (lit "檔案: ") (fun c => negb (c =? LF)) 0 summary in
  map (fun m => trim (replaceFirst (lit "檔案: ") [] m)) fileMatches.

(** [extractChangeStats] *)
Definition extractChangeStats (summary : jsstring) : ChangeStats :=
  let additionsMatch := matchAllRun (lit "新增: +") isDigit 0 summary in
  let deletionsMatch := matchAllRun (lit "刪除: -") isDigit 0 summary in
  let fileCountMatch := matchAllRun (lit "變更檔案數量: ") isDigit 0 summary in
  let sum l :=
    fold_left (fun acc m => (acc + parseDigits (firstDigitRun m))%Z) l 0%Z in
  mkStats (sum additionsMatch) (sum deletionsMatch)
    match fileCountMatch with
    | m :: _ => parseDigits (skipn (length (lit "變更檔案數量: ")) m)
    | [] => 0%Z
    end.

(** [analyzeContent] *)
Definition analyzeContent (content : jsstring) : ContentAnalysis :=
  mkAnalysis
    (testAny [lit "新增"; lit "add"; lit "create"; lit "implement";
              lit "feature"] content)
    (testAny [lit "fix"; lit "bug"; lit "error"; lit "修復"; lit "錯誤";
              lit "問題"] content)
    (testAny [lit "refactor"; lit "重構"; lit "reorganize";
              lit "restructure"] content)
    (testAny [lit "test"; lit "spec"; lit "測試"] content)
    (testAny [lit "readme"; lit "doc"; lit "文檔"; lit "說明"] content)
    (testAny [lit "style"; lit "format"; lit "css"; lit "scss"; lit "格式"]
       content)
    (testAny [lit "config"; lit "setting"; lit "package.json"; lit ".json";
              lit "設定"] content).

(** [s === 'literal'] *)
Definition equalsLit (s : jsstring) (l : string) : bool :=
  JsString.eqb s (lit l).

(** [/\.(a|b|..)$/.test(f)] *)
Definition hasExtension (exts : list jsstring) (f : jsstring) : bool :=
  existsb (fun e => endsWith f (lit "." ++ e)) exts.

Local Open Scope Q_scope.

Section Host.

(** [String.prototype.toLowerCase] of the host (the Unicode case table). *)
Variable toLowerCase : jsstring -> jsstring.

(** [/\.(test|spec)\.(js|ts|jsx|tsx)$/.test(f) || f.includes('/test/')
    || f.includes('/tests/')] *)
Definition isTestFile (f : jsstring) : bool :=
  existsb
    (fun a =>
       existsb (fun b => endsWith f (lit "." ++ a ++ lit "." ++ b))
         [lit "js"; lit "ts"; lit "jsx"; lit "tsx"])
    [lit "test"; lit "spec"]
  || includes f (lit "/test/") || includes f (lit "/tests/").

(** [/\.(md|txt|rst)$/i.test(f) || f.toLowerCase().includes('readme')].
    Without the [u] flag, [/i] never lets a unit above 127 match a Basic
    Latin one, so the test is the case-sensitive one on the Basic Latin
    lower-casing of [f]. *)
Definition isDocFile (f : jsstring) : bool :=
  hasExtension [lit "md"; lit "txt"; lit "rst"] (toLowerCaseAscii f)
  || includes (toLowerCase f) (lit "readme").

(** [/\.(json|yml|yaml|toml|ini)$/.test(f) || f.includes('config')] *)
Definition isConfigFile (f : jsstring) : bool :=
  hasExtension [lit "json"; lit "yml"; lit "yaml"; lit "toml"; lit "ini"] f
  || includes f (lit "config").

(** [/\.(css|scss|sass|less|stylus)$/.test(f)] *)
Definition isStyleFile (f : jsstring) : bool :=
  hasExtension [lit "css"; lit "scss"; lit "sass"; lit "less"; lit "stylus"] f.

(** [determineCommitType] *)
Definition determineCommitType (filePatterns : list jsstring)
  (contentAnalysis : ContentAnalysis) (changeStats : ChangeStats)
  : jsstring * Q :=
  let hasTestFiles := existsb isTestFile filePatterns in
  let hasDocFiles := existsb isDocFile filePatterns in
  let hasConfigFiles := existsb isConfigFile filePatterns in
  let hasStyleFiles := existsb isStyleFile filePatterns in
  let hasNewFiles :=
    (changeStats.(additions) >? changeStats.(deletions) * 2)%Z in
  let hasOnlyDeletions :=
    (changeStats.(additions) =? 0)%Z && (changeStats.(deletions) >? 0)%Z in
  if hasTestFiles && contentAnalysis.(hasTests) then (lit "test", 0.9)
  else if hasDocFiles && contentAnalysis.(hasDocs) then (lit "docs", 0.9)
  else if contentAnalysis.(hasBugFix) then (lit "fix", 0.85)
  else if hasNewFiles && contentAnalysis.(hasNewFeature) then
    (lit "feat", 0.85)
  else if contentAnalysis.(hasRefactor) then (lit "refactor", 0.8)
  else if hasStyleFiles && contentAnalysis.(hasStyles) then (lit "style", 0.8)
  else if hasConfigFiles || contentAnalysis.(hasConfig) then
    if existsb (fun f => includes f (lit "package.json")) filePatterns
    then (lit "build", 0.8)
    else (lit "chore", 0.75)
  else if hasOnlyDeletions then (lit "refactor", 0.7)
  else if hasNewFiles then (lit "feat", 0.7)
  else if (changeStats.(fileCount) =? 1)%Z then (lit "fix", 0.65)
  else (lit "chore", 0.6).

(** [[...new Set(dirs)]]: first occurrences, in order. *)
Fixpoint dedupe (seen l : list jsstring) : list jsstring :=
  match l with
  | [] => []
  | x :: t =>
      if existsb (JsString.eqb x) seen then dedupe seen t
      else x :: dedupe (x :: seen) t
  end.

Definition commonScopes : list jsstring :=
  [lit "components"; lit "services"; lit "utils"; lit "api"; lit "auth";
   lit "ui"; lit "core"].

(** [extractScope] *)
Definition extractScope (filePatterns : list jsstring) : jsstring :=
  match filePatterns with
  | [] => []
  | _ =>
      let dirs :=
        filter
          (fun d => negb (JsString.eqb d (lit "src"))
                    && negb (JsString.eqb d (lit "."))
                    && negb (Nat.eqb (length d) 0))
          (map (fun f => hd [] (split SLASH f)) filePatterns) in
      let uniqueDirs := dedupe [] dirs in
      match uniqueDirs with
      | [d] => d
      | _ =>
          match
            find (fun dir =>
                    existsb (JsString.eqb (toLowerCase dir)) commonScopes)
              uniqueDirs
          with
          | Some foundScope => foundScope
          | None => []
          end
      end
  end.

(** The label of one file in [getPrimaryFileType]. *)
Definition fileTypeLabel (f : jsstring) : jsstring :=
  let ext := toLowerCase (last (split DOT f) []) in
  let path := toLowerCase f in
  if equalsLit ext "tsx" || equalsLit ext "jsx"
     || includes path (lit "component") then lit "組件"
  else if equalsLit ext "ts" || equalsLit ext "js" then lit "JS"
  else if equalsLit ext "css" || equalsLit ext "scss" || equalsLit ext "sass"
  then lit "樣式"
  else if equalsLit ext "md" then lit "文檔"
  else if equalsLit ext "json" || equalsLit ext "yml" || equalsLit ext "yaml"
  then lit "配置"
  else if includes path (lit "test") || includes path (lit "spec") then
    lit "測試"
  else if includes path (lit "api") || includes path (lit "service") then
    lit "API"
  else [].

(** [acc[type] = (acc[type] || 0) + 1] on an object whose keys keep their
    insertion order. *)
Fixpoint countUp (acc : list (jsstring * Z)) (k : jsstring)
  : list (jsstring * Z) :=
  match acc with
  | [] => [(k, 1%Z)]
  | (k', n) :: acc' =>
      if JsString.eqb k' k then (k', (n + 1)%Z) :: acc'
      else (k', n) :: countUp acc' k
  end.

(** [.sort(([,a], [,b]) => b - a)]: stable, larger counts first. *)
Fixpoint insertDesc (x : jsstring * Z) (l : list (jsstring * Z))
  : list (jsstring * Z) :=
  match l with
  | [] => [x]
  | y :: l' =>
      if (snd y <? snd x)%Z then x :: l else y :: insertDesc x l'
  end.

Definition sortDesc (l : list (jsstring * Z)) : list (jsstring * Z) :=
  fold_left (fun sorted x => insertDesc x sorted) l [].

(** [getPrimaryFileType] *)
Definition getPrimaryFileType (filePatterns : list jsstring) : jsstring :=
  match filePatterns with
  | [] => []
  | _ =>
      let types :=
        filter (fun t => negb (Nat.eqb (length t) 0))
          (map fileTypeLabel filePatterns) in
      let typeCount := fold_left countUp types [] in
      match sortDesc typeCount with
      | (t, _) :: _ => t
      | [] => []
      end
  end.

(** [generateMessage] *)
Definition generateMessage (type : jsstring) (filePatterns : list jsstring)
  (changeStats : ChangeStats) (contentAnalysis : ContentAnalysis)
  : jsstring :=
  let hasMultipleFiles := (changeStats.(fileCount) >? 1)%Z in
  let primaryFileType := getPrimaryFileType filePatterns in
  let hasPrimary := negb (Nat.eqb (length primaryFileType) 0) in
  if equalsLit type "feat" then
    if contentAnalysis.(hasNewFeature) then
      if hasMultipleFiles then lit "新增功能模組" else lit "新增功能"
    else if hasPrimary then lit "新增" ++ primaryFileType ++ lit "功能"
    else lit "新增功能"
  else if equalsLit type "fix" then
    if contentAnalysis.(hasBugFix) then
      if hasMultipleFiles then lit "修復多個問題" else lit "修復問題"
    else if hasPrimary then lit "修復" ++ primaryFileType ++ lit "問題"
    else lit "修復問題"
  else if equalsLit type "docs" then
    if hasMultipleFiles then lit "更新文檔" else lit "更新說明文檔"
  else if equalsLit type "test" then
    if hasMultipleFiles then lit "更新測試用例" else lit "新增測試"
  else if equalsLit type "refactor" then
    if hasPrimary then lit "重構" ++ primaryFileType ++ lit "代碼"
    else lit "重構代碼"
  else if equalsLit type "style" then lit "調整代碼格式"
  else if equalsLit type "build" then
    if existsb (fun f => includes f (lit "package.json")) filePatterns
    then lit "更新依賴配置"
    else lit "更新建置配置"
  else
    if hasPrimary then lit "更新" ++ primaryFileType
    else if hasMultipleFiles then lit "更新多個檔案" else lit "更新代碼".

(** [Math.min(a, b)] on finite numbers. *)
Definition Math_min (a b : Q) : Q := if Qle_bool a b then a else b.

(** [s || undefined] *)
Definition strOrUndefined (s : jsstring) : JsValue :=
  match s with [] => JUndefined | _ => JStr s end.

(** [generateWithEnhancedRules] *)
Definition generateWithEnhancedRules (diffSummary : jsstring)
  : AICommitContent :=
  let lines := toLowerCase diffSummary in
  let originalSummary := diffSummary in
  let filePatterns := extractFilePatterns originalSummary in
  let changeStats := extractChangeStats originalSummary in
  let contentAnalysis := analyzeContent lines in
  let typeAnalysis :=
    determineCommitType filePatterns contentAnalysis changeStats in
  let type := fst typeAnalysis in
  let confidence := snd typeAnalysis in
  let scope := extractScope filePatterns in
  let message :=
    generateMessage type filePatterns changeStats contentAnalysis in
  mkContent (JStr type) (strOrUndefined scope) (JStr message)
    (JNum (Math_min confidence 0.9)).

(** *** Parsing a provider's answer *)

(** The suffix that starts at the first unit satisfying [p]. *)
Fixpoint fromFirst (p : codeunit -> bool) (s : jsstring) : option jsstring :=
  match s with
  | [] => None
  | c :: t => if p c then Some s else fromFirst p t
  end.

(** [response.match(/\{[\s\S]*\}/)]: from the first opening brace to the
    last closing brace after it. *)
Definition matchBraces (response : jsstring) : option jsstring :=
  match fromFirst (N.eqb 123) response with
  | Some (open :: rest) =>
      match fromFirst (N.eqb 125) (rev rest) with
      | Some r => Some (open :: rev r)
      | None => None
      end
  | _ => None
  end.

Definition commitTypes : list jsstring :=
  [lit "feat"; lit "fix"; lit "refactor"; lit "docs"; lit "style";
   lit "test"; lit "chore"; lit "perf"; lit "ci"; lit "build"; lit "revert"].

(** What [.] does not match. *)
Definition isLineTerminator (c : codeunit) : bool :=
  (c =? 10) || (c =? 13) || (c =? 8232) || (c =? 8233).

(** The groups of
    [/^(feat|fix|...|revert)(\([^)]+\))?: (.+)/] on [response]: type, scope
    between the parentheses (empty without the group), message.  No type is
    a prefix of another and the optional group, once its opening parenthesis
    is there, cannot be skipped, so there is one way to match. *)
Definition matchCommit (response : jsstring)
  : option (jsstring * jsstring * jsstring) :=
  match find (startsWith response) commitTypes with
  | None => None
  | Some ty =>
      let rest := skipn (length ty) response in
      let afterScope :=
        match rest with
        | c :: t =>
            if c =? 40 then
              match span (fun c => negb (c =? 41)) t with
              | (x :: run, _ :: r) => Some (x :: run, r)
              | _ => None
              end
            else Some ([], rest)
        | [] => Some ([], rest)
        end in
      match afterScope with
      | None => None
      | Some (sc, r) =>
          if startsWith r (lit ": ") then
            match fst (span (fun c => negb (isLineTerminator c)) (skipn 2 r))
            with
            | [] => None
            | msg => Some (ty, sc, msg)
            end
          else None
      end
  end.

Definition isQuote (c : codeunit) : bool :=
  (c =? DQUOTE) || (c =? SQUOTE) || (c =? BACKTICK).

Fixpoint dropWhile (p : codeunit -> bool) (s : jsstring) : jsstring :=
  match s with
  | [] => []
  | c :: t => if p c then dropWhile p t else s
  end.

(** [m.replace(/^[quotes]+|[quotes]+$/g, '')]: the leading run of quote
    characters, then the trailing run of what is left. *)
Definition stripQuotes (m : jsstring) : jsstring :=
  rev (dropWhile isQuote (rev (dropWhile isQuote m))).

(** [parseAIResponse] on a string. *)
Definition parseAIResponse (response : jsstring) : AICommitContent :=
  let tryJson : Exc (option AICommitContent) :=
    match matchBraces response with
    | Some jsonMatch =>
        parsed <~ JSON.parse jsonMatch ;;
        ty <~ getField parsed "type" ;;
        sc <~ getField parsed "scope" ;;
        msg <~ getField parsed "message" ;;
        conf <~ getField parsed "confidence" ;;
        Ok (Some (mkContent (orElse ty (JStr (lit "chore")))
                    (orElse sc JUndefined)
                    (orElse msg (JStr (lit "更新代碼")))
                    (orElse conf (JNum 0.8))))
    | None => Ok None
    end in
  match tryJson with
  | Ok (Some content) => content
  | _ =>
      let firstLine := hd [] (split LF response) in
      let type := lit "chore" in
      let scope : jsstring := [] in
      let message :=
        match firstLine with [] => lit "更新代碼" | _ => firstLine end in
      let '(type, scope, message) :=
        match matchCommit response with
        | Some groups => groups
        | None => (type, scope, message)
        end in
      mkContent (JStr type) (strOrUndefined scope)
        (JStr (trim (stripQuotes message))) (JNum 0.7)
  end.

(** [this.parseAIResponse(content)] where [content] is whatever truthy value
    the response held: on anything but a string, [response.match] is not a
    function. *)
Definition callParseAIResponse (content : JsValue) : Exc AICommitContent :=
  match content with
  | JStr s => Ok (parseAIResponse s)
  | _ => Threw (TypeError "response.match is not a function")
  end.

(** *** Constants *)

(** [CONSTANTS.AI] *)
Definition MAX_DIFF_LENGTH : Q := 8000.
Definition GEMINI_MAX_DIFF_LENGTH : Q := 3000.
Definition GEMINI_SUMMARY_LENGTH : Q := 800.
Definition DEFAULT_MODEL : jsstring := lit "gpt-3.5-turbo".
Definition TIMEOUT : Z := 30000.

Definition PROMPT_SYSTEM : jsstring :=
  lit "你是一個專業的 Git commit 訊息生成助手。請根據提供的程式碼變更，生成符合 Conventional Commits 規範的 commit 訊息。

撰寫規則：
1. 使用繁體中文描述
2. 格式：type(scope): description
3. type 必須是：feat, fix, refactor, docs, style, test, chore, perf, ci, build, revert 之一
4. description 要**詳細但精準**，說明「做了什麼」和「影響範圍」
5. **多檔案處理**：當涉及多個檔案時，整合描述共同目標，不要逐一列舉檔案
6. **適當長度**：描述應為 15-50 字，避免過短（<10字）或冗長（>60字）
7. scope 選擇：單一模組用具體名稱，跨模組變更可省略或用通用詞

描述品質標準：
✅ 好的描述：「新增用戶身份驗證功能並集成 JWT token 管理」
✅ 好的描述：「重構資料庫連接層以提升性能和錯誤處理」
✅ 好的描述：「修復檔案上傳時的記憶體洩漏和進度追蹤問題」
❌ 避免過短：「修復 bug」、「更新檔案」
❌ 避免過長：「修復了在特定情況下當用戶嘗試上傳大檔案時可能出現的記憶體洩漏問題並改善了進度條顯示邏輯」

請返回 JSON 格式：
{
  " ++ [DQUOTE] ++
  lit "type" ++ [DQUOTE] ++
  lit ": " ++ [DQUOTE] ++
  lit "feat|fix|refactor|docs|style|test|chore|perf|ci|build|revert" ++ [DQUOTE] ++
  lit ",
  " ++ [DQUOTE] ++
  lit "scope" ++ [DQUOTE] ++
  lit ": " ++ [DQUOTE] ++
  lit "模組名稱或省略" ++ [DQUOTE] ++
  lit ",
  " ++ [DQUOTE] ++
  lit "message" ++ [DQUOTE] ++
  lit ": " ++ [DQUOTE] ++
  lit "詳細且精準的變更描述（15-50字）" ++ [DQUOTE] ++
  lit ",
  " ++ [DQUOTE] ++
  lit "confidence" ++ [DQUOTE] ++
  lit ": 0.0-1.0
}".

Definition PROMPT_USER_PREFIX : jsstring :=
  lit "請分析以下 Git diff 並生成 commit 訊息：" ++ [LF; LF].

(** *** The condensed summary for Gemini *)

(** [s.length] as a number. *)
Definition lengthOf (s : jsstring) : Q := inject_Z (Z.of_nat (length s)).

(** [a > b] *)
Definition gt (a b : Q) : bool := negb (Qle_bool a b).

(** The leftmost position at which [m] matches. *)
Fixpoint firstMatch {A} (m : jsstring -> option A) (s : jsstring)
  : option A :=
  match m s with
  | Some a => Some a
  | None =>
      match s with
      | [] => None
      | _ :: t => firstMatch m t
      end
  end.

(** The loop over the first three file lines, each followed by the stats
    line of the same index when there is one. *)
Fixpoint fileHeader (n : nat) (fileLines statsLines : list jsstring)
  : jsstring :=
  match n, fileLines with
  | S k, f :: fs =>
      match statsLines with
      | st :: sts => f ++ [LF] ++ st ++ [LF] ++ fileHeader k fs sts
      | [] => f ++ [LF] ++ fileHeader k fs []
      end
  | _, _ => []
  end.

(** A quote, a non-empty run without quotes, a quote: the run and what
    follows. *)
Definition quotedName (s : jsstring) : option (jsstring * jsstring) :=
  let q c := (c =? SQUOTE) || (c =? DQUOTE) in
  match s with
  | c :: t =>
      if q c then
        match span (fun c => negb (q c)) t with
        | (x :: run, _ :: r) => Some (x :: run, r)
        | _ => None
        end
      else None
  | [] => None
  end.

(** [/require\(['"]([^'"]+)['"]\)|from ['"]([^'"]+)['"]/] anchored at the
    start of [s]: the group that matched. *)
Definition moduleAt (s : jsstring) : option jsstring :=
  let alt1 :=
    if startsWith s (lit "require(") then
      match quotedName (skipn 8 s) with
      | Some (name, r) => if startsWith r (lit ")") then Some name else None
      | None => None
      end
    else None in
  match alt1 with
  | Some name => Some name
  | None =>
      if startsWith s (lit "from ") then
        match quotedName (skipn 5 s) with
        | Some (name, _) => Some name
        | None => None
        end
      else None
  end.

(** [line.replace(/^[+-]\s*/, '')] *)
Definition stripDiffPrefix (line : jsstring) : jsstring :=
  match line with
  | c :: t => if (c =? 43) || (c =? 45) then dropWhile isWhiteSpace t else line
  | [] => []
  end.

(** [/function\s+(\w+)/] anchored at the start of [s]. *)
Definition functionAt (s : jsstring) : option jsstring :=
  if startsWith s (lit "function") then
    match span isWhiteSpace (skipn 8 s) with
    | (_ :: _, r) =>
        match fst (span isWordChar r) with
        | [] => None
        | name => Some name
        end
    | _ => None
    end
  else None.

(** [/const\s+(\w+)\s*=/] anchored at the start of [s]. *)
Definition constAt (s : jsstring) : option jsstring :=
  if startsWith s (lit "const") then
    match span isWhiteSpace (skipn 5 s) with
    | (_ :: _, r) =>
        match span isWordChar r with
        | (x :: name, r') =>
            if startsWith (dropWhile isWhiteSpace r') (lit "=")
            then Some (x :: name) else None
        | _ => None
        end
    | _ => None
    end
  else None.

(** [/mark\s*SIGN(\d+)/] anchored at the start of [s]: the digits. *)
Definition countAt (mark : jsstring) (sign : codeunit) (s : jsstring)
  : option jsstring :=
  if startsWith s mark then
    match dropWhile isWhiteSpace (skipn (length mark) s) with
    | c :: t =>
        if c =? sign then
          match fst (span isDigit t) with
          | [] => None
          | ds => Some ds
          end
        else None
    | [] => None
    end
  else None.

(** The module name of one import line. *)
Definition moduleOf (line : jsstring) : jsstring :=
  match firstMatch moduleAt line with
  | Some name => name
  | None => trim (stripDiffPrefix line)
  end.

(** The label of one function line. *)
Definition functionOf (line : jsstring) : jsstring :=
  let clean := trim (stripDiffPrefix line) in
  if includes clean (lit "function ") then
    match firstMatch functionAt clean with
    | Some name => name ++ lit "()"
    | None => lit "新函數"
    end
  else if includes clean (lit "const ") && includes clean (lit "=") then
    match firstMatch constAt clean with
    | Some name => name ++ lit "()"
    | None => lit "新常數"
    end
  else if includes clean (lit "switch") || includes clean (lit "case") then
    if (50 <? length clean)%nat then substringTo 50 clean ++ lit "..."
    else clean
  else
    if (40 <? length clean)%nat then substringTo 40 clean ++ lit "..."
    else clean.

(** The sum of the counts that follow [mark] on the lines containing it. *)
Definition totalOf (mark : jsstring) (sign : codeunit)
  (lines : list jsstring) : Z :=
  fold_left
    (fun sum line =>
       (sum + match firstMatch (countAt mark sign) line with
              | Some ds => parseDigits ds
              | None => 0
              end)%Z)
    (filter (fun l => includes l mark) lines) 0%Z.

(** The [for ... break] loop that keeps sections while they fit. *)
Fixpoint takeSections (currentLength : nat) (sections : list jsstring)
  : jsstring :=
  match sections with
  | [] => []
  | section :: rest =>
      if (currentLength + length section + 1 <=? 800 - 50)%nat then
        section ++ [LF]
        ++ takeSections (currentLength + length section + 1) rest
      else []
  end.

(** [truncateDiffForGemini].  ([structuralLines] of the source is computed
    and never read.) *)
Definition truncateDiffForGemini (diffSummary : jsstring) : jsstring :=
  let maxLength := GEMINI_SUMMARY_LENGTH in
  if Qle_bool (lengthOf diffSummary) maxLength then diffSummary
  else
    let lines := split LF diffSummary in
    let fileLines := filter (fun line => includes line (lit "檔案:")) lines in
    let statsLines :=
      filter (fun line => includes line (lit "新增:")
                          && includes line (lit "刪除:")) lines in
    let summary := fileHeader 3 fileLines statsLines in
    let importLines :=
      filter (fun line => includes line (lit "require(")
                          || includes line (lit "import ")
                          || includes line (lit "from ")) lines in
    let functionLines :=
      filter
        (fun line =>
           let l := trim line in
           (startsWith l (lit "+") || startsWith l (lit "-"))
           && (includes l (lit "function ") || includes l (lit "const ")
               || includes l (lit "= async") || includes l (lit "= (")
               || includes l (lit "switch") || includes l (lit "case ")))
        lines in
    let summary :=
      match importLines with
      | [] => summary
      | _ =>
          let modules :=
            filter (fun m => negb (Nat.eqb (length m) 0))
              (map moduleOf (firstn 5 importLines)) in
          summary ++ [LF] ++ lit "新增模組: " ++ join (lit ", ") modules
          ++ [LF]
      end in
    let summary :=
      match functionLines with
      | [] => summary
      | _ =>
          let functions :=
            filter (fun f => (3 <? length f)%nat)
              (map functionOf (firstn 8 functionLines)) in
          summary ++ [LF] ++ lit "主要函數變更: " ++ join (lit ", ") functions
          ++ [LF]
      end in
    let totalAdded := totalOf (lit "新增:") 43%N lines in
    let totalDeleted := totalOf (lit "刪除:") 45%N lines in
    let summary :=
      if (totalAdded >? 0)%Z || (totalDeleted >? 0)%Z then
        summary ++ [LF] ++ lit "變更規模: +" ++ intToString totalAdded
        ++ lit "/-" ++ intToString totalDeleted ++ lit " 行"
      else summary in
    if gt (lengthOf summary) maxLength then
      let summarySections :=
        filter (fun line => negb (Nat.eqb (length (trim line)) 0))
          (split LF summary) in
      takeSections 0 summarySections ++ [LF] ++ lit "(智能摘要，原始 "
      ++ natToString (length diffSummary) ++ lit " 字符)"
    else summary.

(** *** The host: configuration, network, notifications *)

Inductive Provider := openai | anthropic | gemini | local | rules.

(** [interface AIConfig] *)
Record AIConfig := mkConfig {
  provider : Provider;
  apiKey : option jsstring;
  model : option jsstring;
  endpoint : option jsstring
}.

(** Truthiness of an optional string, and [o || d]. *)
Definition isSet (o : option jsstring) : bool :=
  match o with
  | Some (_ :: _) => true
  | _ => false
  end.

Definition optOr (o : option jsstring) (d : jsstring) : jsstring :=
  match o with
  | Some (c :: t) => c :: t
  | _ => d
  end.

Inductive Method := GET | POST.

(** What is handed to [fetch].  [body] is the object given to
    [JSON.stringify], [JUndefined] when the request has none; [timeout] is
    the argument of [AbortSignal.timeout]. *)
Record Request := mkRequest {
  url : jsstring;
  method : Method;
  headers : list (jsstring * jsstring);
  body : JsValue;
  timeout : Z
}.

(** What [fetch] resolves to.  [text] is the result of reading the body,
    which can fail. *)
Record Response := mkResponse {
  ok : bool;
  status : Z;
  statusText : jsstring;
  text : Exc jsstring
}.

(** [response.json()] *)
Definition json (r : Response) : Exc JsValue :=
  t <~ r.(text) ;; JSON.parse t.

(** What a call leaves behind in the host: the requests it sent and the
    notifications it showed.  ([console] output is not recorded.) *)
Inductive Event :=
| Fetched (r : Request)
| WarningShown (msg : jsstring) (items : list jsstring)
| InformationShown (msg : jsstring).

(** Computations that record events and may throw. *)
Definition M (A : Type) : Type := list Event * Exc A.

Definition ret {A} (a : A) : M A := ([], Ok a).

Definition throw {A} (e : JsError) : M A := ([], Threw e).

Definition bind {A B} (m : M A) (k : A -> M B) : M B :=
  match m with
  | (tr, Threw e) => (tr, Threw e)
  | (tr, Ok a) => let (tr', r) := k a in (tr ++ tr', r)
  end.

Definition emit (ev : Event) : M unit := ([ev], Ok tt).

Definition liftE {A} (x : Exc A) : M A := ([], x).

(** [try { m } catch (error) { handler(error) }] *)
Definition tryCatch {A} (m : M A) (handler : JsError -> M A) : M A :=
  match m with
  | (tr, Threw e) => let (tr', r) := handler e in (tr ++ tr', r)
  | (tr, Ok a) => (tr, Ok a)
  end.

Notation "x <- m ;; k" := (bind m (fun x => k))
  (at level 61, m at next level, right associativity).
Notation "m ;;; k" := (bind m (fun _ => k))
  (at level 61, right associativity).

(** [fetch] of the host: a response, or a rejection (no connection, abort
    on timeout). *)
Variable fetch : Request -> Exc Response.

(** [JSON.stringify] of the host. *)
Variable JSON_stringify : JsValue -> jsstring.

Definition await_fetch (r : Request) : M Response :=
  ([Fetched r], fetch r).

(** *** The providers *)

Definition jsonHeaders : list (jsstring * jsstring) :=
  [(lit "Content-Type", lit "application/json")].

(** [generateWithOpenAI] *)
Definition generateWithOpenAI (config : AIConfig) (diffSummary : jsstring)
  : M AICommitContent :=
  if negb (isSet config.(apiKey)) then
    throw (Error (lit "OpenAI API key not configured"))
  else
    response <-
      await_fetch
        (mkRequest (lit "https://api.openai.com/v1/chat/completions") POST
           (jsonHeaders
            ++ [(lit "Authorization",
                 lit "Bearer " ++ optOr config.(apiKey) [])])
           (JObj
              [(lit "model", JStr (optOr config.(model) DEFAULT_MODEL));
               (lit "messages",
                JArr
                  [JObj [(lit "role", JStr (lit "system"));
                         (lit "content", JStr PROMPT_SYSTEM)];
                   JObj [(lit "role", JStr (lit "user"));
                         (lit "content",
                          JStr (PROMPT_USER_PREFIX ++ diffSummary))]]);
               (lit "temperature", JNum 0.3);
               (lit "max_tokens", JNum 200)])
           TIMEOUT) ;;
    if negb response.(ok) then
      throw (Error (lit "OpenAI API error: " ++ response.(statusText)))
    else
      data <- liftE (json response) ;;
      content <-
        liftE (choices <~ getField data "choices" ;;
               first <~ getFirst choices ;;
               Ok (getFieldOpt (getFieldOpt first "message") "content")) ;;
      if negb (truthy content) then
        throw (Error (lit "No content received from OpenAI"))
      else liftE (callParseAIResponse content).

(** [generateWithAnthropic] *)
Definition generateWithAnthropic (config : AIConfig) (diffSummary : jsstring)
  : M AICommitContent :=
  if negb (isSet config.(apiKey)) then
    throw (Error (lit "Anthropic API key not configured"))
  else
    response <-
      await_fetch
        (mkRequest (lit "https://api.anthropic.com/v1/messages") POST
           (jsonHeaders
            ++ [(lit "x-api-key", optOr config.(apiKey) []);
                (lit "anthropic-version", lit "2023-06-01")])
           (JObj
              [(lit "model",
                JStr (optOr config.(model) (lit "claude-3-haiku-20240307")));
               (lit "max_tokens", JNum 200);
               (lit "messages",
                JArr
                  [JObj [(lit "role", JStr (lit "user"));
                         (lit "content",
                          JStr (PROMPT_SYSTEM ++ [LF; LF]
                                ++ PROMPT_USER_PREFIX ++ diffSummary))]])])
           TIMEOUT) ;;
    if negb response.(ok) then
      throw (Error (lit "Anthropic API error: " ++ response.(statusText)))
    else
      data <- liftE (json response) ;;
      content <-
        liftE (content <~ getField data "content" ;;
               first <~ getFirst content ;;
               Ok (getFieldOpt first "text")) ;;
      if negb (truthy content) then
        throw (Error (lit "No content received from Anthropic"))
      else liftE (callParseAIResponse content).

(** [createGeminiPrompt] *)
Definition createGeminiPrompt (config : AIConfig) (diffSummary : jsstring)
  : jsstring :=
  let q := [DQUOTE] in
  if match config.(model) with
     | Some m => includes m (lit "2.5-pro")
     | None => false
     end
  then
    diffSummary ++ [LF; LF] ++ lit "直接回傳: {" ++ q ++ lit "type" ++ q
    ++ lit ":" ++ q ++ lit "feat" ++ q ++ lit "," ++ q ++ lit "scope" ++ q
    ++ lit ":" ++ q ++ q ++ lit "," ++ q ++ lit "message" ++ q ++ lit ":"
    ++ q ++ lit "中文描述" ++ q ++ lit "," ++ q ++ lit "confidence" ++ q
    ++ lit ":0.8}"
  else
    lit "根據代碼變更生成 commit 訊息：" ++ [LF; LF] ++ diffSummary
    ++ [LF; LF] ++ lit "只返回 JSON：" ++ [LF] ++ lit "{" ++ q ++ lit "type"
    ++ q ++ lit ":" ++ q ++ lit "feat|fix|refactor|docs|style|test|chore"
    ++ q ++ lit "," ++ q ++ lit "scope" ++ q ++ lit ":" ++ q ++ q ++ lit ","
    ++ q ++ lit "message" ++ q ++ lit ":" ++ q ++ lit "簡潔中文描述" ++ q
    ++ lit "," ++ q ++ lit "confidence" ++ q ++ lit ":0.8}".

Definition geminiModel (config : AIConfig) : jsstring :=
  optOr config.(model) (lit "gemini-1.5-flash").

(** The key validation request of [generateWithGemini]. *)
Definition geminiTestRequest (config : AIConfig) : Request :=
  mkRequest
    (lit "https://generativelanguage.googleapis.com/v1beta/models?key="
     ++ optOr config.(apiKey) [])
    GET [] JUndefined 5000.

(** The generation request of [generateWithGemini] for the text
    [processedDiff]. *)
Definition geminiRequest (config : AIConfig) (processedDiff : jsstring)
  : Request :=
  mkRequest
    (lit "https://generativelanguage.googleapis.com/v1beta/models/"
     ++ geminiModel config ++ lit ":generateContent?key="
     ++ optOr config.(apiKey) [])
    POST jsonHeaders
    (JObj
       [(lit "contents",
         JArr
           [JObj
              [(lit "role", JStr (lit "user"));
               (lit "parts",
                JArr
                  [JObj
                     [(lit "text",
                       JStr (createGeminiPrompt config processedDiff))]])]]);
        (lit "generationConfig",
         JObj [(lit "temperature", JNum 0.1); (lit "topP", JNum 0.4);
               (lit "topK", JNum 3); (lit "candidateCount", JNum 1)]);
        (lit "safetySettings",
         JArr
           [JObj [(lit "category", JStr (lit "HARM_CATEGORY_HARASSMENT"));
                  (lit "threshold", JStr (lit "BLOCK_MEDIUM_AND_ABOVE"))];
            JObj [(lit "category", JStr (lit "HARM_CATEGORY_HATE_SPEECH"));
                  (lit "threshold",
                   JStr (lit "BLOCK_MEDIUM_AND_ABOVE"))]])])
    TIMEOUT.

(** [v === 0] *)
Definition isZero (v : JsValue) : bool :=
  match v with
  | JNum q => Qeq_bool q 0
  | _ => false
  end.

(** [generateWithGemini], from the key validation on: what happens once
    [processedDiff] is settled. *)
Definition generateWithGemini_send (config : AIConfig)
  (diffSummary processedDiff : jsstring) : M AICommitContent :=
  tryCatch
    (testResponse <- await_fetch (geminiTestRequest config) ;;
     if negb testResponse.(ok) then
       errorText <- liftE testResponse.(text) ;;
       throw (Error (lit "Gemini API key validation failed: "
                     ++ intToString testResponse.(status) ++ lit " - "
                     ++ errorText))
     else ret tt)
    (fun error =>
       throw (Error (lit "Cannot connect to Google Gemini: "
                     ++ errorToString error
                     ++ lit ". Please check your API key and internet connection."))) ;;;
  response <- await_fetch (geminiRequest config processedDiff) ;;
  if negb response.(ok) then
    errorText <- liftE response.(text) ;;
    if (response.(status) =? 429)%Z then
      emit (WarningShown
              (lit "Gemini API 免費配額已用完，自動切換到規則引擎生成 commit 內容")
              []) ;;;
      ret (generateWithEnhancedRules diffSummary)
    else
      throw (Error (lit "Google Gemini API error: "
                    ++ intToString response.(status) ++ lit " "
                    ++ response.(statusText) ++ lit " - " ++ errorText))
  else
    data <- liftE (json response) ;;
    candidates <- liftE (getField data "candidates") ;;
    noCandidates <-
      liftE (if truthy candidates
             then len <~ getLength candidates ;; Ok (isZero len)
             else Ok false) ;;
    if noCandidates : bool then
      throw (Error (lit "Gemini API returned no candidates. Check your API key and quota."))
    else
      let candidate := getFirstOpt candidates in
      let finishReason := getFieldOpt candidate "finishReason" in
      if strictEqualsLit finishReason "MAX_TOKENS" then
        ret (generateWithEnhancedRules diffSummary)
      else if strictEqualsLit finishReason "SAFETY" then
        throw (Error (lit "Gemini blocked the response due to safety concerns. Try a different input."))
      else if strictEqualsLit finishReason "RECITATION" then
        throw (Error (lit "Gemini blocked the response due to recitation concerns."))
      else
        let primary :=
          getFieldOpt
            (getFirstOpt
               (getFieldOpt (getFieldOpt candidate "content") "parts"))
            "text" in
        let content :=
          if truthy primary then primary
          else if truthy (getFieldOpt candidate "output") then
            getFieldOpt candidate "output"
          else if truthy (getFieldOpt data "text") then
            getFieldOpt data "text"
          else if truthy (getFieldOpt candidate "text") then
            getFieldOpt candidate "text"
          else JStr [] in
        if negb (truthy content) then
          throw (Error (lit "No content received from Google Gemini. Response structure: "
                        ++ JSON_stringify data))
        else liftE (callParseAIResponse content).

(** The two notices of [generateWithGemini] on a large diff. *)
Definition NOTICE_TOO_COMPLEX : jsstring :=
  lit "代碼變更過於複雜，使用規則引擎生成 commit 內容".

Definition NOTICE_CONDENSING : jsstring :=
  lit "代碼變更較大，AI 正在智能分析關鍵變更...".

(** [generateWithGemini] *)
Definition generateWithGemini (config : AIConfig) (diffSummary : jsstring)
  : M AICommitContent :=
  if negb (isSet config.(apiKey)) then
    throw (Error (lit "Google Gemini API key not configured"))
  else if gt (lengthOf diffSummary) GEMINI_MAX_DIFF_LENGTH then
    let processedDiff := truncateDiffForGemini diffSummary in
    if gt (lengthOf processedDiff) (GEMINI_SUMMARY_LENGTH * 1.5) then
      emit (InformationShown NOTICE_TOO_COMPLEX) ;;;
      ret (generateWithEnhancedRules diffSummary)
    else
      emit (InformationShown NOTICE_CONDENSING) ;;;
      generateWithGemini_send config diffSummary processedDiff
  else generateWithGemini_send config diffSummary diffSummary.

(** [generateWithLocalAI] *)
Definition generateWithLocalAI (config : AIConfig) (diffSummary : jsstring)
  : M AICommitContent :=
  if negb (isSet config.(endpoint)) then
    throw (Error (lit "Local AI endpoint not configured"))
  else
    let endpoint := optOr config.(endpoint) [] in
    tryCatch
      (testResponse <-
         await_fetch
           (mkRequest
              (replaceFirst (lit "/api/generate") (lit "/api/tags") endpoint)
              GET [] JUndefined 5000) ;;
       if negb testResponse.(ok) then
         throw (Error (lit "Local AI service not available: "
                       ++ testResponse.(statusText)))
       else ret tt)
      (fun _ =>
         throw (Error (lit "Cannot connect to local AI service at "
                       ++ endpoint
                       ++ lit ". Please check if Ollama or your local AI is running."))) ;;;
    response <-
      await_fetch
        (mkRequest endpoint POST jsonHeaders
           (JObj
              [(lit "model", JStr (optOr config.(model) (lit "codellama")));
               (lit "prompt",
                JStr (PROMPT_SYSTEM ++ [LF; LF] ++ PROMPT_USER_PREFIX
                      ++ diffSummary));
               (lit "stream", JBool false);
               (lit "options",
                JObj [(lit "temperature", JNum 0.3);
                      (lit "num_predict", JNum 200)])])
           TIMEOUT) ;;
    if negb response.(ok) then
      throw (Error (lit "Local AI error: " ++ response.(statusText)))
    else
      data <- liftE (json response) ;;
      content <-
        liftE (r <~ getField data "response" ;;
               if truthy r then Ok r
               else t <~ getField data "text" ;;
                    if truthy t then Ok t else getField data "content") ;;
      if negb (truthy content) then
        throw (Error (lit "No content received from local AI"))
      else liftE (callParseAIResponse content).

(** *** The gateway *)

(** [isLargeDiffForProvider] *)
Definition isLargeDiffForProvider (config : AIConfig) (diffSummary : jsstring)
  : bool :=
  let length := lengthOf diffSummary in
  match config.(provider) with
  | gemini => gt length GEMINI_MAX_DIFF_LENGTH
  | openai | anthropic => gt length MAX_DIFF_LENGTH
  | local => gt length (MAX_DIFF_LENGTH * 1.5)
  | rules => false
  end.

Definition provider_eqb (a b : Provider) : bool :=
  match a, b with
  | openai, openai | anthropic, anthropic | gemini, gemini
  | local, local | rules, rules => true
  | _, _ => false
  end.

Definition openSettings : jsstring := lit "開啟設定".

(** [showProviderError] *)
Definition showProviderError (config : AIConfig) (error : JsError) : M unit :=
  let errorMessage :=
    match error.(error_message) with
    | [] => errorToString error
    | m => m
    end in
  let p := config.(provider) in
  if provider_eqb p local && includes errorMessage (lit "fetch failed") then
    emit (WarningShown
            (lit "AI 服務連接失敗！請確認本地 AI 服務已啟動，或在設定中切換到其他提供者")
            [openSettings; lit "使用規則引擎"])
  else if provider_eqb p openai && includes errorMessage (lit "API key") then
    emit (WarningShown (lit "OpenAI API Key 未設定！請在設定中添加 API Key")
            [openSettings])
  else if provider_eqb p gemini && includes errorMessage (lit "API key") then
    emit (WarningShown
            (lit "Google Gemini API Key 未設定！請在設定中添加 API Key")
            [openSettings])
  else if provider_eqb p gemini
          && includes errorMessage (lit "truncated due to token limit") then
    emit (WarningShown
            (lit "Gemini 回應過長被截斷！請嘗試減少變更數量或分批提交")
            [lit "了解"])
  else if provider_eqb p gemini
          && includes errorMessage (lit "safety concerns") then
    emit (WarningShown
            (lit "Gemini 因安全考量封鎖回應！請檢查程式碼內容或使用其他 AI 提供者")
            [lit "了解"])
  else ret tt.

(** [CONSTANTS.MESSAGES.ERRORS.NO_STAGED_FILES] *)
Definition NO_STAGED_FILES : jsstring := lit "沒有已暫存的檔案可供分析".

(** The [switch] on the provider inside the [try] of
    [generateCommitContent]. *)
Definition dispatch (config : AIConfig) (diffSummary : jsstring)
  : M AICommitContent :=
  match config.(provider) with
  | openai => generateWithOpenAI config diffSummary
  | anthropic => generateWithAnthropic config diffSummary
  | gemini => generateWithGemini config diffSummary
  | local => generateWithLocalAI config diffSummary
  | rules => ret (generateWithEnhancedRules diffSummary)
  end.

(** [generateCommitContent] *)
Definition generateCommitContent (config : AIConfig) (diffSummary : jsstring)
  : M AICommitContent :=
  if isBlank diffSummary then throw (Error NO_STAGED_FILES)
  else
    let isLargeDiff := isLargeDiffForProvider config diffSummary in
    if isLargeDiff && negb (provider_eqb config.(provider) gemini) then
      ret (generateWithEnhancedRules diffSummary)
    else
      tryCatch (dispatch config diffSummary)
        (fun error =>
           showProviderError config error ;;;
           ret (generateWithEnhancedRules diffSummary)).

(** [isConfigured] *)
Definition isConfigured (config : AIConfig) : bool :=
  match config.(provider) with
  | openai | anthropic | gemini => isSet config.(apiKey)
  | local => isSet config.(endpoint)
  | rules => true
  end.

End Host.

End AIService.

(* ===================================================================== *)
(** ** Notions used in the statements *)
(* ===================================================================== *)

(** How a POSIX shell reads the inside of a double-quoted word: a backslash
    quotes the unit after it.  [unquoted p s] says that a unit satisfying
    [p] occurs in [s] without a backslash quoting it. *)
Module Shell.

Local Open Scope N_scope.

Fixpoint unquoted (p : codeunit -> bool) (s : jsstring) : bool :=
  match s with
  | [] => false
  | c :: t =>
      if c =? BACKSLASH then
        match t with
        | [] => false
        | _ :: t' => unquoted p t'
        end
      else p c || unquoted p t
  end.

(** What the two replacements of [sanitizeCommitMessage] make of one unit
    of the message. *)
Definition escapeUnit (c : codeunit) : jsstring :=
  if c =? DQUOTE then [BACKSLASH; BACKSLASH; DQUOTE]
  else if inClass [BACKTICK; DOLLAR; BACKSLASH] c then [BACKSLASH; c]
  else [c].

End Shell.

(** A content whose fields have the types of [interface AICommitContent]:
    strings for type and message, a string or nothing for the scope, a
    number for the confidence. *)
Definition WellTyped (c : AIService.AICommitContent) : Prop :=
  (exists s, c.(AIService.type) = JStr s)
  /\ (c.(AIService.scope) = JUndefined
      \/ exists s, c.(AIService.scope) = JStr s)
  /\ (exists s, c.(AIService.message) = JStr s)
  /\ (exists q, c.(AIService.confidence) = JNum q).

(** Where a content returned by the gateway can come from: the rule engine
    run on the diff text, or the parser run on some answer text. *)
Definition FromRulesOrAnswer (toLowerCase : jsstring -> jsstring)
  (diffSummary : jsstring) (c : AIService.AICommitContent) : Prop :=
  c = AIService.generateWithEnhancedRules toLowerCase diffSummary
  \/ exists answer, c = AIService.parseAIResponse answer.

(** A computation that, when it returns, returns such a content. *)
Definition ReturnsRulesOrAnswer (toLowerCase : jsstring -> jsstring)
  (diffSummary : jsstring) (m : AIService.M AIService.AICommitContent)
  : Prop :=
  match snd m with
  | Threw _ => True
  | Ok c => FromRulesOrAnswer toLowerCase diffSummary c
  end.

(** A computation that, when it returns, returns the rule engine's
    content. *)
Definition ThrowsOrRules (toLowerCase : jsstring -> jsstring)
  (diffSummary : jsstring) (m : AIService.M AIService.AICommitContent)
  : Prop :=
  match snd m with
  | Threw _ => True
  | Ok c => c = AIService.generateWithEnhancedRules toLowerCase diffSummary
  end.

(** A host on which no generation request succeeds: each [POST] is
    rejected (no connection, timeout), or answered with a status that is
    not a success, or answered with a body that is not JSON. *)
Definition NoAnswer (fetch : AIService.Request -> Exc AIService.Response)
  : Prop :=
  forall r response,
    r.(AIService.method) = AIService.POST ->
    fetch r = Ok response ->
    response.(AIService.ok) = false
    \/ exists e, AIService.json response = Threw e.

(** A computation all of whose requests satisfy [P]. *)
Definition Sends {A} (P : AIService.Request -> Prop) (m : AIService.M A)
  : Prop :=
  forall r, In (AIService.Fetched r) (fst m) -> P r.

(** A host for the examples: no network at all. *)
Definition offline (r : AIService.Request) : Exc AIService.Response :=
  Threw (mkError (lit "TypeError") (lit "fetch failed")).

(** A host whose every request is answered 200 with the given body. *)
Definition answering (bodyText : jsstring) (r : AIService.Request)
  : Exc AIService.Response :=
  Ok (AIService.mkResponse true 200 (lit "OK") (Ok bodyText)).

Definition noStringify (v : JsValue) : jsstring := [].

(** A literal in which every single quote stands for a double quote. *)
Definition quoted (s : string) : jsstring :=
  map (fun c => if (c =? SQUOTE)%N then DQUOTE else c) (lit s).

Definition geminiConfig : AIService.AIConfig :=
  AIService.mkConfig AIService.gemini (Some (lit "k")) None None.

(** A diff summary of one file with a bug-fix keyword. *)
Definition loginFix : jsstring :=
  lit "檔案: src/auth/login.ts
新增: +3
刪除: -1
fix login bug".

(** A diff text of 8001 spaces. *)
Definition spaces8001 : jsstring := N.iter 8001 (cons SPACE) [].

(** A diff text of 5433 units: a file line, a stats line, and 300 added
    lines that each declare a constant. *)
Definition largeDiff : jsstring :=
  lit "檔案: src/total.ts
新增: +300 刪除: -0
" ++ N.iter 300 (app (lit "+const total = 1;
")) [].

(** A value that is a number of the interval [0, 1]. *)
Definition InUnitInterval (v : JsValue) : Prop :=
  exists q : Q, v = JNum q /\ (0 <= q)%Q /\ (q <= 1)%Q.

(** The classification rules as the specification lists them: a table of
    conditions and results, read top to bottom, the first condition that
    holds deciding. *)
Module Precedence.

Import AIService.
Local Open Scope Q_scope.

Fixpoint firstMatching (rules : list (bool * (jsstring * Q)))
  (default : jsstring * Q) : jsstring * Q :=
  match rules with
  | [] => default
  | (condition, result) :: rest =>
      if condition then result else firstMatching rest default
  end.

Definition classify (toLowerCase : jsstring -> jsstring)
  (filePaths : list jsstring) (flags : ContentAnalysis) (stats : ChangeStats)
  : jsstring * Q :=
  let testFiles := existsb isTestFile filePaths in
  let docFiles := existsb (isDocFile toLowerCase) filePaths in
  let styleFiles := existsb isStyleFile filePaths in
  let configFiles := existsb isConfigFile filePaths in
  let manifest :=
    existsb (fun f => includes f (lit "package.json")) filePaths in
  let netNew := (stats.(additions) >? 2 * stats.(deletions))%Z in
  firstMatching
    [ (testFiles && flags.(hasTests), (lit "test", 0.9));
      (docFiles && flags.(hasDocs), (lit "docs", 0.9));
      (flags.(hasBugFix), (lit "fix", 0.85));
      (netNew && flags.(hasNewFeature), (lit "feat", 0.85));
      (flags.(hasRefactor), (lit "refactor", 0.8));
      (styleFiles && flags.(hasStyles), (lit "style", 0.8));
      ((configFiles || flags.(hasConfig)) && manifest, (lit "build", 0.8));
      (configFiles || flags.(hasConfig), (lit "chore", 0.75));
      ((stats.(additions) =? 0)%Z && (stats.(deletions) >? 0)%Z,
       (lit "refactor", 0.7));
      (netNew, (lit "feat", 0.7));
      ((stats.(fileCount) =? 1)%Z, (lit "fix", 0.65)) ]
    (lit "chore", 0.6).

(** Content flags with only the docs flag set. *)
Definition onlyDocs : ContentAnalysis :=
  mkAnalysis false false false false true false false.

End Precedence.

(* ===================================================================== *)
(** ** Further notions used in the statements *)
(* ===================================================================== *)

(** The number of requests among the events of a call. *)
Definition requests (tr : list AIService.Event) : nat :=
  length (filter (fun ev => match ev with
                            | AIService.Fetched _ => true
                            | _ => false
                            end) tr).

(** A computation that sends at most [n] requests. *)
Definition AtMost {A} (n : nat) (m : AIService.M A) : Prop :=
  (requests (fst m) <= n)%nat.

(** A computation that shows no notification: all its events are requests. *)
Definition Silent {A} (m : AIService.M A) : Prop :=
  forall ev, In ev (fst m) -> exists r, ev = AIService.Fetched r.

(** The warning that [showProviderError] shows for gemini when the message
    of the error mentions the API key. *)
Definition GEMINI_KEY_WARNING : AIService.Event :=
  AIService.WarningShown
    (lit "Google Gemini API Key 未設定！請在設定中添加 API Key")
    [AIService.openSettings].

(* ===================================================================== *)
(** ** The staged diff ([src/git-service.ts]) *)
(* ===================================================================== *)

Module StagedDiff.

Local Open Scope N_scope.

Definition TAB : codeunit := 9.

(** [interface GitDiffInfo] *)
Record GitDiffInfo := mkGitDiffInfo {
  filePath : jsstring;
  status : jsstring;
  additions : Z;
  deletions : Z;
  content : jsstring
}.

Definition isHexDigit (c : codeunit) : bool :=
  isDigit c || ((65 <=? c) && (c <=? 70)) || ((97 <=? c) && (c <=? 102)).

(** The value of a digit of base ten or sixteen. *)
Definition digitValue (c : codeunit) : Z :=
  if isDigit c then (Z.of_N c - 48)%Z
  else if c <=? 70 then (Z.of_N c - 55)%Z
  else (Z.of_N c - 87)%Z.

(** [parseInt(s)] without a radix: leading white space is skipped, then a
    sign, then [0x] or [0X] selects base sixteen, then the longest run of
    digits of the base is read.  [None] is [NaN]: no digit was there.  The
    value is the integer the digits denote. *)
Definition parseInt (s : jsstring) : option Z :=
  let s1 := trimStart s in
  let '(sign, s2) :=
    match s1 with
    | c :: t =>
        if c =? 45 then ((-1)%Z, t)
        else if c =? 43 then (1%Z, t)
        else (1%Z, s1)
    | [] => (1%Z, s1)
    end in
  let '(radix, isRadixDigit, s3) :=
    match s2 with
    | z :: x :: t =>
        if (z =? 48) && ((x =? 120) || (x =? 88)) then (16%Z, isHexDigit, t)
        else (10%Z, isDigit, s2)
    | _ => (10%Z, isDigit, s2)
    end in
  match fst (span isRadixDigit s3) with
  | [] => None
  | digits =>
      Some (sign * fold_left (fun acc c => acc * radix + digitValue c)
                     digits 0)%Z
  end.

(** [parseInt(s) || 0] *)
Definition parseIntOrZero (s : jsstring) : Z :=
  match parseInt s with
  | Some z => z
  | None => 0%Z
  end.

(** The suffix of a list from its first element that satisfies [p]. *)
Fixpoint dropUntil {A} (p : A -> bool) (l : list A) : list A :=
  match l with
  | [] => []
  | x :: t => if p x then l else dropUntil p t
  end.

(** The prefix of a list before its first element that satisfies [p]. *)
Fixpoint takeUntil {A} (p : A -> bool) (l : list A) : list A :=
  match l with
  | [] => []
  | x :: t => if p x then [] else x :: takeUntil p t
  end.

(** [fileStartPattern.test(line)]: the pattern is [^diff --git a/P b/P]
    where [P] is the path with a backslash put before every character that
    is special in a regular expression, so each unit of the path stands for
    itself and the test is a prefix test. *)
Definition fileStartPattern (filePath line : jsstring) : bool :=
  startsWith line
    (lit "diff --git a/" ++ filePath ++ lit " b/" ++ filePath).

(** [extractFileDiff]: the lines from the first one that starts the diff of
    the file up to the next line that starts a diff. *)
Definition extractFileDiff (fullDiff filePath : jsstring) : jsstring :=
  let lines := split LF fullDiff in
  match dropUntil (fileStartPattern filePath) lines with
  | [] => []
  | start :: rest =>
      join [LF]
        (start
         :: takeUntil (fun line => startsWith line (lit "diff --git")) rest)
  end.

(** [getFileStatusFromDiff]: read off the whole diff, for every path. *)
Definition getFileStatusFromDiff (diffContent filePath : jsstring)
  : jsstring :=
  if includes diffContent (lit "new file mode") then lit "A"
  else if includes diffContent (lit "deleted file mode") then lit "D"
  else if includes diffContent (lit "rename from")
          && includes diffContent (lit "rename to") then lit "R"
  else lit "M".

(** The body of [getStagedDiffInfo] once the two commands have answered:
    one entry for every line of the numstat output that has three fields
    or more. *)
Definition diffInfos (numstat diffContent : jsstring) : list GitDiffInfo :=
  let numstatLines :=
    filter (fun line => negb (Nat.eqb (length line) 0))
      (split LF (trim numstat)) in
  flat_map
    (fun line =>
       match split TAB line with
       | p0 :: p1 :: p2 :: _ =>
           [mkGitDiffInfo p2 (getFileStatusFromDiff diffContent p2)
              (parseIntOrZero p0) (parseIntOrZero p1)
              (extractFileDiff diffContent p2)]
       | _ => []
       end)
    numstatLines.

(** A line of [git diff --numstat] for a text file. *)
Definition numstatLine (entry : N * N * jsstring) : jsstring :=
  let '(added, deleted, file) := entry in
  NToString added ++ [TAB] ++ NToString deleted ++ [TAB] ++ file.

End StagedDiff.

(* ===================================================================== *)
(** ** The extension host *)
(* ===================================================================== *)

Module Host.

(** [webview.postMessage]: the messages the provider sends to the view. *)
Inductive Post :=
| UpdateFiles (files : list GitService.GitFileStatus)
| ClearInputs
| AIContentGenerated (content : AIService.AICommitContent)
| AIGenerationFailed.

(** What a handler leaves behind: the commands it ran in the workspace
    folder, the notifications it showed, the questions it asked, the
    messages it posted to the view, and what the AI service did.
    ([console] output is not recorded.) *)
Inductive Event :=
| Ran (command : jsstring)
| ErrorShown (message : jsstring)
| InformationShown (message : jsstring)
| Asked (message : jsstring) (items : list jsstring)
| Posted (p : Post)
| Service (ev : AIService.Event).

Section Monad.

Variable World : Type.

(** Computations over the state of the workspace that record events and
    may throw. *)
Definition P (A : Type) : Type := World -> list Event * World * Exc A.

Definition ret {A} (a : A) : P A := fun w => ([], w, Ok a).

Definition bind {A B} (m : P A) (k : A -> P B) : P B :=
  fun w =>
    match m w with
    | (tr, w1, Threw e) => (tr, w1, Threw e)
    | (tr, w1, Ok a) => let '(tr', w2, r) := k a w1 in (tr ++ tr', w2, r)
    end.

Definition emit (ev : Event) : P unit := fun w => ([ev], w, Ok tt).

(** [try { m } catch (error) { handler(error) }] *)
Definition tryCatch {A} (m : P A) (handler : JsError -> P A) : P A :=
  fun w =>
    match m w with
    | (tr, w1, Threw e) =>
        let '(tr', w2, r) := handler e w1 in (tr ++ tr', w2, r)
    | (tr, w1, Ok a) => (tr, w1, Ok a)
    end.

(** A step that touches neither the workspace nor the view, and may
    throw. *)
Definition liftE {A} (x : Exc A) : P A := fun w => ([], w, x).

(** A call of the AI service: its events are recorded, the workspace is
    left as it is. *)
Definition service {A} (m : AIService.M A) : P A :=
  fun w => (map Service (fst m), w, snd m).

End Monad.

Arguments ret {World A} a.
Arguments liftE {World A} x.
Arguments emit {World} ev.
Arguments service {World A} m.

(** The events and the outcome of a run. *)
Definition events {World A} (r : list Event * World * Exc A) : list Event :=
  fst (fst r).

Definition outcome {World A} (r : list Event * World * Exc A) : Exc A :=
  snd r.

(** A computation that returns in every state of the workspace. *)
Definition Returns {World A} (m : World -> list Event * World * Exc A)
  : Prop :=
  forall w, exists a, outcome (m w) = Ok a.

(** The commands that a list of events ran. *)
Definition commands (tr : list Event) : list jsstring :=
  flat_map (fun ev => match ev with Ran c => [c] | _ => [] end) tr.

(** The error messages that a list of events showed. *)
Definition errors (tr : list Event) : list jsstring :=
  flat_map (fun ev => match ev with ErrorShown m => [m] | _ => [] end) tr.

End Host.

(* ===================================================================== *)
(** ** The commands of the Git service ([src/git-service.ts]) *)
(* ===================================================================== *)

Module GitCommands.

Import Host.
Local Open Scope N_scope.

(** [CONSTANTS.GIT.COMMANDS] *)
Definition STATUS : jsstring := lit "git status --porcelain".
Definition ADD : jsstring := lit "git add".
Definition ADD_ALL : jsstring := lit "git add .".
Definition RESTORE_STAGED : jsstring := lit "git restore --staged".
Definition RESET_HEAD : jsstring := lit "git reset HEAD".
Definition COMMIT : jsstring := lit "git commit -m".
Definition CHECK_REPO : jsstring := lit "git rev-parse --git-dir".
Definition CHECK_STAGED : jsstring := lit "git diff --cached --name-only".
Definition DIFF_STAGED : jsstring := lit "git diff --cached".
Definition DIFF_STAGED_NUMSTAT : jsstring := lit "git diff --cached --numstat".

(** [`${command} "${argument}"`] *)
Definition withArgument (command argument : jsstring) : jsstring :=
  command ++ [SPACE; DQUOTE] ++ argument ++ [DQUOTE].

Section Runner.

Variable World : Type.

(** [execAsync(command, { cwd })] in the workspace folder: the standard
    output of the command or its rejection, and the workspace afterwards. *)
Variable exec : jsstring -> World -> Exc jsstring * World.

Local Notation "x <- m ;; k" := (bind m (fun x => k))
  (at level 61, m at next level, right associativity).
Local Notation "m ;;; k" := (bind m (fun _ => k))
  (at level 61, right associativity).

Definition execAsync (command : jsstring) : P World jsstring :=
  fun w => let (r, w') := exec command w in ([Ran command], w', r).

(** [isGitRepository] *)
Definition isGitRepository : P World bool :=
  tryCatch (execAsync CHECK_REPO ;;; ret true) (fun _ => ret false).

(** [hasStagedChanges] *)
Definition hasStagedChanges : P World bool :=
  tryCatch
    (stdout <- execAsync CHECK_STAGED ;;
     ret (Nat.ltb 0 (length (trim stdout))))
    (fun _ => ret false).

(** [getStagedDiffInfo] *)
Definition getStagedDiffInfo : P World (list StagedDiff.GitDiffInfo) :=
  tryCatch
    (numstat <- execAsync DIFF_STAGED_NUMSTAT ;;
     diffContent <- execAsync DIFF_STAGED ;;
     ret (StagedDiff.diffInfos numstat diffContent))
    (fun _ => ret []).

(** [getStagedChangesSummary] *)
Definition getStagedChangesSummary : P World jsstring :=
  tryCatch (stdout <- execAsync DIFF_STAGED ;; ret (trim stdout))
    (fun _ => ret []).

(** [getFileStatus], with the command it runs. *)
Definition getFileStatus : P World (list GitService.GitFileStatus) :=
  tryCatch
    (stdout <- execAsync STATUS ;;
     ret (GitService.getFileStatus (Ok stdout)))
    (fun _ => ret []).

(** [stageFile] *)
Definition stageFile (filePath : jsstring) : P World unit :=
  let sanitizedPath := GitService.sanitizeFilePath filePath in
  execAsync (withArgument ADD sanitizedPath) ;;; ret tt.

(** [unstageFile] *)
Definition unstageFile (filePath : jsstring) : P World unit :=
  let sanitizedPath := GitService.sanitizeFilePath filePath in
  tryCatch
    (execAsync (withArgument RESTORE_STAGED sanitizedPath) ;;; ret tt)
    (fun _ => execAsync (withArgument RESET_HEAD sanitizedPath) ;;; ret tt).

(** [stageAllFiles] *)
Definition stageAllFiles : P World unit :=
  execAsync ADD_ALL ;;; ret tt.

(** [commit] *)
Definition commit (message : jsstring) : P World unit :=
  let sanitizedMessage := GitService.sanitizeCommitMessage message in
  execAsync (withArgument COMMIT sanitizedMessage) ;;; ret tt.

End Runner.

End GitCommands.

(* ===================================================================== *)
(** ** The provider of the view ([CommitHelperProvider]) *)
(* ===================================================================== *)

Module Panel.

Import Host.
Local Open Scope N_scope.

(** [CONSTANTS.MESSAGES.ERRORS] and [CONSTANTS.MESSAGES.SUCCESS] *)
Definition NOT_GIT_REPO : jsstring := lit "目前不在 Git repository 中".
Definition NO_WORKSPACE : jsstring := lit "找不到工作區資料夾".
Definition COMMIT_VALIDATION : jsstring := lit "請選擇 commit 類型並輸入訊息".
Definition COMMIT_FAILED : jsstring := lit "Commit 失敗".
Definition STAGE_FAILED : jsstring := lit "加入檔案暫存失敗".
Definition UNSTAGE_FAILED : jsstring := lit "移除檔案暫存失敗".
Definition AI_GENERATION_FAILED : jsstring := lit "AI 內容生成失敗".
Definition COMMIT_SUCCESS : jsstring := lit "Commit 成功".
Definition STAGE_SUCCESS : jsstring := lit "已加入暫存".
Definition UNSTAGE_SUCCESS : jsstring := lit "已移除暫存".
Definition STAGE_ALL_SUCCESS : jsstring := lit "所有變更已加入暫存區".
Definition AI_CONTENT_GENERATED : jsstring := lit "AI 內容生成成功".

Definition REFRESH_FAILED : jsstring := lit "更新檔案列表失敗".
Definition STAGE_ALL_QUESTION : jsstring :=
  lit "沒有檔案在 staging area，是否要加入所有變更？".
Definition YES : jsstring := lit "是".
Definition NO : jsstring := lit "否".

(** The fields of the provider that the handlers read: whether the view is
    resolved ([_view]), whether a workspace folder was found
    ([gitService]), and the configuration of the AI service. *)
Record Provider := mkProvider {
  view : bool;
  gitService : bool;
  aiConfig : AIService.AIConfig
}.

(** [validateCommitInput] *)
Definition validateCommitInput (commitType message : jsstring) : bool :=
  match commitType with
  | [] => false
  | _ => negb (isBlank message)
  end.

Section Handlers.

Variable World : Type.
Variable exec : jsstring -> World -> Exc jsstring * World.

(** [showInformationMessage(message, ...items)]: the item the user picks,
    or nothing when the notification is dismissed. *)
Variable pick : jsstring -> list jsstring -> World -> option jsstring * World.

(** The host of the AI service. *)
Variable toLowerCase : jsstring -> jsstring.
Variable fetch : AIService.Request -> Exc AIService.Response.
Variable JSON_stringify : JsValue -> jsstring.

(** [`${Math.round(confidence * 100)}`]: the number conversion, the
    rounding and the decimal notation of the runtime.  The conversion
    throws a [TypeError] on an object that has no callable [valueOf] or
    [toString], which the JSON of a provider can hold. *)
Variable percent : JsValue -> Exc jsstring.

Variable this : Provider.

Local Notation "x <- m ;; k" := (bind m (fun x => k))
  (at level 61, m at next level, right associativity).
Local Notation "m ;;; k" := (bind m (fun _ => k))
  (at level 61, right associativity).

Definition showErrorMessage (message : jsstring) : P World unit :=
  emit (ErrorShown message).

Definition showInformationMessage (message : jsstring) : P World unit :=
  emit (InformationShown message).

Definition askInformationMessage (message : jsstring) (items : list jsstring)
  : P World (option jsstring) :=
  fun w => let (a, w') := pick message items w in
           ([Asked message items], w', Ok a).

(** [this._view?.webview.postMessage(p)] *)
Definition postMessage (p : Post) : P World unit :=
  if this.(view) then emit (Posted p) else ret tt.

(** [sendAIGenerationFailed] *)
Definition sendAIGenerationFailed : P World unit :=
  postMessage AIGenerationFailed.

(** [clearInputs] *)
Definition clearInputs : P World unit :=
  postMessage ClearInputs.

(** [refreshFileList] *)
Definition refreshFileList : P World unit :=
  if negb this.(view) || negb this.(gitService) then ret tt
  else
    tryCatch
      (files <- GitCommands.getFileStatus exec ;;
       emit (Posted (UpdateFiles files)))
      (fun _ => showErrorMessage REFRESH_FAILED).

(** [generateAIContent] *)
Definition generateAIContent : P World unit :=
  if negb this.(gitService) then
    showErrorMessage NO_WORKSPACE ;;; sendAIGenerationFailed
  else
    tryCatch
      (staged <- GitCommands.hasStagedChanges exec ;;
       if negb staged then
         showErrorMessage AIService.NO_STAGED_FILES ;;; sendAIGenerationFailed
       else
         diffSummary <- GitCommands.getStagedChangesSummary exec ;;
         match diffSummary with
         | [] =>
             showErrorMessage AIService.NO_STAGED_FILES ;;;
             sendAIGenerationFailed
         | _ =>
             aiContent <-
               service
                 (AIService.generateCommitContent toLowerCase fetch
                    JSON_stringify this.(aiConfig) diffSummary) ;;
             postMessage (AIContentGenerated aiContent) ;;;
             confidencePercent <-
               liftE (percent aiContent.(AIService.confidence)) ;;
             showInformationMessage
               (AI_CONTENT_GENERATED ++ lit " (信心度: "
                ++ confidencePercent ++ lit "%)")
         end)
      (fun error =>
         showErrorMessage
           (AI_GENERATION_FAILED ++ lit ": " ++ errorToString error) ;;;
         sendAIGenerationFailed).

(** [stageFile] *)
Definition stageFile (filePath : jsstring) : P World unit :=
  if negb this.(gitService) then showErrorMessage NO_WORKSPACE
  else
    tryCatch
      (GitCommands.stageFile exec filePath ;;;
       refreshFileList ;;;
       showInformationMessage (STAGE_SUCCESS ++ lit ": " ++ filePath))
      (fun error =>
         showErrorMessage (STAGE_FAILED ++ lit ": " ++ errorToString error)).

(** [unstageFile] *)
Definition unstageFile (filePath : jsstring) : P World unit :=
  if negb this.(gitService) then showErrorMessage NO_WORKSPACE
  else
    tryCatch
      (GitCommands.unstageFile exec filePath ;;;
       refreshFileList ;;;
       showInformationMessage (UNSTAGE_SUCCESS ++ lit ": " ++ filePath))
      (fun error =>
         showErrorMessage
           (UNSTAGE_FAILED ++ lit ": " ++ errorToString error)).

(** [stageAllFiles] *)
Definition stageAllFiles : P World unit :=
  if negb this.(gitService) then showErrorMessage NO_WORKSPACE
  else
    tryCatch
      (GitCommands.stageAllFiles exec ;;;
       refreshFileList ;;;
       showInformationMessage STAGE_ALL_SUCCESS)
      (fun error =>
         showErrorMessage (STAGE_FAILED ++ lit ": " ++ errorToString error)).

(** [ensureStagedChanges] *)
Definition ensureStagedChanges : P World bool :=
  if negb this.(gitService) then ret false
  else
    staged <- GitCommands.hasStagedChanges exec ;;
    if staged then ret true
    else
      action <- askInformationMessage STAGE_ALL_QUESTION [YES; NO] ;;
      match action with
      | Some item =>
          if JsString.eqb item YES then stageAllFiles ;;; ret true
          else ret false
      | None => ret false
      end.

(** [handleCommit] *)
Definition handleCommit (commitType scope message : jsstring)
  : P World unit :=
  if negb this.(gitService) then showErrorMessage NO_WORKSPACE
  else
    tryCatch
      (if negb (validateCommitInput commitType message) then
         showErrorMessage COMMIT_VALIDATION
       else
         isRepository <- GitCommands.isGitRepository exec ;;
         if negb isRepository then showErrorMessage NOT_GIT_REPO
         else
           staged <- ensureStagedChanges ;;
           if negb staged then ret tt
           else
             let commitMessage :=
               GitService.formatCommitMessage commitType scope message in
             GitCommands.commit exec commitMessage ;;;
             refreshFileList ;;;
             clearInputs ;;;
             showInformationMessage
               (COMMIT_SUCCESS ++ lit ": " ++ commitMessage))
      (fun error =>
         showErrorMessage
           (COMMIT_FAILED ++ lit "：" ++ errorToString error)).

End Handlers.

End Panel.

(* ===================================================================== *)
(** ** The file list of the view ([src/html-generator.ts]) *)
(* ===================================================================== *)

Module Webview.

Local Open Scope N_scope.

Definition AMP : codeunit := 38.
Definition LT : codeunit := 60.
Definition GT : codeunit := 62.

(** [escapedPath] in [createFileItem]: the five replacements, in order. *)
Definition escapedPath (path : jsstring) : jsstring :=
  replaceAll [SQUOTE] (lit "&#39;")
    (replaceAll [DQUOTE] (lit "&quot;")
       (replaceAll [GT] (lit "&gt;")
          (replaceAll [LT] (lit "&lt;")
             (replaceAll [AMP] (lit "&amp;") path)))).

(** [`${isStaged}`] *)
Definition boolToString (b : bool) : jsstring :=
  if b then lit "true" else lit "false".

(** The script of the [onclick] attribute of an item. *)
Definition onclick (escaped : jsstring) (isStaged : bool) : jsstring :=
  lit "toggleFile('" ++ escaped ++ lit "', " ++ boolToString isStaged
  ++ lit ")".

(** [createFileItem] *)
Definition createFileItem (file : GitService.GitFileStatus)
  (isStaged : bool) : jsstring :=
  let statusClass :=
    if isStaged then lit "staged"
    else if JsString.eqb file.(GitService.status) (lit "M")
         then lit "modified"
         else lit "untracked" in
  let actionText :=
    if isStaged then lit "Click to unstage" else lit "Click to stage" in
  let escaped := escapedPath file.(GitService.path) in
  quoted "
                <div class='file-item " ++ statusClass
  ++ quoted "' onclick='" ++ onclick escaped isStaged ++ quoted "'>
                    <span class='file-status' data-status='"
  ++ file.(GitService.status) ++ quoted "'>" ++ file.(GitService.status)
  ++ quoted "</span>
                    <span class='file-path' title='" ++ escaped
  ++ quoted "'>" ++ escaped ++ quoted "</span>
                    <span class='file-action'>" ++ actionText
  ++ quoted "</span>
                </div>
            ".

(** What an HTML parser makes of the five character references that
    [escapedPath] writes, in a text node and in an attribute value. *)
Definition reference (s : jsstring) : option (codeunit * nat) :=
  if startsWith s (lit "amp;") then Some (AMP, 4%nat)
  else if startsWith s (lit "lt;") then Some (LT, 3%nat)
  else if startsWith s (lit "gt;") then Some (GT, 3%nat)
  else if startsWith s (lit "quot;") then Some (DQUOTE, 5%nat)
  else if startsWith s (lit "#39;") then Some (SQUOTE, 4%nat)
  else None.

Fixpoint decode_go (skip : nat) (s : jsstring) : jsstring :=
  match s with
  | [] => []
  | c :: t =>
      match skip with
      | S n => decode_go n t
      | O =>
          if c =? AMP then
            match reference t with
            | Some (d, n) => d :: decode_go n t
            | None => c :: decode_go 0 t
            end
          else c :: decode_go 0 t
      end
  end.

Definition decode (s : jsstring) : jsstring := decode_go 0 s.

End Webview.

(** ** Notions about the parser of answers *)

(** The three branches by which an answer is read: the JSON object
    extracted between the first opening and the last closing brace, the
    conventional-commit pattern at the start of the text, the first line of
    the text.  The JSON branch is left for the other two when there are no
    braces, when what is between them is not JSON, and when reading a
    field of the parsed value throws. *)
Inductive Branch :=
| ExtractedJson (parsed : JsValue)
| CommitPattern
| FirstLine.

Definition textBranch (response : jsstring) : Branch :=
  match AIService.matchCommit response with
  | Some _ => CommitPattern
  | None => FirstLine
  end.

Definition branchOf (response : jsstring) : Branch :=
  match AIService.matchBraces response with
  | Some jsonMatch =>
      match JSON.parse jsonMatch with
      | Ok JUndefined | Ok JNull | Threw _ => textBranch response
      | Ok parsed => ExtractedJson parsed
      end
  | None => textBranch response
  end.

(** The confidence on each branch: 0.7 on the two branches that read the
    text; on the JSON branch the [confidence] of the object when that is
    truthy, and 0.8 otherwise. *)
Definition confidenceOn (b : Branch) : JsValue :=
  match b with
  | ExtractedJson parsed =>
      if truthy (getFieldOpt parsed "confidence")
      then getFieldOpt parsed "confidence"
      else JNum 0.8
  | CommitPattern | FirstLine => JNum 0.7
  end.

(** The branch of an answer with the confidence that [parseAIResponse]
    gives it. *)
Definition parseAIResponse_branches (response : jsstring)
  : Branch * JsValue :=
  (branchOf response,
   (AIService.parseAIResponse response).(AIService.confidence)).

(** ** Notions about the Gemini request *)

(** The text that a generation request carries:
    [body.contents[0].parts[0].text]. *)
Definition requestText (r : AIService.Request) : Exc JsValue :=
  contents <~ getField r.(AIService.body) "contents" ;;
  content <~ getFirst contents ;;
  parts <~ getField content "parts" ;;
  part <~ getFirst parts ;;
  getField part "text".

(** The first line of a diff text that names a file. *)
Definition firstFileLine (diffSummary : jsstring) : option jsstring :=
  hd_error
    (filter (fun line => includes line (lit "檔案:"))
       (split LF diffSummary)).

(** ** Notions about the file list *)

(** The status letters of [getFileStatus] with their descriptions. *)
Definition statusTable : list (jsstring * jsstring) :=
  [(lit "M", lit "Modified"); (lit "A", lit "Added");
   (lit "D", lit "Deleted"); (lit "R", lit "Renamed");
   (lit "C", lit "Copied"); (lit "C", lit "Changed");
   (lit "?", lit "Untracked")].

(** An entry with a letter and the description of the table, untracked
    exactly when its letter is the question mark, and then not staged. *)
Definition KnownEntry (e : GitService.GitFileStatus) : Prop :=
  In (e.(GitService.status), e.(GitService.description)) statusTable
  /\ (e.(GitService.status) = lit "?" ->
      e.(GitService.description) = lit "Untracked"
      /\ e.(GitService.staged) = false).

(** The class of characters that [sanitizeFilePath] removes. *)
Definition isPathMetacharacter (c : codeunit) : bool :=
  inClass (lit ";&|`$(){}[]") c.

(** ** Notions about the staged diff *)

(** The number that a run of decimal digits denotes after [a]. *)
Definition decimal (l : jsstring) (a : Z) : Z :=
  fold_left (fun acc c => (acc * 10 + StagedDiff.digitValue c)%Z) l a.

(** A text whose last unit is not white space. *)
Definition endsPlain (s : jsstring) : bool :=
  match rev s with
  | c :: _ => negb (isWhiteSpace c)
  | [] => false
  end.

(** A path as git prints it unquoted in a numstat line, and that trimming
    leaves alone: no tab, no line feed, and a last unit that is not white
    space. *)
Definition plainPath (p : jsstring) : bool :=
  negb (existsb (fun c => (c =? StagedDiff.TAB)%N || (c =? LF)%N) p)
  && endsPlain p.

(** An entry of the numstat output with such a path, and with counts that
    a JavaScript number holds exactly. *)
Definition plainEntry (entry : N * N * jsstring) : bool :=
  let '(added, deleted, file) := entry in
  plainPath file && (added <? 2 ^ 53)%N && (deleted <? 2 ^ 53)%N.

(** The output of [git diff --cached --numstat] for text files: one line
    for each file, each ended by a line feed. *)
Definition numstatOutput (entries : list (N * N * jsstring)) : jsstring :=
  flat_map (fun entry => StagedDiff.numstatLine entry ++ [LF]) entries.

(** ** Notions about the markup of the view *)

(** What the five replacements of [escapedPath] make of one unit. *)
Definition htmlUnit (c : codeunit) : jsstring :=
  if (c =? Webview.AMP)%N then lit "&amp;"
  else if (c =? Webview.LT)%N then lit "&lt;"
  else if (c =? Webview.GT)%N then lit "&gt;"
  else if (c =? DQUOTE)%N then lit "&quot;"
  else if (c =? SQUOTE)%N then lit "&#39;"
  else [c].

(** The number of occurrences of a unit. *)
Definition countOf (c : codeunit) (s : jsstring) : nat :=
  length (filter (N.eqb c) s).

(** The four characters that delimit markup and attribute values. *)
Definition isMarkup (c : codeunit) : bool :=
  ((c =? Webview.LT) || (c =? Webview.GT) || (c =? DQUOTE)
   || (c =? SQUOTE))%N.

(** ** Hosts of the examples *)

(** A workspace in which the repository check succeeds, nothing is staged,
    and every other command fails. *)
Definition nothingStaged (command : jsstring) (w : unit)
  : Exc jsstring * unit :=
  if JsString.eqb command GitCommands.CHECK_REPO then (Ok (lit ".git"), w)
  else if JsString.eqb command GitCommands.CHECK_STAGED then (Ok [], w)
  else (Threw (Error (lit "Command failed: " ++ command)), w).

(** A workspace whose index holds one modified file: every command
    succeeds, the queries answer with that file. *)
Definition oneStaged (command : jsstring) (w : unit) : Exc jsstring * unit :=
  if JsString.eqb command GitCommands.CHECK_STAGED then
    (Ok (lit "src/auth/login.ts
"), w)
  else if JsString.eqb command GitCommands.STATUS then
    (Ok (lit "M  src/auth/login.ts
"), w)
  else if JsString.eqb command GitCommands.DIFF_STAGED then (Ok loginFix, w)
  else (Ok [], w).

(** A user who answers yes. *)
Definition alwaysYes (message : jsstring) (items : list jsstring) (w : unit)
  : option jsstring * unit :=
  (Some Panel.YES, w).

(** [Math.round(confidence * 100)] as the examples need it: on a number
    the rounded percentage (the integer part of the product plus one half),
    on any other value the TypeError that JavaScript throws when a value
    cannot be converted to a number, as for an object whose [valueOf] and
    [toString] are not functions. *)
Definition percentOfNumber (v : JsValue) : Exc jsstring :=
  match v with
  | JNum q =>
      let x := (q * 100 + (1 # 2))%Q in
      Ok (intToString (Qnum x / Z.pos (Qden x))%Z)
  | _ => Threw (TypeError "Cannot convert object to primitive value")
  end.

(* ===================================================================== *)
(** ** The script of the view: the commit button *)
(* ===================================================================== *)

Module CommitForm.

(** [commitType.value && message.value.trim()] *)
Definition isValid (commitType message : jsstring) : bool :=
  match commitType, trim message with
  | _ :: _, _ :: _ => true
  | _, _ => false
  end.

(** [updateCommitButton]: the new value of [commitBtn.disabled]. *)
Definition updateCommitButton (commitType message : jsstring) : bool :=
  negb (isValid commitType message).

(** The click handler of the commit button: the fields of the message it
    posts to the extension, if it posts one. *)
Definition click (commitType scope message : jsstring)
  : option (jsstring * jsstring * jsstring) :=
  if isValid commitType message
  then Some (commitType, scope, trim message)
  else None.

End CommitForm.

(* ===================================================================== *)
(** ** The file watcher ([src/file-watcher.ts]) *)
(* ===================================================================== *)

Module FileWatcher.

(** [CONSTANTS.TIMING.DEBOUNCE_DELAY], in milliseconds. *)
Definition DEBOUNCE_DELAY : nat := 300.

(** The timers of the host, with the clock in milliseconds.  [setTimeout]
    registers a timer under a fresh identifier with the time at which it
    is due, [clearTimeout] removes the timer of an identifier, and does
    nothing when it has run or never was.  Every timer of the watcher
    carries the same callback, which runs [onChangeCallback]; the times at
    which it ran are recorded, the latest first. *)
Record Loop := mkLoop {
  now : nat;
  timers : list (nat * nat);
  fresh : nat;
  refreshed : list nat
}.

Definition setTimeout (delay : nat) (l : Loop) : nat * Loop :=
  (l.(fresh),
   mkLoop l.(now) (l.(timers) ++ [(l.(fresh), l.(now) + delay)%nat])
     (S l.(fresh)) l.(refreshed)).

Definition clearTimeout (id : nat) (l : Loop) : Loop :=
  mkLoop l.(now)
    (filter (fun timer => negb (Nat.eqb (fst timer) id)) l.(timers))
    l.(fresh) l.(refreshed).

(** [this.onChangeCallback()] *)
Definition onChangeCallback (l : Loop) : Loop :=
  mkLoop l.(now) l.(timers) l.(fresh) (l.(now) :: l.(refreshed)).

(** The field [refreshTimer] of the watcher. *)
Record Watcher := mkWatcher {
  refreshTimer : option nat
}.

(** [debouncedRefresh] *)
Definition debouncedRefresh (this : Watcher) (l : Loop) : Watcher * Loop :=
  let l1 :=
    match this.(refreshTimer) with
    | Some id => clearTimeout id l
    | None => l
    end in
  let (id, l2) := setTimeout DEBOUNCE_DELAY l1 in
  (mkWatcher (Some id), l2).

(** [forceRefresh] *)
Definition forceRefresh (this : Watcher) (l : Loop) : Watcher * Loop :=
  match this.(refreshTimer) with
  | Some id => (mkWatcher None, onChangeCallback (clearTimeout id l))
  | None => (this, onChangeCallback l)
  end.

(** [disposeWatchers], as far as the timer goes. *)
Definition disposeWatchers (this : Watcher) (l : Loop) : Watcher * Loop :=
  match this.(refreshTimer) with
  | Some id => (mkWatcher None, clearTimeout id l)
  | None => (this, l)
  end.

(** One millisecond passes: the timers that are due run, in the order in
    which they were set. *)
Definition tick (l : Loop) : Loop :=
  let t := S l.(now) in
  let due := filter (fun timer => Nat.leb (snd timer) t) l.(timers) in
  let rest := filter (fun timer => negb (Nat.leb (snd timer) t)) l.(timers) in
  fold_left (fun l' _ => onChangeCallback l') due
    (mkLoop t rest l.(fresh) l.(refreshed)).

(** What happens to a watcher: a file or the state of git changes, a
    refresh is forced, the watchers are disposed of, a millisecond
    passes. *)
Inductive Input := Changed | Forced | Disposed | Tick.

Definition step (s : Watcher * Loop) (i : Input) : Watcher * Loop :=
  match i with
  | Changed => debouncedRefresh (fst s) (snd s)
  | Forced => forceRefresh (fst s) (snd s)
  | Disposed => disposeWatchers (fst s) (snd s)
  | Tick => (fst s, tick (snd s))
  end.

Definition run (inputs : list Input) (s : Watcher * Loop) : Watcher * Loop :=
  fold_left step inputs s.

(** A watcher just built, at time 0. *)
Definition initial : Watcher * Loop :=
  (mkWatcher None, mkLoop 0 [] 0 []).

End FileWatcher.

(** ** Notions about the file watcher *)

(** A state in which at most one timer is pending, the one that
    [refreshTimer] names, due within the delay; identifiers handed out so
    far are below the next fresh one. *)
Definition Settled (s : FileWatcher.Watcher * FileWatcher.Loop) : Prop :=
  (FileWatcher.timers (snd s) = []
   \/ exists id due,
        FileWatcher.timers (snd s) = [(id, due)]
        /\ FileWatcher.refreshTimer (fst s) = Some id
        /\ (FileWatcher.now (snd s) < due
            <= FileWatcher.now (snd s) + FileWatcher.DEBOUNCE_DELAY)%nat)
  /\ (forall id,
        FileWatcher.refreshTimer (fst s) = Some id ->
        (id < FileWatcher.fresh (snd s))%nat).

(* ===================================================================== *)
(** * Properties *)
(* ===================================================================== *)

(** ** Strings *)

Lemma eqb_eq (a b : jsstring) : JsString.eqb a b = true <-> a = b.
Proof.
  revert b; induction a as [|x a IH]; intros [|y b]; simpl;
    split; intro H; try discriminate; try reflexivity.
  - apply andb_true_iff in H as [Hx Hab].
    apply N.eqb_eq in Hx. apply IH in Hab. congruence.
  - injection H as -> ->. rewrite N.eqb_refl. simpl. now apply IH.
Qed.

Lemma eqb_refl (a : jsstring) : JsString.eqb a a = true.
Proof. now apply eqb_eq. Qed.

(** ** [GitService.getFileStatus] *)

Section FileStatus.

Import GitService.

Let pathAndCategory (e : GitFileStatus) : jsstring * Category :=
  (e.(path), categoryOf e).

Lemma map_set_keys {V} (m : JsMap V) k v k' :
  In k' (map fst (map_set m k v)) -> k' = k \/ In k' (map fst m).
Proof.
  induction m as [|[k0 v0] m IH]; simpl.
  - intros [<-|[]]. now left.
  - destruct (JsString.eqb k0 k) eqn:E; simpl.
    + apply eqb_eq in E. subst k0. intros [<-|H]; auto.
    + intros [<-|H]; auto. apply IH in H as [->|H]; auto.
Qed.

Lemma map_set_NoDup {V} (m : JsMap V) k v :
  NoDup (map fst m) -> NoDup (map fst (map_set m k v)).
Proof.
  induction m as [|[k0 v0] m IH]; simpl; intro H.
  - constructor; [intros [] | constructor].
  - destruct (JsString.eqb k0 k) eqn:E; simpl.
    + apply eqb_eq in E. now subst k0.
    + inversion_clear H as [|? ? Hnotin Hrest]. constructor.
      * intro Hin. apply map_set_keys in Hin as [->|Hin].
        -- now rewrite eqb_refl in E.
        -- contradiction.
      * now apply IH.
Qed.

Lemma map_set_Forall {V} (P : jsstring * V -> Prop) (m : JsMap V) k v :
  Forall P m -> P (k, v) -> Forall P (map_set m k v).
Proof.
  induction m as [|[k0 v0] m IH]; simpl; intros H Hkv.
  - now constructor.
  - inversion_clear H. destruct (JsString.eqb k0 k); constructor; auto.
Qed.

Lemma map_set_WellKeyed m e :
  WellKeyed m -> WellKeyed (map_set m (entryKey e) e).
Proof.
  intros [Hkeys Hall]. split.
  - now apply map_set_NoDup.
  - now apply map_set_Forall.
Qed.

(** The status that [getStatusInfo] gives is never the untracked mark. *)
Lemma getStatusInfo_not_untracked code :
  JsString.eqb (fst (getStatusInfo code)) (lit "?") = false.
Proof.
  unfold getStatusInfo.
  repeat match goal with
         | |- context [if ?b then _ else _] => destruct b
         end; reflexivity.
Qed.

Lemma processLine_WellKeyed m line :
  WellKeyed m -> WellKeyed (processLine m line).
Proof.
  intro H. unfold processLine.
  destruct line as [|indexStatus [|workTreeStatus [|c t]]]; trivial.
  set (p := linePath _).
  assert (Hstaged : forall st d,
             p ++ lit "_staged" = entryKey (mkGitFileStatus p st d true))
    by reflexivity.
  assert (Hunstaged : forall code,
             p ++ lit "_unstaged"
             = entryKey (mkGitFileStatus p (fst (getStatusInfo code))
                           (snd (getStatusInfo code)) false)).
  { intro code. unfold entryKey, categoryOf. simpl.
    now rewrite getStatusInfo_not_untracked. }
  assert (Huntracked :
            p ++ lit "_untracked"
            = entryKey (mkGitFileStatus p (lit "?") (lit "Untracked") false))
    by reflexivity.
  rewrite Huntracked.
  rewrite (surjective_pairing (getStatusInfo indexStatus)).
  rewrite (surjective_pairing (getStatusInfo workTreeStatus)).
  rewrite (Hstaged (fst (getStatusInfo indexStatus))
             (snd (getStatusInfo indexStatus))).
  rewrite (Hunstaged workTreeStatus).
  repeat match goal with
         | |- context [if ?b then _ else _] => destruct b
         end;
    repeat apply map_set_WellKeyed; exact H.
Qed.

Lemma fold_processLine_WellKeyed lines m :
  WellKeyed m -> WellKeyed (fold_left processLine lines m).
Proof.
  revert m; induction lines as [|l lines IH]; simpl; intros m H; trivial.
  apply IH. now apply processLine_WellKeyed.
Qed.

Lemma WellKeyed_values m :
  WellKeyed m -> NoDup (map pathAndCategory (map_values m)).
Proof.
  intros [Hkeys Hall].
  apply (NoDup_map_inv (fun pc => fst pc ++ keySuffix (snd pc))).
  unfold map_values. rewrite !map_map.
  replace (map _ m) with (map fst m); trivial.
  apply map_ext_in. intros kv Hin.
  rewrite Forall_forall in Hall. now apply Hall.
Qed.

Lemma NoDup_map_filter {A B} (f : A -> B) (p : A -> bool) l :
  NoDup (map f l) -> NoDup (map f (filter p l)).
Proof.
  induction l as [|x l IH]; simpl; intro H; trivial.
  inversion_clear H as [|? ? Hnotin Hrest].
  destruct (p x); simpl; auto.
  constructor; auto.
  intro Hin. apply Hnotin.
  apply in_map_iff in Hin as (y & <- & Hy).
  apply filter_In in Hy as [Hy _]. now apply in_map.
Qed.

Lemma NoDup_paths_of_category (c : Category) (l : list GitFileStatus) :
  NoDup (map pathAndCategory l) ->
  NoDup (map path (filter (fun e => category_eqb (categoryOf e) c) l)).
Proof.
  intro H.
  apply (NoDup_map_filter _ (fun e => category_eqb (categoryOf e) c)) in H.
  apply (NoDup_map_inv (fun p => (p, c))).
  rewrite map_map.
  replace (map _ (filter _ l))
    with (map pathAndCategory
            (filter (fun e => category_eqb (categoryOf e) c) l)); trivial.
  apply map_ext_in. intros e He.
  apply filter_In in He as [_ He]. unfold pathAndCategory.
  destruct (categoryOf e), c; simpl in He; congruence.
Qed.

Lemma staged_is_category l :
  filter staged l
  = filter (fun e => category_eqb (categoryOf e) Staged) l.
Proof.
  apply filter_ext. intro e. unfold categoryOf.
  destruct (staged e); trivial.
  now destruct (JsString.eqb _ _).
Qed.

(** C10. Whatever [git status --porcelain] printed (or if it failed), the
    list returned by [getFileStatus] holds at most one entry for a path and
    a category (staged, unstaged, untracked): the pairs of path and category
    are distinct, so no path occurs twice among the entries with
    [staged = true], nor twice among the entries of any one category. *)
Theorem getFileStatus_one_entry_per_path_and_category
  (exec : Exc jsstring) (c : Category) :
  NoDup (map (fun e => (e.(path), categoryOf e)) (getFileStatus exec))
  /\ NoDup (map path (filter staged (getFileStatus exec)))
  /\ NoDup (map path
              (filter (fun e => category_eqb (categoryOf e) c)
                 (getFileStatus exec))).
Proof.
  assert (H : NoDup (map pathAndCategory (getFileStatus exec))).
  { destruct exec as [e|stdout]; simpl; [constructor|].
    apply WellKeyed_values, fold_processLine_WellKeyed.
    split; constructor. }
  split; [exact H|]. split.
  - rewrite staged_is_category. now apply NoDup_paths_of_category.
  - now apply NoDup_paths_of_category.
Qed.

End FileStatus.

Example getFileStatus_ex :
  GitService.getFileStatus
    (Ok (lit "MM a.ts
?? b.ts
A  a.ts
 M a.ts
"))
  = [ GitService.mkGitFileStatus (lit "a.ts") (lit "A") (lit "Added") true;
      GitService.mkGitFileStatus (lit "a.ts") (lit "M") (lit "Modified")
        false;
      GitService.mkGitFileStatus (lit "b.ts") (lit "?") (lit "Untracked")
        false ].
Proof. reflexivity. Qed.

(** ** [GitService]: the sanitizers *)

Section Sanitizers.

Import GitService.

Lemma replaceAll_go_removes_only (pat : jsstring) (s : jsstring) :
  forall skip c, In c (replaceAll_go pat [] skip s) -> In c s.
Proof.
  induction s as [|x s IH]; intros skip c H; [exact H|].
  cbn [replaceAll_go] in H.
  destruct skip as [|k].
  - destruct (startsWith (x :: s) pat).
    + right. exact (IH _ _ H).
    + destruct H as [->|H]; [now left | right; eauto].
  - right. eauto.
Qed.

Lemma trimStart_incl (s : jsstring) c : In c (trimStart s) -> In c s.
Proof.
  induction s as [|x s IH]; simpl; trivial.
  destruct (isWhiteSpace x); simpl; auto.
Qed.

Lemma trim_incl (s : jsstring) c : In c (trim s) -> In c s.
Proof.
  unfold trim, trimEnd. intro H.
  apply in_rev, trimStart_incl in H. apply in_rev in H.
  now apply trimStart_incl.
Qed.

(** Whatever the input, no shell metacharacter of the class
    [;&|`$(){}[]] is left in a sanitized path. *)
Lemma sanitizeFilePath_no_metacharacter (filePath : jsstring) (c : codeunit) :
  In c (sanitizeFilePath filePath) ->
  inClass (lit ";&|`$(){}[]") c = false.
Proof.
  unfold sanitizeFilePath. intro H.
  apply trim_incl in H.
  apply replaceAll_go_removes_only in H.
  unfold replaceClass in H. apply in_flat_map in H as (x & _ & Hx).
  destruct (inClass _ x) eqn:E; simpl in Hx; [contradiction|].
  destruct Hx as [<-|[]]. exact E.
Qed.

Lemma startsWith_nil (s : jsstring) : startsWith s [] = true.
Proof. now destruct s. Qed.

Lemma replaceAll_one_unit (x : codeunit) (rep s : jsstring) :
  replaceAll [x] rep s
  = flat_map (fun c => if (c =? x)%N then rep else [c]) s.
Proof.
  unfold replaceAll.
  induction s as [|c s IH]; cbn [replaceAll_go flat_map startsWith];
    trivial.
  rewrite startsWith_nil, andb_true_r. cbn [length pred]. rewrite IH.
  now destruct (c =? x)%N.
Qed.

Lemma sanitize_before_trim (m : jsstring) :
  replaceClass (inClass [BACKTICK; DOLLAR; BACKSLASH])
    (fun c => [BACKSLASH; c])
    (replaceAll [DQUOTE] [BACKSLASH; DQUOTE] m)
  = flat_map Shell.escapeUnit m.
Proof.
  rewrite replaceAll_one_unit. unfold replaceClass.
  induction m as [|c m IH]; cbn [flat_map]; trivial.
  rewrite flat_map_app, IH. f_equal.
  unfold Shell.escapeUnit. destruct (c =? DQUOTE)%N; [reflexivity|].
  cbn [flat_map app]. now destruct (inClass _ c).
Qed.

Lemma special_not_space (c : codeunit) :
  inClass [BACKTICK; DOLLAR; BACKSLASH] c = true -> isWhiteSpace c = false.
Proof.
  unfold inClass, existsb. intro H.
  repeat (apply orb_true_iff in H as [H|H]);
    try discriminate; apply N.eqb_eq in H; subst c; reflexivity.
Qed.

Lemma trimStart_flat_map (g : codeunit -> jsstring) (m : jsstring) :
  (forall c, isWhiteSpace c = true -> g c = [c]) ->
  (forall c, isWhiteSpace c = false ->
             exists x t, g c = x :: t /\ isWhiteSpace x = false) ->
  trimStart (flat_map g m) = flat_map g (trimStart m).
Proof.
  intros Hspace Hother.
  induction m as [|c m IH]; trivial.
  cbn [flat_map trimStart]. destruct (isWhiteSpace c) eqn:E.
  - rewrite (Hspace c E). cbn [app trimStart]. now rewrite E.
  - destruct (Hother c E) as (x & t & Hg & Hx).
    cbn [flat_map]. rewrite Hg. cbn [app trimStart]. now rewrite Hx.
Qed.

Lemma escapeUnit_space (c : codeunit) :
  isWhiteSpace c = true -> Shell.escapeUnit c = [c].
Proof.
  intro H. unfold Shell.escapeUnit.
  destruct (c =? DQUOTE)%N eqn:Eq.
  - apply N.eqb_eq in Eq. subst c. discriminate.
  - destruct (inClass _ c) eqn:Es; trivial.
    apply special_not_space in Es. congruence.
Qed.

Lemma escapeUnit_shape (c : codeunit) :
  isWhiteSpace c = false ->
  (exists x t, Shell.escapeUnit c = x :: t /\ isWhiteSpace x = false)
  /\ (exists x t, rev (Shell.escapeUnit c) = x :: t
                  /\ isWhiteSpace x = false).
Proof.
  intro H. unfold Shell.escapeUnit.
  destruct (c =? DQUOTE)%N; [|destruct (inClass _ c)];
    split; cbn [rev app]; eexists _, _; split; try reflexivity; trivial.
Qed.

Lemma trimStart_escape (m : jsstring) :
  trimStart (flat_map Shell.escapeUnit m)
  = flat_map Shell.escapeUnit (trimStart m).
Proof.
  apply trimStart_flat_map.
  - apply escapeUnit_space.
  - intros c H. apply (escapeUnit_shape c H).
Qed.

Lemma trimStart_rev_escape (m : jsstring) :
  trimStart (flat_map (fun c => rev (Shell.escapeUnit c)) m)
  = flat_map (fun c => rev (Shell.escapeUnit c)) (trimStart m).
Proof.
  apply trimStart_flat_map.
  - intros c H. now rewrite (escapeUnit_space c H).
  - intros c H. apply (escapeUnit_shape c H).
Qed.

Lemma rev_flat_map {A B} (f : A -> list B) (l : list A) :
  rev (flat_map f l) = flat_map (fun x => rev (f x)) (rev l).
Proof.
  induction l as [|x l IH]; trivial.
  cbn [flat_map rev]. rewrite rev_app_distr, IH, flat_map_app.
  cbn [flat_map]. now rewrite app_nil_r.
Qed.

(** The sanitized message is the trimmed message with every unit replaced
    by its escape. *)
Lemma sanitizeCommitMessage_by_unit (m : jsstring) :
  sanitizeCommitMessage m = flat_map Shell.escapeUnit (trim m).
Proof.
  unfold sanitizeCommitMessage. rewrite sanitize_before_trim.
  unfold trim, trimEnd.
  rewrite trimStart_escape, rev_flat_map, trimStart_rev_escape, rev_flat_map.
  apply flat_map_ext. intro c. apply rev_involutive.
Qed.

Lemma unquoted_escape (p : codeunit -> bool) (m : jsstring) :
  Shell.unquoted p (flat_map Shell.escapeUnit m)
  = existsb
      (fun c => p c && negb (inClass [BACKTICK; DOLLAR; BACKSLASH] c)) m.
Proof.
  induction m as [|c m IH]; trivial.
  cbn [flat_map existsb]. unfold Shell.escapeUnit at 1.
  destruct (c =? DQUOTE)%N eqn:Eq.
  - apply N.eqb_eq in Eq. subst c.
    change (Shell.unquoted p
              ([BACKSLASH; BACKSLASH; DQUOTE] ++ flat_map Shell.escapeUnit m))
      with (p DQUOTE || Shell.unquoted p (flat_map Shell.escapeUnit m)).
    rewrite IH.
    change (inClass [BACKTICK; DOLLAR; BACKSLASH] DQUOTE) with false.
    now rewrite andb_true_r.
  - destruct (inClass _ c) eqn:Es.
    + cbn [app Shell.unquoted]. rewrite N.eqb_refl, IH.
      now rewrite andb_false_r.
    + cbn [app Shell.unquoted].
      replace (c =? BACKSLASH)%N with false.
      * now rewrite IH, andb_true_r.
      * symmetry. unfold inClass, existsb in Es.
        repeat (apply orb_false_iff in Es as [? Es]). assumption.
Qed.

(** Every double quote of the (trimmed) message is left unquoted. *)
Lemma sanitizeCommitMessage_quote_unquoted (m : jsstring) :
  Shell.unquoted (N.eqb DQUOTE) (sanitizeCommitMessage m)
  = existsb (N.eqb DQUOTE) (trim m).
Proof.
  rewrite sanitizeCommitMessage_by_unit, unquoted_escape.
  induction (trim m) as [|c t IH]; trivial.
  cbn [existsb]. rewrite IH. f_equal.
  destruct (DQUOTE =? c)%N eqn:E; trivial.
  apply N.eqb_eq in E. now subst c.
Qed.

(** No backtick and no dollar sign is left unquoted. *)
Lemma sanitizeCommitMessage_no_expansion (m : jsstring) :
  Shell.unquoted (inClass [BACKTICK; DOLLAR]) (sanitizeCommitMessage m)
  = false.
Proof.
  rewrite sanitizeCommitMessage_by_unit, unquoted_escape.
  induction (trim m) as [|c t IH]; trivial.
  cbn [existsb]. rewrite IH. unfold inClass, existsb.
  destruct (c =? BACKTICK)%N, (c =? DOLLAR)%N; reflexivity.
Qed.

(** C9. The two sanitizers miss what they are written for.  In a sanitized
    message every double quote of the message is left unquoted: the
    backslash put before it is itself escaped by the second replacement, so
    the message of one double quote comes out as two backslashes and the
    quote, which closes the shell word of [git commit -m].  A path in which
    the traversal sequence is nested comes out with the sequence rebuilt,
    since it is removed in one pass.  (The metacharacters are removed:
    [stageFile] on [a; rm -rf /.ts] runs [git add] on [a rm -rf /.ts].) *)
Theorem sanitizers_leave_quote_and_traversal :
  (forall message,
      Shell.unquoted (N.eqb DQUOTE) (sanitizeCommitMessage message)
      = existsb (N.eqb DQUOTE) (trim message))
  /\ sanitizeCommitMessage [DQUOTE] = [BACKSLASH; BACKSLASH; DQUOTE]
  /\ commitCommand [DQUOTE]
     = lit "git commit -m " ++ [DQUOTE; BACKSLASH; BACKSLASH; DQUOTE; DQUOTE]
  /\ sanitizeFilePath (lit "....//etc/passwd") = lit "../etc/passwd"
  /\ includes (sanitizeFilePath (lit "....//etc/passwd")) (lit "../") = true
  /\ stageFileCommand (lit "a; rm -rf /.ts")
     = lit "git add " ++ [DQUOTE] ++ lit "a rm -rf /.ts" ++ [DQUOTE].
Proof.
  split; [exact sanitizeCommitMessage_quote_unquoted|].
  repeat split; reflexivity.
Qed.

End Sanitizers.

(** ** The rule engine *)

Section Rules.

Import AIService.
Local Open Scope Q_scope.

Variable toLowerCase : jsstring -> jsstring.

Lemma Math_min_cap (a b : Q) : Math_min a b <= b.
Proof.
  unfold Math_min. destruct (Qle_bool a b) eqn:E.
  - now apply Qle_bool_iff.
  - apply Qle_refl.
Qed.

Local Ltac split_ifs :=
  repeat match goal with
         | |- context [if ?b then _ else _] => destruct b
         end.

Lemma determineCommitType_known files flags stats :
  In (fst (determineCommitType toLowerCase files flags stats)) commitTypes.
Proof.
  unfold determineCommitType. split_ifs; simpl; tauto.
Qed.

(** C3. For every diff text (and every case table of the host), the
    rule-based path returns a content whose confidence is a number not
    above 0.9 and whose type is one of the eleven commit types. *)
Theorem generateWithEnhancedRules_capped_and_typed (diffSummary : jsstring) :
  exists (q : Q) (t : jsstring),
    (generateWithEnhancedRules toLowerCase diffSummary).(confidence) = JNum q
    /\ q <= 0.9
    /\ (generateWithEnhancedRules toLowerCase diffSummary).(type) = JStr t
    /\ In t [lit "feat"; lit "fix"; lit "refactor"; lit "docs"; lit "style";
             lit "test"; lit "chore"; lit "perf"; lit "ci"; lit "build";
             lit "revert"].
Proof.
  unfold generateWithEnhancedRules. simpl.
  eexists _, _. split; [reflexivity|]. split; [apply Math_min_cap|].
  split; [reflexivity|]. apply determineCommitType_known.
Qed.

(** C4. [determineCommitType] is the table of eleven rules read in order,
    the first rule whose condition holds giving the result; one file
    [README.md] with only the docs flag gives (docs, 0.9), and any five
    files with 120 additions, 10 deletions and the feature flag (no bug-fix,
    tests or docs flag) give (feat, 0.85). *)
Theorem determineCommitType_precedence :
  (forall files flags stats,
      determineCommitType toLowerCase files flags stats
      = Precedence.classify toLowerCase files flags stats)
  /\ (forall stats,
         determineCommitType toLowerCase [lit "README.md"] Precedence.onlyDocs
           stats
         = (lit "docs", 0.9))
  /\ (forall f1 f2 f3 f4 f5 refactorFlag stylesFlag configFlag,
         determineCommitType toLowerCase [f1; f2; f3; f4; f5]
           (mkAnalysis true false refactorFlag false false stylesFlag
              configFlag)
           (mkStats 120 10 5)
         = (lit "feat", 0.85)).
Proof.
  split; [|split].
  - intros files flags stats.
    unfold determineCommitType, Precedence.classify, Precedence.firstMatching.
    rewrite (Z.mul_comm 2).
    destruct (existsb (fun f => includes f (lit "package.json")) files);
      rewrite ?andb_true_r, ?andb_false_r; split_ifs; reflexivity.
  - intro stats. unfold determineCommitType, Precedence.onlyDocs.
    cbn [hasTests hasDocs]. rewrite andb_false_r.
    replace (existsb (isDocFile toLowerCase) [lit "README.md"]) with true;
      [reflexivity|].
    unfold existsb, isDocFile.
    replace (hasExtension _ _) with true by (vm_compute; reflexivity).
    reflexivity.
  - intros. unfold determineCommitType.
    cbn [hasTests hasDocs hasBugFix hasNewFeature additions deletions].
    rewrite !andb_false_r. reflexivity.
Qed.

(** C5 (as the code has it). The scope is taken from the first segment of
    each path and the segment [src] is dropped, so the two paths under
    [src/auth] give no scope; the same files without the [src] segment give
    [auth]. *)
Theorem extractScope_first_segment_only :
  extractScope toLowerCase [lit "src/auth/login.ts"; lit "src/auth/token.ts"]
  = []
  /\ extractScope toLowerCase [lit "auth/login.ts"; lit "auth/token.ts"]
     = lit "auth".
Proof. split; reflexivity. Qed.

End Rules.

(** C5 at the two paths under [src/auth]: the scope derived from them is
    the empty string, not [auth]. *)
Lemma extractScope_src_auth_is_empty :
  AIService.extractScope toLowerCaseAscii
    [lit "src/auth/login.ts"; lit "src/auth/token.ts"] = []
  /\ JsString.eqb
       (AIService.extractScope toLowerCaseAscii
          [lit "src/auth/login.ts"; lit "src/auth/token.ts"])
       (lit "auth") = false.
Proof. split; reflexivity. Qed.

(** ** Parsing a provider's answer *)

Section Parsing.

Import AIService.
Local Open Scope Q_scope.

(** The confidence lies in [0, 1] unless it is the truthy value that the
    provider's JSON supplied. *)
Lemma parseAIResponse_confidence_range (response : jsstring) :
  InUnitInterval (parseAIResponse response).(confidence)
  \/ exists jsonMatch parsed,
       matchBraces response = Some jsonMatch
       /\ JSON.parse jsonMatch = Ok parsed
       /\ truthy (getFieldOpt parsed "confidence") = true
       /\ (parseAIResponse response).(confidence)
          = getFieldOpt parsed "confidence".
Proof.
  assert (H07 : InUnitInterval (JNum 0.7)).
  { exists 0.7. repeat split; unfold Qle; simpl; lia. }
  assert (H08 : InUnitInterval (JNum 0.8)).
  { exists 0.8. repeat split; unfold Qle; simpl; lia. }
  assert (Htext : forall (g : option (jsstring * jsstring * jsstring)) d,
             InUnitInterval
               (let '(ty, sc, msg) := match g with Some x => x | None => d end
                in mkContent (JStr ty) (strOrUndefined sc)
                     (JStr (trim (stripQuotes msg))) (JNum 0.7)).(confidence)).
  { intros [[[? ?] ?]|] [[? ?] ?]; exact H07. }
  unfold parseAIResponse.
  destruct (matchBraces response) as [jsonMatch|]; [|left; apply Htext].
  destruct (JSON.parse jsonMatch) as [e|parsed] eqn:Hparse;
    [left; apply Htext|].
  assert (Hobj : forall conf,
             conf = getFieldOpt parsed "confidence" ->
             InUnitInterval (orElse conf (JNum 0.8))
             \/ truthy conf = true /\ orElse conf (JNum 0.8) = conf).
  { intros conf _. unfold orElse. destruct (truthy conf); auto. }
  destruct parsed; cbn [bindE getField]; try (left; apply Htext);
    cbn [confidence];
    (destruct (Hobj _ eq_refl) as [Hin|[Ht Heq]];
     [left; exact Hin
     |right; eexists _, _; repeat split; [exact Hparse|exact Ht|exact Heq]]).
Qed.

(** C8 (as the code has it). The confidence of a parsed answer is fixed by
    the branch that reads it: 0.7 on the conventional-commit pattern and on
    the first-line fallback, whether the text has no braces, or braces
    around something that is not JSON; on the JSON branch the object's own
    [confidence] when that is truthy, returned as it is, and 0.8 when the
    object gives none or a falsy one.  So it lies in [0, 1] unless it is
    the truthy value that the provider's JSON supplied. *)
Theorem parseAIResponse_confidence (response : jsstring) :
  (parseAIResponse response).(confidence) = confidenceOn (branchOf response)
  /\ (InUnitInterval (parseAIResponse response).(confidence)
      \/ exists parsed,
           branchOf response = ExtractedJson parsed
           /\ truthy (getFieldOpt parsed "confidence") = true
           /\ (parseAIResponse response).(confidence)
              = getFieldOpt parsed "confidence").
Proof.
  assert (H07 : InUnitInterval (JNum 0.7)).
  { exists 0.7. repeat split; unfold Qle; simpl; lia. }
  assert (H08 : InUnitInterval (JNum 0.8)).
  { exists 0.8. repeat split; unfold Qle; simpl; lia. }
  assert (Htext : forall (g : option (jsstring * jsstring * jsstring)) d,
             (let '(ty, sc, msg) := match g with Some x => x | None => d end
              in mkContent (JStr ty) (strOrUndefined sc)
                   (JStr (trim (stripQuotes msg))) (JNum 0.7)).(confidence)
             = JNum 0.7).
  { intros [[[? ?] ?]|] [[? ?] ?]; reflexivity. }
  assert (Hrange : forall (g : option (jsstring * jsstring * jsstring)) d,
             InUnitInterval
               (let '(ty, sc, msg) := match g with Some x => x | None => d end
                in mkContent (JStr ty) (strOrUndefined sc)
                     (JStr (trim (stripQuotes msg))) (JNum 0.7)).(confidence)).
  { intros [[[? ?] ?]|] [[? ?] ?]; exact H07. }
  assert (Hbranch : confidenceOn (textBranch response) = JNum 0.7).
  { unfold textBranch. now destruct (matchCommit response). }
  unfold parseAIResponse, branchOf.
  destruct (matchBraces response) as [jsonMatch|];
    [|split; [rewrite Hbranch; apply Htext | left; apply Hrange]].
  destruct (JSON.parse jsonMatch) as [e|parsed];
    [split; [rewrite Hbranch; apply Htext | left; apply Hrange]|].
  destruct parsed; cbn [bindE getField];
    try (split; [rewrite Hbranch; apply Htext | left; apply Hrange]);
    cbn [confidence confidenceOn]; unfold orElse;
    (split; [reflexivity|]);
    match goal with
    | |- context [truthy ?c] => destruct (truthy c) eqn:Ht
    end;
    try (left; exact H08);
    right; eexists; repeat split; exact Ht.
Qed.

End Parsing.

(** C8 at an answer: on the JSON branch the confidence 5 of the
    provider is returned as it is. *)
Lemma parseAIResponse_confidence_unclamped :
  (AIService.parseAIResponse (quoted "{'confidence': 5}")
  ).(AIService.confidence) = JNum 5
  /\ Qle_bool 5 1 = false.
Proof. split; reflexivity. Qed.

(** The branches at work: a commit message, a sentence, braces around
    something that is not JSON, an object without a confidence, an object
    with one. *)
Example parseAIResponse_confidence_by_branch :
  (parseAIResponse_branches (lit "fix(auth): handle expired tokens")
   = (CommitPattern, JNum 0.7))
  /\ (parseAIResponse_branches (lit "Updated the login flow")
      = (FirstLine, JNum 0.7))
  /\ (parseAIResponse_branches (lit "feat: use {braces} in templates")
      = (CommitPattern, JNum 0.7))
  /\ (parseAIResponse_branches (quoted "{'type': 'fix'}")
      = (ExtractedJson (JObj [(lit "type", JStr (lit "fix"))]), JNum 0.8))
  /\ (parseAIResponse_branches (quoted "{'confidence': 0.95}")
      = (ExtractedJson (JObj [(lit "confidence", JNum 0.95)]), JNum 0.95)).
Proof. repeat split; vm_compute; reflexivity. Qed.

(** ** The gateway *)

Section Gateway.

Import AIService.
Local Open Scope Q_scope.

Variable toLowerCase : jsstring -> jsstring.
Variable fetch : Request -> Exc Response.
Variable JSON_stringify : JsValue -> jsstring.

Let rulesOf := generateWithEnhancedRules toLowerCase.
Let Safe := ReturnsRulesOrAnswer toLowerCase.

Lemma safe_throw d e : Safe d (throw e).
Proof. exact I. Qed.

Lemma safe_rules d : Safe d (ret (rulesOf d)).
Proof. now left. Qed.

Lemma safe_parse d content : Safe d (liftE (callParseAIResponse content)).
Proof.
  destruct content; try exact I. right. now eexists.
Qed.

Lemma safe_bind {A} d (m : M A) k :
  (forall a, Safe d (k a)) -> Safe d (bind m k).
Proof.
  intro H. destruct m as [tr [e|a]]; [exact I|].
  specialize (H a). unfold Safe, ReturnsRulesOrAnswer, bind in *.
  now destruct (k a).
Qed.

Local Ltac safe :=
  repeat first
    [ apply safe_throw
    | apply safe_rules
    | apply safe_parse
    | apply safe_bind; intros
    | progress cbv zeta
    | match goal with
      | |- Safe _ (if ?b then _ else _) => destruct b
      end ].

Lemma generateWithOpenAI_safe config d :
  Safe d (generateWithOpenAI fetch config d).
Proof. unfold generateWithOpenAI. safe. Qed.

Lemma generateWithAnthropic_safe config d :
  Safe d (generateWithAnthropic fetch config d).
Proof. unfold generateWithAnthropic. safe. Qed.

Lemma generateWithGemini_send_safe config d processed :
  Safe d (generateWithGemini_send toLowerCase fetch JSON_stringify config d
            processed).
Proof. unfold generateWithGemini_send. safe. Qed.

Lemma generateWithGemini_safe config d :
  Safe d (generateWithGemini toLowerCase fetch JSON_stringify config d).
Proof.
  unfold generateWithGemini.
  repeat match goal with
         | |- Safe _ (if ?b then _ else _) => destruct b
         | |- Safe _ (let x := _ in _) => cbv zeta
         end;
    try apply generateWithGemini_send_safe; safe.
Qed.

Lemma generateWithLocalAI_safe config d :
  Safe d (generateWithLocalAI fetch config d).
Proof. unfold generateWithLocalAI. safe. Qed.

Lemma dispatch_safe config d :
  Safe d (dispatch toLowerCase fetch JSON_stringify config d).
Proof.
  unfold dispatch. destruct (provider config).
  - apply generateWithOpenAI_safe.
  - apply generateWithAnthropic_safe.
  - apply generateWithGemini_safe.
  - apply generateWithLocalAI_safe.
  - apply safe_rules.
Qed.

(** *** When no generation request is answered *)

Section NoAnswer.

Hypothesis Hfetch : NoAnswer fetch.

Let Falls := ThrowsOrRules toLowerCase.

Lemma falls_throw d e : Falls d (throw e).
Proof. exact I. Qed.

Lemma falls_rules d : Falls d (ret (rulesOf d)).
Proof. reflexivity. Qed.

Lemma falls_bind {A} d (m : M A) k :
  (forall a, Falls d (k a)) -> Falls d (bind m k).
Proof.
  intro H. destruct m as [tr [e|a]]; [exact I|].
  specialize (H a). unfold Falls, ThrowsOrRules, bind in *.
  now destruct (k a).
Qed.

Local Ltac falls :=
  repeat first
    [ apply falls_throw
    | apply falls_rules
    | apply falls_bind; intros
    | match goal with
      | |- Falls _ (if ?b then _ else _) => destruct b
      end ].

(** A generation request whose answer, if it is a success, is read as
    JSON before anything else. *)
Lemma falls_post d r (onError : Response -> M AICommitContent)
  (onData : Response -> JsValue -> M AICommitContent) :
  r.(method) = POST ->
  (forall response, Falls d (onError response)) ->
  Falls d
    (bind (await_fetch fetch r)
       (fun response =>
          if negb response.(ok) then onError response
          else bind (liftE (json response)) (onData response))).
Proof.
  intros Hpost Herror. unfold await_fetch, bind at 1.
  destruct (fetch r) as [e|response] eqn:Hr; [exact I|].
  assert (Herr : Falls d
                   (let (tr', x) := onError response in
                    ([Fetched r] ++ tr', x))).
  { specialize (Herror response). unfold Falls, ThrowsOrRules in *.
    now destruct (onError response). }
  destruct (Hfetch Hpost Hr) as [Hok|[e Hjson]].
  - now rewrite Hok.
  - destruct (ok response); [|exact Herr].
    cbn [negb]. rewrite Hjson. exact I.
Qed.

Lemma generateWithOpenAI_falls config d :
  Falls d (generateWithOpenAI fetch config d).
Proof.
  unfold generateWithOpenAI. destruct (negb _); [apply falls_throw|].
  apply falls_post with (onData := fun _ => _); [reflexivity|]. intros. falls.
Qed.

Lemma generateWithAnthropic_falls config d :
  Falls d (generateWithAnthropic fetch config d).
Proof.
  unfold generateWithAnthropic. destruct (negb _); [apply falls_throw|].
  apply falls_post with (onData := fun _ => _); [reflexivity|]. intros. falls.
Qed.

Lemma generateWithGemini_send_falls config d processed :
  Falls d (generateWithGemini_send toLowerCase fetch JSON_stringify config d
             processed).
Proof.
  unfold generateWithGemini_send. apply falls_bind. intros _.
  apply falls_post with (onData := fun _ => _); [reflexivity|]. intros. falls.
Qed.

Lemma generateWithGemini_falls config d :
  Falls d (generateWithGemini toLowerCase fetch JSON_stringify config d).
Proof.
  unfold generateWithGemini. destruct (negb _); [apply falls_throw|].
  destruct (gt _ _); [cbv zeta; destruct (gt _ _)|].
  - apply falls_bind. intros _. apply falls_rules.
  - apply falls_bind. intros _. apply generateWithGemini_send_falls.
  - apply generateWithGemini_send_falls.
Qed.

Lemma generateWithLocalAI_falls config d :
  Falls d (generateWithLocalAI fetch config d).
Proof.
  unfold generateWithLocalAI. destruct (negb _); [apply falls_throw|].
  cbv zeta. apply falls_bind. intros _.
  apply falls_post with (onData := fun _ => _); [reflexivity|]. intros. falls.
Qed.

Lemma dispatch_falls config d :
  Falls d (dispatch toLowerCase fetch JSON_stringify config d).
Proof.
  unfold dispatch. destruct (provider config).
  - apply generateWithOpenAI_falls.
  - apply generateWithAnthropic_falls.
  - apply generateWithGemini_falls.
  - apply generateWithLocalAI_falls.
  - apply falls_rules.
Qed.

End NoAnswer.

Lemma showProviderError_returns config e :
  exists tr, showProviderError config e = (tr, Ok tt).
Proof.
  unfold showProviderError, emit, ret.
  repeat match goal with
         | |- context [if ?b then _ else _] => destruct b
         end; eexists; reflexivity.
Qed.

Lemma generateWithEnhancedRules_well_typed d :
  WellTyped (generateWithEnhancedRules toLowerCase d).
Proof.
  unfold WellTyped, generateWithEnhancedRules.
  cbn [type scope message confidence].
  repeat split; try (eexists; reflexivity).
  unfold strOrUndefined. destruct (extractScope _ _); eauto.
Qed.


(** C2. On a diff text that is empty or only white space the gateway throws
    the no-staged-files error at once: no request was sent and no
    notification shown, whatever the configuration and the length of the
    text. *)
Theorem generateCommitContent_blank config (diffSummary : jsstring) :
  isBlank diffSummary = true ->
  generateCommitContent toLowerCase fetch JSON_stringify config diffSummary
  = ([], Threw (Error NO_STAGED_FILES)).
Proof.
  intro Hblank. unfold generateCommitContent. now rewrite Hblank.
Qed.

Lemma gt_lengthOf (s : jsstring) (n : Z) :
  gt (lengthOf s) (inject_Z n) = (n <? Z.of_nat (length s))%Z.
Proof.
  unfold gt, lengthOf, Qle_bool. simpl. rewrite !Z.mul_1_r.
  now rewrite Z.ltb_antisym.
Qed.

Lemma gt_lengthOf_local (s : jsstring) :
  gt (lengthOf s) (MAX_DIFF_LENGTH * 1.5) = (12000 <? Z.of_nat (length s))%Z.
Proof.
  unfold gt, lengthOf, Qle_bool. simpl. rewrite Z.ltb_antisym. f_equal.
  destruct (Z.leb_spec (Z.of_nat (length s) * 10) 120000),
    (Z.leb_spec (Z.of_nat (length s)) 12000); trivial; lia.
Qed.

Lemma gt_lengthOf_ceiling (s : jsstring) :
  gt (lengthOf s) (GEMINI_SUMMARY_LENGTH * 1.5)
  = (1200 <? Z.of_nat (length s))%Z.
Proof.
  unfold gt, lengthOf, Qle_bool. simpl. rewrite Z.ltb_antisym. f_equal.
  destruct (Z.leb_spec (Z.of_nat (length s) * 10) 12000),
    (Z.leb_spec (Z.of_nat (length s)) 1200); trivial; lia.
Qed.

(** C6 (as the code has it). On a diff text that is not blank and is longer
    than the threshold of the configured provider (8000 units for openai
    and anthropic, 12000 for local), the gateway returns the rule engine's
    content for that text and sends no request. *)
Theorem generateCommitContent_large_diff config (diffSummary : jsstring) :
  isBlank diffSummary = false ->
  ((config.(provider) = openai \/ config.(provider) = anthropic)
   /\ (8000 < Z.of_nat (length diffSummary))%Z)
  \/ (config.(provider) = local
      /\ (12000 < Z.of_nat (length diffSummary))%Z) ->
  generateCommitContent toLowerCase fetch JSON_stringify config diffSummary
  = ([], Ok (generateWithEnhancedRules toLowerCase diffSummary)).
Proof.
  intros Hblank Hlarge. unfold generateCommitContent. rewrite Hblank.
  replace (isLargeDiffForProvider config diffSummary
           && negb (provider_eqb (provider config) gemini)) with true;
    [reflexivity|].
  unfold isLargeDiffForProvider.
  destruct Hlarge as [[[-> | ->] Hlen] | [-> Hlen]]; simpl;
    rewrite ?gt_lengthOf_local, ?(gt_lengthOf _ 8000);
    symmetry; rewrite andb_true_r; now apply Z.ltb_lt.
Qed.

Lemma sends_nothing {A} P (m : M A) : fst m = [] -> Sends P m.
Proof. intros H r Hin. rewrite H in Hin. destruct Hin. Qed.

Lemma sends_information {A} P msg (k : unit -> M A) :
  Sends P (k tt) -> Sends P (bind (emit (InformationShown msg)) k).
Proof.
  intros H r. unfold bind, emit. specialize (H r).
  destruct (k tt) as [tr x]. simpl in *. intros [Hin|Hin]; [discriminate|auto].
Qed.

Lemma sends_warning {A} P msg items (k : unit -> M A) :
  Sends P (k tt) -> Sends P (bind (emit (WarningShown msg items)) k).
Proof.
  intros H r. unfold bind, emit. specialize (H r).
  destruct (k tt) as [tr x]. simpl in *. intros [Hin|Hin]; [discriminate|auto].
Qed.

Lemma sends_fetch (P : Request -> Prop) r :
  P r -> Sends P (await_fetch fetch r).
Proof. intros H r' [Hin|[]]. now injection Hin as <-. Qed.

Lemma sends_bind {A B} P (m : M A) (k : A -> M B) :
  Sends P m -> (forall a, Sends P (k a)) -> Sends P (bind m k).
Proof.
  intros Hm Hk r. destruct m as [tr [e|a]]; simpl.
  - apply Hm.
  - specialize (Hk a r). destruct (k a) as [tr' x]. simpl in *.
    intro Hin. apply in_app_or in Hin as [Hin|Hin]; [now apply Hm | auto].
Qed.

Lemma sends_tryCatch {A} P (m : M A) handler :
  Sends P m -> (forall e, Sends P (handler e)) -> Sends P (tryCatch m handler).
Proof.
  intros Hm Hh r. destruct m as [tr [e|a]]; simpl.
  - specialize (Hh e r). destruct (handler e) as [tr' x]. simpl in *.
    intro Hin. apply in_app_or in Hin as [Hin|Hin]; [now apply Hm | auto].
  - apply Hm.
Qed.

Local Ltac sends :=
  repeat first
    [ apply sends_nothing; reflexivity
    | apply sends_fetch; auto
    | apply sends_information
    | apply sends_warning
    | apply sends_tryCatch; intros
    | apply sends_bind; intros
    | progress cbv zeta
    | match goal with
      | |- Sends _ (if ?b then _ else _) => destruct b
      end ].

Lemma generateWithGemini_send_requests config d processed :
  Sends (fun r => r = geminiTestRequest config
                  \/ r = geminiRequest config processed)
    (generateWithGemini_send toLowerCase fetch JSON_stringify config d
       processed).
Proof. unfold generateWithGemini_send. sends. Qed.

Lemma in_bind_continue {A B} (m : M A) (k : A -> M B) a ev :
  snd m = Ok a -> In ev (fst (k a)) -> In ev (fst (bind m k)).
Proof.
  destruct m as [tr x]. simpl. intros -> Hin.
  destruct (k a). simpl in *. apply in_or_app. now right.
Qed.

Lemma fetch_recorded {B} r (k : Response -> M B) :
  In (Fetched r) (fst (bind (await_fetch fetch r) k)).
Proof.
  unfold await_fetch, bind. destruct (fetch r) as [e|a]; [now left|].
  destruct (k a). now left.
Qed.

Lemma generateWithGemini_send_posts config d processed response :
  fetch (geminiTestRequest config) = Ok response ->
  response.(ok) = true ->
  In (Fetched (geminiRequest config processed))
    (fst (generateWithGemini_send toLowerCase fetch JSON_stringify config d
            processed)).
Proof.
  intros Hfetch Hok. unfold generateWithGemini_send.
  apply in_bind_continue with (a := tt); [|apply fetch_recorded].
  unfold await_fetch, bind. rewrite Hfetch. cbv beta iota. rewrite Hok.
  reflexivity.
Qed.

Lemma startsWith_app (p t : jsstring) : startsWith (p ++ t) p = true.
Proof.
  induction p as [|x p IH]; cbn [startsWith app].
  - now destruct t.
  - now rewrite N.eqb_refl.
Qed.

Lemma includes_here (s p : jsstring) :
  startsWith s p = true -> includes s p = true.
Proof.
  destruct s; cbn [includes]; intro H; trivial. now rewrite H.
Qed.

Lemma includes_app_r (a s p : jsstring) :
  includes s p = true -> includes (a ++ s) p = true.
Proof.
  induction a as [|x a IH]; intro H; trivial.
  change ((x :: a) ++ s) with (x :: (a ++ s)). cbn [includes].
  rewrite (IH H). apply orb_true_r.
Qed.

Lemma createGeminiPrompt_contains config (text : jsstring) :
  includes (createGeminiPrompt config text) text = true.
Proof.
  unfold createGeminiPrompt.
  destruct (match model config with Some m => _ | None => _ end).
  - apply includes_here, startsWith_app.
  - do 2 apply includes_app_r. apply includes_here, startsWith_app.
Qed.

Lemma generateWithGemini_large config (diffSummary : jsstring) :
  isSet config.(apiKey) = true ->
  (3000 < Z.of_nat (length diffSummary))%Z ->
  generateWithGemini toLowerCase fetch JSON_stringify config diffSummary
  = if (1200 <? Z.of_nat (length (truncateDiffForGemini diffSummary)))%Z
    then
      bind (emit (InformationShown NOTICE_TOO_COMPLEX))
        (fun _ => ret (generateWithEnhancedRules toLowerCase diffSummary))
    else
      bind (emit (InformationShown NOTICE_CONDENSING))
        (fun _ =>
           generateWithGemini_send toLowerCase fetch JSON_stringify config
             diffSummary (truncateDiffForGemini diffSummary)).
Proof.
  intros Hkey Hlong. unfold generateWithGemini. rewrite Hkey. cbn [negb].
  change GEMINI_MAX_DIFF_LENGTH with (inject_Z 3000).
  rewrite gt_lengthOf. apply Z.ltb_lt in Hlong. rewrite Hlong.
  cbv zeta. now rewrite gt_lengthOf_ceiling.
Qed.

End Gateway.



(** C2 at a text of three spaces. *)
Lemma generateCommitContent_blank_witness :
  isBlank (lit "   ") = true
  /\ AIService.generateCommitContent toLowerCaseAscii offline noStringify
       (AIService.mkConfig AIService.openai (Some (lit "sk-test")) None None)
       (lit "   ")
     = ([], Threw (Error AIService.NO_STAGED_FILES)).
Proof.
  split; [reflexivity|].
  apply (generateCommitContent_blank toLowerCaseAscii offline noStringify).
  reflexivity.
Defined.

(** C6 at a text of 8001 spaces: they are a non-empty text longer than
    the threshold of openai, and the gateway throws on them. *)
Lemma generateCommitContent_throws_on_long_blank :
  Z.of_nat (length spaces8001) = 8001%Z
  /\ AIService.generateCommitContent toLowerCaseAscii offline noStringify
       (AIService.mkConfig AIService.openai (Some (lit "sk-test")) None None)
       spaces8001
     = ([], Threw (Error AIService.NO_STAGED_FILES)).
Proof. split; vm_compute; reflexivity. Qed.

(** C6 at a text of 8002 units that is not blank, with openai. *)
Lemma generateCommitContent_large_diff_witness :
  isBlank (lit "x" ++ spaces8001) = false
  /\ (8000 < Z.of_nat (length (lit "x" ++ spaces8001)))%Z
  /\ AIService.generateCommitContent toLowerCaseAscii offline noStringify
       (AIService.mkConfig AIService.openai (Some (lit "sk-test")) None None)
       (lit "x" ++ spaces8001)
     = ([], Ok (AIService.generateWithEnhancedRules toLowerCaseAscii
                  (lit "x" ++ spaces8001))).
Proof.
  assert (H1 : isBlank (lit "x" ++ spaces8001) = false)
    by (vm_compute; reflexivity).
  assert (H2 : (8000 < Z.of_nat (length (lit "x" ++ spaces8001)))%Z)
    by (vm_compute; reflexivity).
  split; [exact H1|]. split; [exact H2|].
  apply (generateCommitContent_large_diff toLowerCaseAscii offline
           noStringify
           (AIService.mkConfig AIService.openai (Some (lit "sk-test")) None
              None)
           (lit "x" ++ spaces8001) H1).
  left. split; [left; reflexivity | exact H2].
Defined.

(** ** The gateway at work *)

(** A diff summary of one file with a bug-fix keyword. *)
Example rules_on_login_fix :
  AIService.generateWithEnhancedRules toLowerCaseAscii loginFix
  = AIService.mkContent (JStr (lit "fix")) JUndefined (JStr (lit "修復問題"))
      (JNum 0.85).
Proof. vm_compute. reflexivity. Qed.

(** Gemini blocks the answer for safety: the rule engine's content. *)
Example gemini_safety_block_falls_back :
  snd (AIService.generateCommitContent toLowerCaseAscii
         (answering (quoted "{'candidates':[{'finishReason':'SAFETY'}]}"))
         noStringify geminiConfig loginFix)
  = Ok (AIService.generateWithEnhancedRules toLowerCaseAscii loginFix).
Proof. vm_compute. reflexivity. Qed.

(** Gemini truncates the answer: the rule engine's content. *)
Example gemini_truncation_falls_back :
  snd (AIService.generateCommitContent toLowerCaseAscii
         (answering (quoted "{'candidates':[{'finishReason':'MAX_TOKENS'}]}"))
         noStringify geminiConfig loginFix)
  = Ok (AIService.generateWithEnhancedRules toLowerCaseAscii loginFix).
Proof. vm_compute. reflexivity. Qed.

(** Gemini answers in plain text: the conventional-commit pattern. *)
Example gemini_plain_answer :
  snd (AIService.generateCommitContent toLowerCaseAscii
         (answering
            (quoted "{'candidates':[{'content':{'parts':[{'text':'feat(auth): add login'}]}}]}"))
         noStringify geminiConfig loginFix)
  = Ok (AIService.mkContent (JStr (lit "feat")) (JStr (lit "auth"))
          (JStr (lit "add login")) (JNum 0.7)).
Proof. vm_compute. reflexivity. Qed.

(** OpenAI answers with a JSON object whose confidence is 5: it reaches the
    caller as it is. *)
Example openai_confidence_reaches_caller :
  snd (AIService.generateCommitContent toLowerCaseAscii
         (answering
            (quoted "{'choices':[{'message':{'content':'{\'type\':\'feat\',\'confidence\':5}'}}]}"))
         noStringify
         (AIService.mkConfig AIService.openai (Some (lit "sk-test")) None None)
         loginFix)
  = Ok (AIService.mkContent (JStr (lit "feat")) JUndefined
          (JStr (lit "更新代碼")) (JNum 5)).
Proof. vm_compute. reflexivity. Qed.

(* ===================================================================== *)
(** * Further properties *)
(* ===================================================================== *)

(** ** The rule engine *)

Section MoreRules.

Import AIService.
Local Open Scope Q_scope.

Variable toLowerCase : jsstring -> jsstring.

Local Ltac split_ifs :=
  repeat match goal with
         | |- context [if ?b then _ else _] => destruct b
         end.

Lemma determineCommitType_confidence_range files flags stats :
  0.6 <= snd (determineCommitType toLowerCase files flags stats)
  /\ snd (determineCommitType toLowerCase files flags stats) <= 0.9.
Proof.
  unfold determineCommitType. split_ifs; cbn [snd];
    split; unfold Qle; simpl; lia.
Qed.

(** X1. The confidence of the rule engine lies between 0.6 and 0.9 and is
    the classifier's own value: the cap at 0.9 never changes it. *)
Theorem generateWithEnhancedRules_confidence_is_classifiers
  (diffSummary : jsstring) :
  exists q : Q,
    (generateWithEnhancedRules toLowerCase diffSummary).(confidence) = JNum q
    /\ q = snd (determineCommitType toLowerCase
                  (extractFilePatterns diffSummary)
                  (analyzeContent (toLowerCase diffSummary))
                  (extractChangeStats diffSummary))
    /\ 0.6 <= q /\ q <= 0.9.
Proof.
  unfold generateWithEnhancedRules. cbn [confidence].
  set (t := determineCommitType _ _ _ _).
  destruct (determineCommitType_confidence_range
              (extractFilePatterns diffSummary)
              (analyzeContent (toLowerCase diffSummary))
              (extractChangeStats diffSummary)) as [Hlo Hhi].
  fold t in Hlo, Hhi.
  exists (snd t). unfold Math_min.
  apply Qle_bool_iff in Hhi. rewrite Hhi.
  apply Qle_bool_iff in Hhi. repeat split; trivial.
Qed.

Lemma generateMessage_not_empty type files stats flags :
  exists c t, generateMessage toLowerCase type files stats flags = c :: t.
Proof.
  unfold generateMessage. split_ifs; eexists _, _; reflexivity.
Qed.

(** X2. The message composed by the rule engine is never empty, whatever
    the diff text. *)
Theorem generateWithEnhancedRules_message_not_empty (diffSummary : jsstring) :
  exists c t,
    (generateWithEnhancedRules toLowerCase diffSummary).(message)
    = JStr (c :: t).
Proof.
  unfold generateWithEnhancedRules. cbn [message].
  destruct (generateMessage_not_empty
              (fst (determineCommitType toLowerCase
                      (extractFilePatterns diffSummary)
                      (analyzeContent (toLowerCase diffSummary))
                      (extractChangeStats diffSummary)))
              (extractFilePatterns diffSummary)
              (extractChangeStats diffSummary)
              (analyzeContent (toLowerCase diffSummary))) as (c & t & H).
  exists c, t. now rewrite H.
Qed.

Lemma split_hd_no_separator (sep : codeunit) (s : jsstring) :
  existsb (N.eqb sep) (hd [] (split sep s)) = false.
Proof.
  induction s as [|c s IH]; trivial.
  cbn [split]. destruct (c =? sep)%N eqn:E; trivial.
  destruct (split sep s) as [|w ws]; cbn [hd existsb] in *;
    rewrite N.eqb_sym, E; trivial.
Qed.

Lemma dedupe_incl seen l x : In x (dedupe seen l) -> In x l.
Proof.
  revert seen; induction l as [|y l IH]; intros seen H; trivial.
  cbn [dedupe] in H. destruct (existsb _ seen).
  - right. eauto.
  - destruct H as [->|H]; [now left | right; eauto].
Qed.

(** X3. The scope derived from a list of paths is empty, or it is the
    first segment of one of the paths; in that case it is neither [src] nor
    [.] and holds no slash. *)
Theorem extractScope_is_a_first_segment (files : list jsstring) :
  let s := extractScope toLowerCase files in
  s = []
  \/ ((exists f, In f files /\ s = hd [] (split SLASH f))
      /\ JsString.eqb s (lit "src") = false
      /\ JsString.eqb s (lit ".") = false
      /\ existsb (N.eqb SLASH) s = false).
Proof.
  cbv zeta. unfold extractScope. destruct files as [|f0 files]; [now left|].
  set (fs := f0 :: files).
  set (keep := fun d : jsstring => _ && _ && _).
  set (dirs := filter keep _).
  assert (Hdirs : forall d, In d (dedupe [] dirs) ->
            (exists f, In f fs /\ d = hd [] (split SLASH f))
            /\ JsString.eqb d (lit "src") = false
            /\ JsString.eqb d (lit ".") = false
            /\ existsb (N.eqb SLASH) d = false).
  { intros d Hd. apply dedupe_incl in Hd. apply filter_In in Hd as [Hd Hk].
    apply in_map_iff in Hd as (f & <- & Hf).
    unfold keep in Hk. apply andb_true_iff in Hk as [Hk _].
    apply andb_true_iff in Hk as [Hsrc Hdot].
    apply negb_true_iff in Hsrc, Hdot.
    repeat split; trivial; [eauto | apply split_hd_no_separator]. }
  destruct (dedupe [] dirs) as [|d [|d' rest]] eqn:Hu.
  - now left.
  - right. apply Hdirs. now left.
  - destruct (find _ _) as [found|] eqn:Hfind; [|now left].
    right. apply Hdirs. now apply find_some in Hfind as [Hin _].
Qed.

Lemma span_fst_all (p : codeunit -> bool) (s : jsstring) :
  forallb p (fst (span p s)) = true.
Proof.
  induction s as [|c s IH]; trivial.
  cbn [span]. destruct (p c) eqn:E; trivial.
  destruct (span p s). cbn [fst forallb] in *. now rewrite E.
Qed.

Lemma parseDigits_nonneg (s : jsstring) :
  forallb isDigit s = true -> (0 <= parseDigits s)%Z.
Proof.
  unfold parseDigits.
  assert (H : forall acc, (0 <= acc)%Z -> forallb isDigit s = true ->
                          (0 <= fold_left
                                  (fun a c => a * 10 + (Z.of_N c - 48)) s
                                  acc)%Z).
  { induction s as [|c s IH]; intros acc Hacc Hall; trivial.
    cbn [forallb] in Hall. apply andb_true_iff in Hall as [Hc Hall].
    cbn [fold_left]. apply IH; trivial.
    unfold isDigit in Hc. apply andb_true_iff in Hc as [Hc _].
    apply N.leb_le in Hc. lia. }
  apply H. lia.
Qed.

Lemma firstDigitRun_digits (m : jsstring) :
  forallb isDigit (firstDigitRun m) = true.
Proof.
  induction m as [|c m IH]; trivial.
  cbn [firstDigitRun]. destruct (isDigit c); trivial.
  apply span_fst_all.
Qed.

Lemma matchAllRun_shape pre cls (s : jsstring) :
  forall skip m,
    In m (matchAllRun pre cls skip s) ->
    exists run, m = pre ++ run /\ forallb cls run = true.
Proof.
  induction s as [|c s IH]; intros skip m H; [destruct H|].
  cbn [matchAllRun] in H. destruct skip as [|k]; [|eauto].
  destruct (startsWith (c :: s) pre); [|eauto].
  pose proof (span_fst_all cls (skipn (length pre) (c :: s))) as Hrun.
  destruct (fst (span cls (skipn (length pre) (c :: s)))) as [|x run];
    [eauto|].
  destruct H as [<-|H]; eauto.
Qed.

Lemma sum_counts_nonneg (l : list jsstring) :
  (0 <= fold_left
          (fun acc m => acc + parseDigits (firstDigitRun m)) l 0)%Z.
Proof.
  assert (H : forall acc, (0 <= acc)%Z ->
                          (0 <= fold_left
                                  (fun a m =>
                                     a + parseDigits (firstDigitRun m)) l
                                  acc)%Z).
  { induction l as [|m l IH]; intros acc Hacc; trivial.
    cbn [fold_left]. apply IH.
    pose proof (parseDigits_nonneg _ (firstDigitRun_digits m)). lia. }
  apply H. lia.
Qed.

(** X4. Whatever the text, the statistics read from it are not negative:
    additions, deletions and the file count. *)
Theorem extractChangeStats_not_negative (summary : jsstring) :
  (0 <= (extractChangeStats summary).(additions))%Z
  /\ (0 <= (extractChangeStats summary).(deletions))%Z
  /\ (0 <= (extractChangeStats summary).(fileCount))%Z.
Proof.
  unfold extractChangeStats. cbn [additions deletions fileCount].
  split; [apply sum_counts_nonneg|]. split; [apply sum_counts_nonneg|].
  destruct (matchAllRun (lit "變更檔案數量: ") isDigit 0 summary)
    as [|m ms] eqn:Hm; [lia|].
  assert (Hin : In m (matchAllRun (lit "變更檔案數量: ") isDigit 0 summary))
    by (rewrite Hm; now left).
  apply matchAllRun_shape in Hin as (run & -> & Hrun).
  rewrite skipn_app, skipn_all, Nat.sub_diag. cbn [app skipn].
  now apply parseDigits_nonneg.
Qed.

End MoreRules.

(** ** The condensed summary *)

Section MoreSummary.

Import AIService.

Lemma takeSections_length (sections : list jsstring) :
  forall current,
    (current <= 750)%nat ->
    (length (takeSections current sections) + current <= 750)%nat.
Proof.
  induction sections as [|section rest IH]; intros current H; [exact H|].
  cbn [takeSections].
  change (800 - 50)%nat with 750%nat.
  destruct (current + length section + 1 <=? 750)%nat eqn:E; [|exact H].
  apply Nat.leb_le in E. specialize (IH _ E).
  rewrite !length_app. cbn [length]. lia.
Qed.

Lemma digits_go_length fuel :
  forall n acc,
    (length (digits_go fuel n acc) <= fuel + length acc)%nat.
Proof.
  induction fuel as [|fuel IH]; intros n acc; cbn [digits_go]; [lia|].
  destruct (n <? 10)%N; cbn [length]; [lia|].
  specialize (IH (n / 10)%N ((48 + n mod 10)%N :: acc)).
  cbn [length] in IH. lia.
Qed.

Lemma natToString_short (n : nat) :
  (Z.of_nat n < 2 ^ 34)%Z -> (length (natToString n) <= 36)%nat.
Proof.
  intro H. unfold natToString, NToString.
  pose proof (digits_go_length (S (N.size_nat (N.of_nat n))) (N.of_nat n) [])
    as Hlen.
  cbn [length] in Hlen.
  assert (Hsize : (N.size_nat (N.of_nat n) <= 35)%nat).
  { destruct (N.of_nat n) as [|p] eqn:Hp; cbn [N.size_nat]; [lia|].
    change 35%nat with (Pos.size_nat (2 ^ 34)).
    apply Pos.size_nat_monotone.
    assert (Z.pos p < 2 ^ 34)%Z; [|lia].
    replace (Z.pos p) with (Z.of_N (N.of_nat n)) by now rewrite Hp.
    now rewrite nat_N_Z. }
  lia.
Qed.

Lemma not_gt_lengthOf (s : jsstring) (n : Z) :
  gt (lengthOf s) (inject_Z n) = false -> (Z.of_nat (length s) <= n)%Z.
Proof. rewrite gt_lengthOf. apply Z.ltb_ge. Qed.

Lemma truncateDiffForGemini_length (diffSummary : jsstring) :
  (Z.of_nat (length diffSummary) < 2 ^ 34)%Z ->
  (length (truncateDiffForGemini diffSummary) <= 800)%nat.
Proof.
  intro Hshort. unfold truncateDiffForGemini. cbv zeta.
  change GEMINI_SUMMARY_LENGTH with (inject_Z 800).
  destruct (Qle_bool (lengthOf diffSummary) (inject_Z 800)) eqn:Hsmall.
  - assert (Hgt : gt (lengthOf diffSummary) (inject_Z 800) = false)
      by (unfold gt; now rewrite Hsmall).
    apply not_gt_lengthOf in Hgt. lia.
  - match goal with
    | |- context [if gt (lengthOf ?s) _ then _ else _] =>
        destruct (gt (lengthOf s) (inject_Z 800)) eqn:Hlong
    end.
    + rewrite !length_app.
      match goal with
      | |- context [takeSections 0 ?l] =>
          pose proof (@takeSections_length l 0 (Nat.le_0_l _)) as Htake
      end.
      pose proof (@natToString_short (length diffSummary) Hshort) as Hdigits.
      change (length (lit "(智能摘要，原始 ")) with 9%nat.
      change (length (lit " 字符)")) with 4%nat.
      cbn [length]. lia.
    + apply not_gt_lengthOf in Hlong. lia.
Qed.

Lemma truncateDiffForGemini_under_ceiling (diffSummary : jsstring) :
  (Z.of_nat (length diffSummary) < 2 ^ 34)%Z ->
  gt (lengthOf (truncateDiffForGemini diffSummary))
    (GEMINI_SUMMARY_LENGTH * 1.5) = false.
Proof.
  intro Hshort.
  pose proof (@truncateDiffForGemini_length diffSummary Hshort) as H.
  rewrite gt_lengthOf_ceiling. apply Z.ltb_ge. lia.
Qed.

(** X5. For every diff text shorter than 2^34 units the condensed text has
    at most 800 units, so it never exceeds the ceiling of 1200 units that
    [generateWithGemini] tests before giving up on the provider. *)
Theorem truncateDiffForGemini_bounded (diffSummary : jsstring) :
  (Z.of_nat (length diffSummary) < 2 ^ 34)%Z ->
  (length (truncateDiffForGemini diffSummary) <= 800)%nat
  /\ gt (lengthOf (truncateDiffForGemini diffSummary))
       (GEMINI_SUMMARY_LENGTH * 1.5) = false.
Proof.
  intro Hshort. split.
  - now apply truncateDiffForGemini_length.
  - now apply truncateDiffForGemini_under_ceiling.
Qed.

End MoreSummary.

(** X5 at a diff text of 5433 units. *)
Lemma truncateDiffForGemini_bounded_witness :
  (Z.of_nat (length largeDiff) < 2 ^ 34)%Z
  /\ (length (AIService.truncateDiffForGemini largeDiff) <= 800)%nat.
Proof.
  assert (H : (Z.of_nat (length largeDiff) < 2 ^ 34)%Z)
    by (vm_compute; reflexivity).
  split; [exact H|].
  exact (proj1 (@truncateDiffForGemini_bounded largeDiff H)).
Defined.

(** ** The gateway: requests and notifications *)

Section MoreGateway.

Import AIService.

Variable toLowerCase : jsstring -> jsstring.
Variable fetch : Request -> Exc Response.
Variable JSON_stringify : JsValue -> jsstring.

Let rulesOf := generateWithEnhancedRules toLowerCase.
Let gateway := generateCommitContent toLowerCase fetch JSON_stringify.

Lemma requests_app (a b : list Event) :
  requests (a ++ b) = (requests a + requests b)%nat.
Proof. unfold requests. now rewrite filter_app, length_app. Qed.

Lemma atmost_nil {A} n (m : M A) : fst m = [] -> AtMost n m.
Proof. unfold AtMost. intros ->. apply Nat.le_0_l. Qed.

Lemma atmost_bind_quiet {A B} n (m : M A) (k : A -> M B) :
  requests (fst m) = 0%nat -> (forall x, AtMost n (k x)) ->
  AtMost n (bind m k).
Proof.
  unfold AtMost. intros Hm Hk. destruct m as [tr [e|a]]; simpl in *.
  - lia.
  - specialize (Hk a). destruct (k a) as [tr' x]. simpl in *.
    rewrite requests_app. lia.
Qed.

Lemma atmost_bind_fetch {B} n r (k : Response -> M B) :
  (forall x, AtMost n (k x)) -> AtMost (S n) (bind (await_fetch fetch r) k).
Proof.
  unfold AtMost, await_fetch, bind. intro Hk.
  destruct (fetch r) as [e|a]; [cbn; lia|].
  specialize (Hk a). destruct (k a) as [tr' x]. cbn [fst] in *.
  rewrite requests_app. change (requests [Fetched r]) with 1%nat. lia.
Qed.

Lemma atmost_bind {A B} a b (m : M A) (k : A -> M B) :
  AtMost a m -> (forall x, AtMost b (k x)) -> AtMost (a + b) (bind m k).
Proof.
  unfold AtMost. intros Hm Hk. destruct m as [tr [e|x]]; simpl in *.
  - lia.
  - specialize (Hk x). destruct (k x) as [tr' y]. simpl in *.
    rewrite requests_app. lia.
Qed.

Lemma atmost_tryCatch {A} a b (m : M A) handler :
  AtMost a m -> (forall e, AtMost b (handler e)) ->
  AtMost (a + b) (tryCatch m handler).
Proof.
  unfold AtMost. intros Hm Hh. destruct m as [tr [e|x]]; simpl in *.
  - specialize (Hh e). destruct (handler e) as [tr' y]. simpl in *.
    rewrite requests_app. lia.
  - lia.
Qed.

Lemma atmost_le {A} a b (m : M A) : AtMost a m -> (a <= b)%nat -> AtMost b m.
Proof. unfold AtMost. lia. Qed.

Local Ltac count :=
  repeat first
    [ apply atmost_nil; reflexivity
    | apply atmost_bind_fetch; intros
    | apply atmost_bind_quiet; [reflexivity | intros]
    | progress cbv zeta
    | match goal with
      | |- AtMost _ (if ?b then _ else _) => destruct b
      end ].

Lemma generateWithOpenAI_requests config d :
  AtMost 1 (generateWithOpenAI fetch config d).
Proof. unfold generateWithOpenAI. count. Qed.

Lemma generateWithAnthropic_requests config d :
  AtMost 1 (generateWithAnthropic fetch config d).
Proof. unfold generateWithAnthropic. count. Qed.

Lemma generateWithGemini_send_requests_count config d processed :
  AtMost 2 (generateWithGemini_send toLowerCase fetch JSON_stringify config d
              processed).
Proof.
  unfold generateWithGemini_send.
  apply atmost_bind with (a := 1%nat) (b := 1%nat).
  - apply atmost_tryCatch with (a := 1%nat) (b := 0%nat);
      [count | intros; count].
  - intros _. count.
Qed.

Lemma generateWithGemini_requests config d :
  AtMost 2 (generateWithGemini toLowerCase fetch JSON_stringify config d).
Proof.
  unfold generateWithGemini. destruct (negb _); [count|].
  destruct (gt _ _); [cbv zeta; destruct (gt _ _)|].
  - count.
  - apply atmost_bind_quiet; [reflexivity|]. intros _.
    apply generateWithGemini_send_requests_count.
  - apply generateWithGemini_send_requests_count.
Qed.

Lemma generateWithLocalAI_requests config d :
  AtMost 2 (generateWithLocalAI fetch config d).
Proof.
  unfold generateWithLocalAI. destruct (negb _); [count|]. cbv zeta.
  apply atmost_bind with (a := 1%nat) (b := 1%nat).
  - apply atmost_tryCatch with (a := 1%nat) (b := 0%nat);
      [count | intros; count].
  - intros _. count.
Qed.

Lemma showProviderError_quiet config e :
  requests (fst (showProviderError config e)) = 0%nat.
Proof.
  unfold showProviderError.
  repeat match goal with
         | |- context [if ?b then _ else _] => destruct b
         end; reflexivity.
Qed.

Lemma gateway_requests_from_dispatch n config d :
  AtMost n (dispatch toLowerCase fetch JSON_stringify config d) ->
  AtMost n (gateway config d).
Proof.
  intro H. unfold gateway, generateCommitContent.
  destruct (isBlank d); [count|]. cbv zeta. destruct (_ && _); [count|].
  replace n with (n + 0)%nat by lia.
  apply atmost_tryCatch; trivial. intro e.
  apply atmost_bind_quiet; [apply showProviderError_quiet|]. intros. count.
Qed.

(** X6. One call of the gateway sends at most two requests, whatever the
    host answers: none with the rule engine as provider, at most one with
    openai or anthropic, at most two (a check and the generation) with
    gemini or local.  Nothing is ever retried. *)
Theorem generateCommitContent_request_count config (diffSummary : jsstring) :
  AtMost 2 (generateCommitContent toLowerCase fetch JSON_stringify config
              diffSummary)
  /\ (config.(provider) = rules ->
      AtMost 0 (generateCommitContent toLowerCase fetch JSON_stringify
                  config diffSummary))
  /\ (config.(provider) = openai \/ config.(provider) = anthropic ->
      AtMost 1 (generateCommitContent toLowerCase fetch JSON_stringify
                  config diffSummary)).
Proof.
  fold gateway.
  assert (H2 : AtMost 2 (dispatch toLowerCase fetch JSON_stringify config
                            diffSummary)).
  { unfold dispatch. destruct (provider config).
    - apply atmost_le with (a := 1%nat);
        [apply generateWithOpenAI_requests|lia].
    - apply atmost_le with (a := 1%nat);
        [apply generateWithAnthropic_requests|lia].
    - apply generateWithGemini_requests.
    - apply generateWithLocalAI_requests.
    - count. }
  split; [now apply gateway_requests_from_dispatch|]. split.
  - intro Hp. apply gateway_requests_from_dispatch.
    unfold dispatch. rewrite Hp. count.
  - intro Hp. apply gateway_requests_from_dispatch.
    unfold dispatch. destruct Hp as [-> | ->].
    + apply generateWithOpenAI_requests.
    + apply generateWithAnthropic_requests.
Qed.

Lemma silent_nil {A} (m : M A) : fst m = [] -> Silent m.
Proof. intros H ev Hin. rewrite H in Hin. destruct Hin. Qed.

Lemma silent_fetch r : Silent (await_fetch fetch r).
Proof. intros ev [<-|[]]. now exists r. Qed.

Lemma silent_bind {A B} (m : M A) (k : A -> M B) :
  Silent m -> (forall x, Silent (k x)) -> Silent (bind m k).
Proof.
  intros Hm Hk ev. destruct m as [tr [e|a]]; simpl.
  - apply Hm.
  - specialize (Hk a ev). destruct (k a) as [tr' x]. simpl in *.
    intro Hin. apply in_app_or in Hin as [Hin|Hin]; [now apply Hm | auto].
Qed.

Lemma silent_tryCatch {A} (m : M A) handler :
  Silent m -> (forall e, Silent (handler e)) -> Silent (tryCatch m handler).
Proof.
  intros Hm Hh ev. destruct m as [tr [e|a]]; simpl.
  - specialize (Hh e ev). destruct (handler e) as [tr' x]. simpl in *.
    intro Hin. apply in_app_or in Hin as [Hin|Hin]; [now apply Hm | auto].
  - apply Hm.
Qed.

Local Ltac silent :=
  repeat first
    [ apply silent_nil; reflexivity
    | apply silent_fetch
    | apply silent_bind; intros
    | progress cbv zeta
    | match goal with
      | |- Silent (if ?b then _ else _) => destruct b
      end ].

(** X7. With anthropic as provider the gateway never shows a notification:
    whatever goes wrong (no key, no network, a refusal, an answer that
    cannot be read), the only events of a call are its requests. *)
Theorem generateCommitContent_anthropic_silent
  (key model endpoint : option jsstring) (diffSummary : jsstring) :
  Silent (generateCommitContent toLowerCase fetch JSON_stringify
            (mkConfig anthropic key model endpoint) diffSummary).
Proof.
  unfold generateCommitContent.
  destruct (isBlank diffSummary); [silent|]. cbv zeta.
  destruct (_ && _); [silent|].
  apply silent_tryCatch.
  - unfold dispatch. cbn [provider]. unfold generateWithAnthropic. silent.
  - intro e. silent.
Qed.

Lemma gateway_throwing_dispatch config d e :
  isBlank d = false ->
  dispatch toLowerCase fetch JSON_stringify config d = ([], Threw e) ->
  exists tr, gateway config d = (tr, Ok (rulesOf d)) /\ requests tr = 0%nat.
Proof.
  intros Hblank Hd. unfold gateway, generateCommitContent.
  rewrite Hblank. cbv zeta.
  destruct (_ && _); [now exists []|].
  rewrite Hd. unfold tryCatch, bind.
  pose proof (showProviderError_quiet config e) as Hq.
  destruct (showProviderError_returns config e) as [tr' Hshow].
  rewrite Hshow in *. cbn [fst] in Hq. cbn [app ret].
  exists (tr' ++ []). split; trivial. now rewrite app_nil_r.
Qed.

(** X8. When the configured provider lacks what it needs (no API key for
    openai, anthropic or gemini, no endpoint for local), and when the
    provider is the rule engine, the gateway sends no request at all and
    returns the rule engine's content for the diff text. *)
Theorem generateCommitContent_unconfigured config (diffSummary : jsstring) :
  isBlank diffSummary = false ->
  isConfigured config = false \/ config.(provider) = rules ->
  exists tr,
    generateCommitContent toLowerCase fetch JSON_stringify config diffSummary
    = (tr, Ok (generateWithEnhancedRules toLowerCase diffSummary))
    /\ requests tr = 0%nat.
Proof.
  intros Hblank Hc. fold gateway. fold (rulesOf diffSummary).
  destruct config as [p key model ep]. cbn [provider] in Hc.
  unfold isConfigured in Hc. cbn [provider apiKey endpoint] in Hc.
  destruct p.
  - destruct Hc as [Hc|Hc]; [|discriminate].
    eapply gateway_throwing_dispatch; trivial.
    unfold dispatch, generateWithOpenAI. cbn [provider apiKey].
    rewrite Hc. reflexivity.
  - destruct Hc as [Hc|Hc]; [|discriminate].
    eapply gateway_throwing_dispatch; trivial.
    unfold dispatch, generateWithAnthropic. cbn [provider apiKey].
    rewrite Hc. reflexivity.
  - destruct Hc as [Hc|Hc]; [|discriminate].
    eapply gateway_throwing_dispatch; trivial.
    unfold dispatch, generateWithGemini. cbn [provider apiKey].
    rewrite Hc. reflexivity.
  - destruct Hc as [Hc|Hc]; [|discriminate].
    eapply gateway_throwing_dispatch; trivial.
    unfold dispatch, generateWithLocalAI. cbn [provider endpoint].
    rewrite Hc. reflexivity.
  - unfold gateway, generateCommitContent. rewrite Hblank.
    now exists [].
Qed.

Lemma mentions_api_key (x : jsstring) :
  includes
    (lit "Cannot connect to Google Gemini: " ++ x
     ++ lit ". Please check your API key and internet connection.")
    (lit "API key") = true.
Proof. do 2 apply includes_app_r. reflexivity. Qed.

Lemma showProviderError_gemini_key config msg :
  config.(provider) = gemini ->
  includes msg (lit "API key") = true ->
  showProviderError config (Error msg) = ([GEMINI_KEY_WARNING], Ok tt).
Proof.
  intros Hp Hin. destruct msg as [|c t]; [discriminate Hin|].
  unfold showProviderError. rewrite Hp.
  cbn [error_message Error provider_eqb andb]. cbv zeta.
  now rewrite Hin.
Qed.

Lemma generateWithGemini_send_check_fails config d processed :
  (exists e, fetch (geminiTestRequest config) = Threw e)
  \/ (exists response,
        fetch (geminiTestRequest config) = Ok response
        /\ response.(ok) = false) ->
  exists x,
    generateWithGemini_send toLowerCase fetch JSON_stringify config d
      processed
    = ([Fetched (geminiTestRequest config)],
       Threw (Error
                (lit "Cannot connect to Google Gemini: " ++ x
                 ++ lit ". Please check your API key and internet connection."))).
Proof.
  intros [[e He]|(response & Hr & Hok)]; unfold generateWithGemini_send;
    unfold await_fetch at 1; unfold bind at 2.
  - rewrite He. eexists. reflexivity.
  - rewrite Hr, Hok. cbn [negb]. unfold bind at 2, liftE.
    destruct (text response) as [e|t]; eexists; reflexivity.
Qed.

(** X9. With gemini and a key configured, when the key check request
    fails (it is rejected, or answered with a status that is not a success)
    the gateway sends nothing more, shows the warning that the API key is
    not set, and returns the rule engine's content. *)
Theorem generateCommitContent_gemini_check_fails config
  (diffSummary : jsstring) :
  config.(provider) = gemini ->
  isSet config.(apiKey) = true ->
  isBlank diffSummary = false ->
  (Z.of_nat (length diffSummary) < 2 ^ 34)%Z ->
  (exists e, fetch (geminiTestRequest config) = Threw e)
  \/ (exists response,
        fetch (geminiTestRequest config) = Ok response
        /\ response.(ok) = false) ->
  exists notice,
    generateCommitContent toLowerCase fetch JSON_stringify config diffSummary
    = (notice ++ [Fetched (geminiTestRequest config); GEMINI_KEY_WARNING],
       Ok (generateWithEnhancedRules toLowerCase diffSummary))
    /\ (notice = [] \/ notice = [InformationShown NOTICE_CONDENSING]).
Proof.
  intros Hp Hkey Hblank Hshort Hfail.
  unfold generateCommitContent. rewrite Hblank. cbv zeta. rewrite Hp.
  cbn [provider_eqb negb]. rewrite andb_false_r.
  assert (Hshow : forall x,
             showProviderError config
               (Error (lit "Cannot connect to Google Gemini: " ++ x
                       ++ lit ". Please check your API key and internet connection."))
             = ([GEMINI_KEY_WARNING], Ok tt)).
  { intro x. apply showProviderError_gemini_key; trivial.
    apply mentions_api_key. }
  unfold dispatch. rewrite Hp. unfold generateWithGemini. rewrite Hkey.
  cbn [negb].
  destruct (gt (lengthOf diffSummary) GEMINI_MAX_DIFF_LENGTH).
  - cbv zeta.
    rewrite (@truncateDiffForGemini_under_ceiling diffSummary Hshort).
    destruct (@generateWithGemini_send_check_fails config diffSummary
                (truncateDiffForGemini diffSummary) Hfail) as [x Hx].
    rewrite Hx. unfold bind at 2, emit. unfold tryCatch, bind.
    rewrite Hshow. exists [InformationShown NOTICE_CONDENSING].
    split; [reflexivity | now right].
  - destruct (@generateWithGemini_send_check_fails config diffSummary
                diffSummary Hfail) as [x Hx].
    rewrite Hx. unfold tryCatch, bind. rewrite Hshow.
    exists []. split; [reflexivity | now left].
Qed.

End MoreGateway.

(** X8 with openai and no key, on a host that would answer. *)
Lemma generateCommitContent_unconfigured_witness :
  isBlank loginFix = false
  /\ AIService.isConfigured
       (AIService.mkConfig AIService.openai None None None) = false
  /\ exists tr,
       AIService.generateCommitContent toLowerCaseAscii (answering [])
         noStringify (AIService.mkConfig AIService.openai None None None)
         loginFix
       = (tr, Ok (AIService.generateWithEnhancedRules toLowerCaseAscii
                    loginFix))
       /\ requests tr = 0%nat.
Proof.
  assert (H1 : isBlank loginFix = false) by (vm_compute; reflexivity).
  assert (H2 : AIService.isConfigured
                 (AIService.mkConfig AIService.openai None None None) = false)
    by reflexivity.
  split; [exact H1|]. split; [exact H2|].
  apply (generateCommitContent_unconfigured toLowerCaseAscii (answering [])
           noStringify
           (AIService.mkConfig AIService.openai None None None) loginFix H1).
  left. exact H2.
Defined.

(** X9 on a host without network. *)
Lemma generateCommitContent_gemini_check_fails_witness :
  exists notice,
    AIService.generateCommitContent toLowerCaseAscii offline noStringify
      geminiConfig loginFix
    = (notice ++ [AIService.Fetched (AIService.geminiTestRequest geminiConfig);
                  GEMINI_KEY_WARNING],
       Ok (AIService.generateWithEnhancedRules toLowerCaseAscii loginFix))
    /\ (notice = []
        \/ notice = [AIService.InformationShown AIService.NOTICE_CONDENSING]).
Proof.
  apply (generateCommitContent_gemini_check_fails toLowerCaseAscii offline
           noStringify geminiConfig loginFix).
  - reflexivity.
  - reflexivity.
  - vm_compute; reflexivity.
  - vm_compute; reflexivity.
  - left. eexists. reflexivity.
Defined.

(** ** The parser of answers *)

Section MoreParser.

Import AIService.
Local Open Scope N_scope.

Lemma fromFirst_none (p : codeunit -> bool) (s : jsstring) :
  existsb p s = false -> fromFirst p s = None.
Proof.
  induction s as [|c t IH]; trivial. cbn [existsb fromFirst].
  destruct (p c); [discriminate | exact IH].
Qed.

Lemma existsb_app_false (p : codeunit -> bool) (a b : jsstring) :
  existsb p a = false -> existsb p b = false -> existsb p (a ++ b) = false.
Proof. intros Ha Hb. now rewrite existsb_app, Ha, Hb. Qed.

Lemma skipn_length_app (a b : jsstring) : skipn (length a) (a ++ b) = b.
Proof. induction a; trivial. Qed.

Lemma span_stop (p : codeunit -> bool) (a : jsstring) x r :
  forallb p a = true -> p x = false -> span p (a ++ x :: r) = (a, x :: r).
Proof.
  intros Ha Hx. induction a as [|c t IH].
  - cbn [app span]. now rewrite Hx.
  - cbn [forallb] in Ha. apply andb_true_iff in Ha as [Hc Ht].
    cbn [app span]. now rewrite Hc, (IH Ht).
Qed.

Lemma span_all (p : codeunit -> bool) (a : jsstring) :
  forallb p a = true -> span p a = (a, []).
Proof.
  intro Ha. induction a as [|c t IH]; trivial.
  cbn [forallb] in Ha. apply andb_true_iff in Ha as [Hc Ht].
  cbn [span]. now rewrite Hc, (IH Ht).
Qed.

Lemma find_commitType (ty rest : jsstring) :
  In ty commitTypes ->
  find (startsWith (ty ++ rest)) commitTypes = Some ty.
Proof.
  intro Hin. unfold commitTypes in Hin. cbn [In] in Hin.
  repeat (destruct Hin as [<-|Hin];
          [destruct rest; vm_compute; reflexivity|]).
  destruct Hin.
Qed.

Lemma commitType_no_brace (ty : jsstring) :
  In ty commitTypes -> existsb (N.eqb 123) ty = false.
Proof.
  intro Hin. unfold commitTypes in Hin. cbn [In] in Hin.
  repeat (destruct Hin as [<-|Hin]; [vm_compute; reflexivity|]).
  destruct Hin.
Qed.

Lemma matchCommit_formatCommitMessage (ty sc msg : jsstring) :
  In ty commitTypes ->
  forallb (fun c => negb (c =? 41)) sc = true ->
  forallb (fun c => negb (isLineTerminator c)) msg = true ->
  (0 < length msg)%nat ->
  matchCommit (GitService.formatCommitMessage ty sc msg) = Some (ty, sc, msg).
Proof.
  intros Hty Hsc Hmsg Hlen.
  destruct msg as [|m ms]; [inversion Hlen|].
  unfold matchCommit, GitService.formatCommitMessage.
  rewrite (find_commitType _ Hty). cbv zeta. rewrite skipn_length_app.
  destruct sc as [|c t].
  - change ([] ++ lit ": " ++ m :: ms) with (58 :: 32 :: m :: ms).
    cbn [N.eqb Pos.eqb].
    change (startsWith (58 :: 32 :: m :: ms) (lit ": ")) with true.
    cbn [skipn].
    rewrite span_all by exact Hmsg. reflexivity.
  - change ((lit "(" ++ (c :: t) ++ lit ")") ++ lit ": " ++ m :: ms)
      with (40 :: ((c :: t) ++ lit ")") ++ 58 :: 32 :: m :: ms).
    rewrite <- app_assoc. change (lit ")" ++ 58 :: 32 :: m :: ms)
      with (41 :: 58 :: 32 :: m :: ms).
    cbn [N.eqb Pos.eqb]. rewrite span_stop; [|exact Hsc|reflexivity].
    change (startsWith (58 :: 32 :: m :: ms) (lit ": ")) with true.
    cbn [skipn].
    rewrite span_all by exact Hmsg. reflexivity.
Qed.

(** X10. The parser reads back the format the panel commits with: a text
    [type(scope): message], or [type: message] when the scope is empty, as
    [formatCommitMessage] builds it, is parsed into that type, that scope
    and that message (without quote characters and white space at its
    ends), with confidence 0.7.  The type is one of the eleven, the scope
    has no closing parenthesis, the message is one non-empty line, and the
    text has no opening brace. *)
Theorem parseAIResponse_reads_formatted_message (ty sc msg : jsstring) :
  In ty commitTypes ->
  forallb (fun c => negb (c =? 41)) sc = true ->
  forallb (fun c => negb (isLineTerminator c)) msg = true ->
  (0 < length msg)%nat ->
  existsb (N.eqb 123) (sc ++ msg) = false ->
  parseAIResponse (GitService.formatCommitMessage ty sc msg)
  = mkContent (JStr ty) (strOrUndefined sc)
      (JStr (trim (stripQuotes msg))) (JNum 0.7).
Proof.
  intros Hty Hsc Hmsg Hlen Hbrace.
  rewrite existsb_app in Hbrace. apply orb_false_iff in Hbrace as [Hb1 Hb2].
  unfold parseAIResponse.
  assert (Hnone : matchBraces (GitService.formatCommitMessage ty sc msg)
                  = None).
  { assert (Hnb : existsb (N.eqb 123)
                    (GitService.formatCommitMessage ty sc msg) = false).
    { unfold GitService.formatCommitMessage. cbv zeta.
      apply existsb_app_false; [exact (commitType_no_brace Hty)|].
      destruct sc as [|c t];
        repeat first [exact Hb1 | exact Hb2 | reflexivity
                     | apply existsb_app_false]. }
    unfold matchBraces. now rewrite (@fromFirst_none _ _ Hnb). }
  rewrite Hnone. cbv zeta.
  now rewrite matchCommit_formatCommitMessage.
Qed.

(** X11. An answer without an opening brace is read as plain text: the
    content has confidence 0.7, its type is one of the eleven commit types
    ([chore] when the text does not start as a commit message), and all its
    fields have the types of [AICommitContent]. *)
Theorem parseAIResponse_plain_text (response : jsstring) :
  existsb (N.eqb 123) response = false ->
  (exists ty, (parseAIResponse response).(type) = JStr ty
              /\ In ty commitTypes)
  /\ (parseAIResponse response).(confidence) = JNum 0.7
  /\ WellTyped (parseAIResponse response).
Proof.
  intro Hbrace. unfold parseAIResponse, matchBraces.
  rewrite (@fromFirst_none _ _ Hbrace). cbv zeta.
  assert (Hscope : forall s, strOrUndefined s = JUndefined
                             \/ exists s', strOrUndefined s = JStr s').
  { intros [|c t]; [now left | right; now eexists]. }
  destruct (matchCommit response) as [[[ty sc] msg]|] eqn:Hm.
  - assert (Hin : In ty commitTypes).
    { unfold matchCommit in Hm.
      destruct (find (startsWith response) commitTypes) as [ty'|] eqn:Hf;
        [|discriminate].
      apply find_some in Hf as [Hin _].
      destruct (match skipn (length ty') response with
                | [] => _ | _ :: _ => _ end) as [[sc' r]|]; [|discriminate].
      destruct (startsWith r (lit ": ")); [|discriminate].
      destruct (fst _); [discriminate|]. now inversion Hm; subst. }
    cbn [type confidence]. split; [now exists ty|]. split; trivial.
    repeat split; cbn [type scope message confidence];
      try (now eexists); apply Hscope.
  - cbn [type confidence]. split.
    + exists (lit "chore"). split; trivial.
      unfold commitTypes. cbn [In]. tauto.
    + split; trivial.
      repeat split; cbn [type scope message confidence];
        try (now eexists). now left.
Qed.

End MoreParser.

(** X10 on the message of a bug fix with a scope. *)
Lemma parseAIResponse_reads_formatted_message_witness :
  AIService.parseAIResponse
    (GitService.formatCommitMessage (lit "fix") (lit "auth")
       (lit "handle expired tokens"))
  = AIService.mkContent (JStr (lit "fix")) (JStr (lit "auth"))
      (JStr (lit "handle expired tokens")) (JNum 0.7).
Proof.
  apply (@parseAIResponse_reads_formatted_message (lit "fix") (lit "auth")
           (lit "handle expired tokens")).
  - vm_compute. tauto.
  - vm_compute; reflexivity.
  - vm_compute; reflexivity.
  - vm_compute. lia.
  - vm_compute; reflexivity.
Defined.

(** X11 on an answer that is a sentence. *)
Lemma parseAIResponse_plain_text_witness :
  (exists ty,
      (AIService.parseAIResponse (lit "Updated the login flow")).(AIService.type)
      = JStr ty /\ In ty AIService.commitTypes)
  /\ (AIService.parseAIResponse (lit "Updated the login flow")).(AIService.confidence)
     = JNum 0.7
  /\ WellTyped (AIService.parseAIResponse (lit "Updated the login flow")).
Proof.
  apply (@parseAIResponse_plain_text (lit "Updated the login flow")).
  vm_compute; reflexivity.
Defined.

(** ** Strings *)

Section MoreStrings.

Local Open Scope N_scope.

Lemma trimStart_idempotent (s : jsstring) :
  trimStart (trimStart s) = trimStart s.
Proof.
  induction s as [|c t IH]; trivial.
  cbn [trimStart]. destruct (isWhiteSpace c) eqn:E; trivial.
  cbn [trimStart]. now rewrite E.
Qed.

Lemma trimStart_snoc (s : jsstring) (c : codeunit) :
  isWhiteSpace c = false -> trimStart (s ++ [c]) = trimStart s ++ [c].
Proof.
  intro Hc. induction s as [|x t IH]; cbn [app trimStart].
  - now rewrite Hc.
  - now destruct (isWhiteSpace x).
Qed.

Lemma trimStart_shape (s : jsstring) :
  trimStart s = []
  \/ exists c t, trimStart s = c :: t /\ isWhiteSpace c = false.
Proof.
  induction s as [|x t IH]; [now left|].
  cbn [trimStart]. destruct (isWhiteSpace x) eqn:E; trivial.
  right. now exists x, t.
Qed.

Lemma trimEnd_cons (c : codeunit) (t : jsstring) :
  isWhiteSpace c = false -> trimEnd (c :: t) = c :: trimEnd t.
Proof.
  intro Hc. unfold trimEnd. cbn [rev].
  now rewrite trimStart_snoc, rev_app_distr.
Qed.

Lemma trimEnd_idempotent (s : jsstring) : trimEnd (trimEnd s) = trimEnd s.
Proof.
  unfold trimEnd. now rewrite rev_involutive, trimStart_idempotent.
Qed.

(** Trimming twice is trimming once. *)
Lemma trim_idempotent (s : jsstring) : trim (trim s) = trim s.
Proof.
  unfold trim. destruct (trimStart_shape s) as [H|(c & t & H & Hc)];
    rewrite H.
  - reflexivity.
  - rewrite (@trimEnd_cons c t Hc). cbn [trimStart]. rewrite Hc.
    rewrite <- (@trimEnd_cons c t Hc). apply trimEnd_idempotent.
Qed.

Lemma trim_not_blank (s : jsstring) :
  trim s = [] \/ isBlank (trim s) = false.
Proof.
  unfold isBlank. rewrite trim_idempotent.
  destruct (trim s); [now left | now right].
Qed.

End MoreStrings.

(** ** The file list *)

Section MoreFileList.

Import GitService.
Local Open Scope N_scope.

Lemma getStatusInfo_listed (code : codeunit) :
  In (getStatusInfo code) statusTable.
Proof.
  unfold getStatusInfo, statusTable.
  repeat match goal with
         | |- context [if ?b then _ else _] => destruct b
         end; cbn [In]; tauto.
Qed.

Lemma known_from_status_info (p : jsstring) (code : codeunit) (b : bool) :
  KnownEntry
    (mkGitFileStatus p (fst (getStatusInfo code)) (snd (getStatusInfo code))
       b).
Proof.
  split; cbn [status description staged].
  - rewrite <- surjective_pairing. apply getStatusInfo_listed.
  - intro H. pose proof (getStatusInfo_not_untracked code) as Hn.
    rewrite H in Hn. discriminate Hn.
Qed.

Lemma processLine_known (m : JsMap GitFileStatus) (line : jsstring) :
  Forall (fun kv => KnownEntry (snd kv)) m ->
  Forall (fun kv => KnownEntry (snd kv)) (processLine m line).
Proof.
  intro H. unfold processLine.
  destruct line as [|indexStatus [|workTreeStatus [|c t]]]; trivial.
  set (p := linePath _).
  assert (H1 : Forall (fun kv => KnownEntry (snd kv))
                 (if negb (indexStatus =? STATUS_SPACE)
                     && negb (indexStatus =? STATUS_UNTRACKED)
                  then
                    let (status, description) := getStatusInfo indexStatus in
                    map_set m (p ++ lit "_staged")
                      (mkGitFileStatus p status description true)
                  else m)).
  { destruct (_ && _); trivial.
    pose proof (known_from_status_info p indexStatus true) as Hk.
    destruct (getStatusInfo indexStatus) as [st d].
    now apply map_set_Forall. }
  cbv zeta.
  match goal with
  | |- Forall _ (if _ then map_set ?m2 _ _ else _) =>
      assert (H2 : Forall (fun kv => KnownEntry (snd kv)) m2)
  end.
  { destruct (negb (workTreeStatus =? STATUS_SPACE) && _ && _); trivial.
    pose proof (known_from_status_info p workTreeStatus false) as Hk.
    destruct (getStatusInfo workTreeStatus) as [st d].
    now apply map_set_Forall. }
  destruct ((indexStatus =? STATUS_UNTRACKED) && _); trivial.
  apply map_set_Forall; trivial.
  split; cbn [snd status description staged].
  - unfold statusTable. cbn [In]. tauto.
  - now intros _.
Qed.

(** X12. Every entry of the file list carries one of the status letters M,
    A, D, R, C and ? with the description that belongs to it; an entry with
    the letter ? is an untracked one and is never staged.  (A status code
    that the switch does not know, such as U of a conflict, is listed as
    C, Changed.) *)
Theorem getFileStatus_known_entries (exec : Exc jsstring) :
  Forall KnownEntry (getFileStatus exec).
Proof.
  destruct exec as [e|stdout]; [constructor|].
  unfold getFileStatus, map_values.
  apply Forall_map.
  generalize (filter (fun line => negb (Nat.eqb (length line) 0))
                (split LF stdout)).
  intro lines.
  assert (H : Forall (fun kv : jsstring * GitFileStatus =>
                        KnownEntry (snd kv)) []) by constructor.
  revert H. generalize (@nil (jsstring * GitFileStatus)).
  induction lines as [|l lines IH]; intros m H; cbn [fold_left]; trivial.
  apply IH. now apply processLine_known.
Qed.

End MoreFileList.

(** ** The commands of the Git service *)

Section MoreGitCommands.

Import Host GitCommands.
Local Open Scope N_scope.

Variable World : Type.
Variable exec : jsstring -> World -> Exc jsstring * World.

Lemma length_trimStart (s : jsstring) :
  (length (trimStart s) <= length s)%nat.
Proof.
  induction s as [|c t IH]; cbn [trimStart]; trivial.
  destruct (isWhiteSpace c); cbn [length]; lia.
Qed.

Lemma length_trim (s : jsstring) : (length (trim s) <= length s)%nat.
Proof.
  unfold trim, trimEnd. rewrite length_rev.
  etransitivity; [apply length_trimStart|].
  rewrite length_rev. apply length_trimStart.
Qed.

Lemma length_replaceAll_go_remove (pat s : jsstring) (skip : nat) :
  (length (replaceAll_go pat [] skip s) <= length s)%nat.
Proof.
  revert skip. induction s as [|x s IH]; intro skip; [trivial|].
  cbn [replaceAll_go]. destruct skip as [|k].
  - destruct (startsWith (x :: s) pat).
    + cbn [app length]. specialize (IH (pred (length pat))). lia.
    + cbn [length]. specialize (IH 0%nat). lia.
  - cbn [length]. specialize (IH k). lia.
Qed.

Lemma length_replaceClass_remove (p : codeunit -> bool) (s : jsstring) :
  (length (replaceClass p (fun _ => []) s) <= length s)%nat.
Proof.
  unfold replaceClass. induction s as [|x s IH]; trivial.
  cbn [flat_map]. rewrite length_app. destruct (p x); cbn [length]; lia.
Qed.

Lemma sanitizeFilePath_shorter (filePath : jsstring) :
  (length (GitService.sanitizeFilePath filePath) <= length filePath)%nat.
Proof.
  unfold GitService.sanitizeFilePath.
  etransitivity; [apply length_trim|].
  etransitivity; [apply length_replaceAll_go_remove|].
  apply length_replaceClass_remove.
Qed.

Lemma run_execAsync (command : jsstring) (w : World) :
  execAsync exec command w
  = ([Ran command], snd (exec command w), fst (exec command w)).
Proof. unfold execAsync. now destruct (exec command w). Qed.

(** X13. [stageFile] runs one command and [unstageFile] one or two: git
    add, git restore --staged and, only when the latter failed, git reset
    HEAD, each followed by the sanitized path between double quotes.  The
    sanitized path has none of the characters [;&|`$(){}[]] and is not
    longer than the path. *)
Theorem stageFile_unstageFile_commands (filePath : jsstring) (w : World) :
  let p := GitService.sanitizeFilePath filePath in
  forallb (fun c => negb (isPathMetacharacter c)) p = true
  /\ (length p <= length filePath)%nat
  /\ commands (events (stageFile exec filePath w)) = [withArgument ADD p]
  /\ (commands (events (unstageFile exec filePath w))
      = [withArgument RESTORE_STAGED p]
      \/ (exists e, fst (exec (withArgument RESTORE_STAGED p) w) = Threw e)
         /\ commands (events (unstageFile exec filePath w))
            = [withArgument RESTORE_STAGED p; withArgument RESET_HEAD p]).
Proof.
  intro p. split; [|split; [|split]].
  - apply forallb_forall. intros c Hc.
    unfold isPathMetacharacter.
    now rewrite (sanitizeFilePath_no_metacharacter filePath c Hc).
  - apply sanitizeFilePath_shorter.
  - unfold stageFile, bind. cbv zeta. fold p. rewrite run_execAsync.
    now destruct (fst (exec _ w)).
  - unfold unstageFile, tryCatch, bind. cbv zeta. fold p.
    rewrite run_execAsync.
    destruct (fst (exec (withArgument RESTORE_STAGED p) w)) as [e|out].
    + right. split; [now exists e|].
      rewrite run_execAsync. now destruct (fst (exec _ _)).
    + now left.
Qed.

(** X14. [commit] runs one command, git commit -m followed by the
    sanitized message between double quotes; in the sanitized message no
    backtick and no dollar sign is left without a backslash before it, so
    the shell substitutes nothing in it. *)
Theorem commit_command (message : jsstring) (w : World) :
  commands (events (commit exec message w))
  = [GitService.commitCommand message]
  /\ Shell.unquoted (inClass [BACKTICK; DOLLAR])
       (GitService.sanitizeCommitMessage message) = false.
Proof.
  split.
  - unfold commit, bind. cbv zeta. rewrite run_execAsync.
    now destruct (fst (exec _ w)).
  - rewrite sanitizeCommitMessage_by_unit, unquoted_escape.
    induction (trim message) as [|c t IH]; trivial.
    cbn [existsb]. rewrite IH. unfold inClass, existsb.
    destruct (c =? BACKTICK), (c =? DOLLAR); reflexivity.
Qed.

Lemma isGitRepository_run (w : World) :
  isGitRepository exec w
  = ([Ran CHECK_REPO], snd (exec CHECK_REPO w),
     Ok (match fst (exec CHECK_REPO w) with
         | Ok _ => true
         | Threw _ => false
         end)).
Proof.
  unfold isGitRepository, tryCatch, bind. rewrite run_execAsync.
  now destruct (fst (exec _ w)).
Qed.

Lemma hasStagedChanges_run (w : World) :
  hasStagedChanges exec w
  = ([Ran CHECK_STAGED], snd (exec CHECK_STAGED w),
     Ok (match fst (exec CHECK_STAGED w) with
         | Ok stdout => negb (isBlank stdout)
         | Threw _ => false
         end)).
Proof.
  unfold hasStagedChanges, tryCatch, bind. rewrite run_execAsync.
  destruct (fst (exec _ w)) as [e|stdout]; trivial.
  unfold ret, isBlank. now destruct (trim stdout).
Qed.

Lemma getStagedChangesSummary_run (w : World) :
  getStagedChangesSummary exec w
  = ([Ran DIFF_STAGED], snd (exec DIFF_STAGED w),
     Ok (match fst (exec DIFF_STAGED w) with
         | Ok stdout => trim stdout
         | Threw _ => []
         end)).
Proof.
  unfold getStagedChangesSummary, tryCatch, bind. rewrite run_execAsync.
  now destruct (fst (exec _ w)).
Qed.

Lemma getFileStatus_run (w : World) :
  getFileStatus exec w
  = ([Ran STATUS], snd (exec STATUS w),
     Ok (GitService.getFileStatus (fst (exec STATUS w)))).
Proof.
  unfold getFileStatus, tryCatch, bind. rewrite run_execAsync.
  now destruct (fst (exec _ w)).
Qed.

Lemma getStagedDiffInfo_run (w : World) :
  getStagedDiffInfo exec w
  = match fst (exec DIFF_STAGED_NUMSTAT w) with
    | Threw _ =>
        ([Ran DIFF_STAGED_NUMSTAT], snd (exec DIFF_STAGED_NUMSTAT w), Ok [])
    | Ok numstat =>
        let w1 := snd (exec DIFF_STAGED_NUMSTAT w) in
        ([Ran DIFF_STAGED_NUMSTAT; Ran DIFF_STAGED],
         snd (exec DIFF_STAGED w1),
         Ok (match fst (exec DIFF_STAGED w1) with
             | Threw _ => []
             | Ok diffContent => StagedDiff.diffInfos numstat diffContent
             end))
    end.
Proof.
  unfold getStagedDiffInfo, tryCatch, bind. rewrite run_execAsync.
  destruct (fst (exec DIFF_STAGED_NUMSTAT w)) as [e|numstat]; trivial.
  cbv zeta. rewrite run_execAsync.
  now destruct (fst (exec DIFF_STAGED _)).
Qed.

(** X15. The five queries of the Git service never reject, whatever git
    does: each runs its own command and no other (the diff information
    runs two, the second only when the first succeeded) and returns a
    value.  When the command fails the value is [false], the empty text or
    the empty list; when it succeeds it is [true] for the repository
    check, whether the trimmed output is not empty for the staged check,
    the trimmed output for the summary, the file list read from the output
    for the status, and the entries read from the two outputs for the diff
    information. *)
Theorem queries_never_reject (w : World) :
  isGitRepository exec w
  = ([Ran CHECK_REPO], snd (exec CHECK_REPO w),
     Ok (match fst (exec CHECK_REPO w) with
         | Threw _ => false
         | Ok _ => true
         end))
  /\ hasStagedChanges exec w
     = ([Ran CHECK_STAGED], snd (exec CHECK_STAGED w),
        Ok (match fst (exec CHECK_STAGED w) with
            | Threw _ => false
            | Ok stdout => Nat.ltb 0 (length (trim stdout))
            end))
  /\ getStagedChangesSummary exec w
     = ([Ran DIFF_STAGED], snd (exec DIFF_STAGED w),
        Ok (match fst (exec DIFF_STAGED w) with
            | Threw _ => []
            | Ok stdout => trim stdout
            end))
  /\ getFileStatus exec w
     = ([Ran STATUS], snd (exec STATUS w),
        Ok (match fst (exec STATUS w) with
            | Threw _ => []
            | Ok stdout => GitService.getFileStatus (Ok stdout)
            end))
  /\ getStagedDiffInfo exec w
     = match fst (exec DIFF_STAGED_NUMSTAT w) with
       | Threw _ =>
           ([Ran DIFF_STAGED_NUMSTAT], snd (exec DIFF_STAGED_NUMSTAT w),
            Ok [])
       | Ok numstat =>
           let w1 := snd (exec DIFF_STAGED_NUMSTAT w) in
           ([Ran DIFF_STAGED_NUMSTAT; Ran DIFF_STAGED],
            snd (exec DIFF_STAGED w1),
            Ok (match fst (exec DIFF_STAGED w1) with
                | Threw _ => []
                | Ok diffContent => StagedDiff.diffInfos numstat diffContent
                end))
       end.
Proof.
  split; [|split; [|split; [|split]]].
  - rewrite isGitRepository_run. now destruct (fst (exec CHECK_REPO w)).
  - rewrite hasStagedChanges_run.
    destruct (fst (exec CHECK_STAGED w)) as [e|stdout]; trivial.
    unfold isBlank. now destruct (trim stdout).
  - rewrite getStagedChangesSummary_run.
    now destruct (fst (exec DIFF_STAGED w)).
  - rewrite getFileStatus_run. now destruct (fst (exec STATUS w)).
  - apply getStagedDiffInfo_run.
Qed.

End MoreGitCommands.

(** ** The provider of the view *)

Section MorePanel.

Import Host GitCommands Panel.
Local Open Scope N_scope.

Variable World : Type.
Variable exec : jsstring -> World -> Exc jsstring * World.
Variable pick : jsstring -> list jsstring -> World -> option jsstring * World.
Variable toLowerCase : jsstring -> jsstring.
Variable fetch : AIService.Request -> Exc AIService.Response.
Variable JSON_stringify : JsValue -> jsstring.
Variable percent : JsValue -> Exc jsstring.
Variable this : Provider.

Lemma returns_ret {A} (a : A) : Returns (@ret World A a).
Proof. intro w. now exists a. Qed.

Lemma returns_emit ev : Returns (@emit World ev).
Proof. intro w. now exists tt. Qed.

Lemma returns_bind {A B} (m : P World A) (k : A -> P World B) :
  Returns m -> (forall a, Returns (k a)) -> Returns (bind m k).
Proof.
  intros Hm Hk w. unfold bind, outcome.
  destruct (Hm w) as [a Ha]. unfold outcome in Ha.
  destruct (m w) as [[tr w1] r]. cbn [snd] in Ha. subst r.
  destruct (Hk a w1) as [b Hb]. unfold outcome in Hb.
  destruct (k a w1) as [[tr' w2] r]. cbn [snd] in *. now exists b.
Qed.

Lemma returns_tryCatch {A} (m : P World A) (handler : JsError -> P World A) :
  (forall e, Returns (handler e)) -> Returns (tryCatch m handler).
Proof.
  intros Hh w. unfold tryCatch, outcome.
  destruct (m w) as [[tr w1] [e|a]].
  - destruct (Hh e w1) as [b Hb]. unfold outcome in Hb.
    destruct (handler e w1) as [[tr' w2] r]. cbn [snd] in *. now exists b.
  - now exists a.
Qed.

Lemma returns_postMessage p : Returns (postMessage (World := World) this p).
Proof.
  unfold postMessage. destruct (view this);
    [apply returns_emit | apply returns_ret].
Qed.

Lemma returns_unit (m : P World unit) (w : World) :
  Returns m -> outcome (m w) = Ok tt.
Proof. intro H. destruct (H w) as [[] Ha]. exact Ha. Qed.

Lemma refreshFileList_returns : Returns (refreshFileList exec this).
Proof.
  unfold refreshFileList. destruct (_ || _); [apply returns_ret|].
  apply returns_tryCatch. intro e. apply returns_emit.
Qed.

Lemma generateAIContent_returns :
  Returns (generateAIContent exec toLowerCase fetch JSON_stringify percent
             this).
Proof.
  unfold generateAIContent. destruct (negb _).
  - apply returns_bind; [apply returns_emit|].
    intros _. apply returns_postMessage.
  - apply returns_tryCatch. intro e.
    apply returns_bind; [apply returns_emit|].
    intros _. apply returns_postMessage.
Qed.

Lemma stageFile_returns filePath : Returns (Panel.stageFile exec this filePath).
Proof.
  unfold Panel.stageFile. destruct (negb _); [apply returns_emit|].
  apply returns_tryCatch. intro e. apply returns_emit.
Qed.

Lemma unstageFile_returns filePath :
  Returns (Panel.unstageFile exec this filePath).
Proof.
  unfold Panel.unstageFile. destruct (negb _); [apply returns_emit|].
  apply returns_tryCatch. intro e. apply returns_emit.
Qed.

Lemma stageAllFiles_returns : Returns (Panel.stageAllFiles exec this).
Proof.
  unfold Panel.stageAllFiles. destruct (negb _); [apply returns_emit|].
  apply returns_tryCatch. intro e. apply returns_emit.
Qed.

Lemma handleCommit_returns commitType scope message :
  Returns (handleCommit exec pick this commitType scope message).
Proof.
  unfold handleCommit. destruct (negb _); [apply returns_emit|].
  apply returns_tryCatch. intro e. apply returns_emit.
Qed.

(** X16. No handler of the provider rejects: committing, staging and
    unstaging a file, staging everything, refreshing the list and
    generating a message all return, whatever git, the network and the
    user do; every failure ends in a notification or in nothing. *)
Theorem handlers_never_reject (commitType scope message filePath : jsstring)
  (w : World) :
  outcome (handleCommit exec pick this commitType scope message w) = Ok tt
  /\ outcome (Panel.stageFile exec this filePath w) = Ok tt
  /\ outcome (Panel.unstageFile exec this filePath w) = Ok tt
  /\ outcome (Panel.stageAllFiles exec this w) = Ok tt
  /\ outcome (refreshFileList exec this w) = Ok tt
  /\ outcome (generateAIContent exec toLowerCase fetch JSON_stringify percent
                this w) = Ok tt.
Proof.
  repeat split; apply returns_unit.
  - apply handleCommit_returns.
  - apply stageFile_returns.
  - apply unstageFile_returns.
  - apply stageAllFiles_returns.
  - apply refreshFileList_returns.
  - apply generateAIContent_returns.
Qed.

Lemma commands_app (a b : list Event) :
  commands (a ++ b) = commands a ++ commands b.
Proof. apply flat_map_app. Qed.

Lemma errors_app (a b : list Event) : errors (a ++ b) = errors a ++ errors b.
Proof. apply flat_map_app. Qed.

Lemma refreshFileList_run (w : World) :
  refreshFileList exec this w
  = if view this && gitService this then
      ([Ran STATUS;
        Posted (UpdateFiles (GitService.getFileStatus (fst (exec STATUS w))))],
       snd (exec STATUS w), Ok tt)
    else ([], w, Ok tt).
Proof.
  unfold refreshFileList.
  destruct (view this), (gitService this); cbn [negb orb andb]; trivial.
  unfold tryCatch, bind. rewrite getFileStatus_run. reflexivity.
Qed.

Lemma gateway_returns config (d : jsstring) :
  isBlank d = false ->
  exists tr c,
    AIService.generateCommitContent toLowerCase fetch JSON_stringify config d
    = (tr, Ok c).
Proof.
  intro Hblank. unfold AIService.generateCommitContent. rewrite Hblank.
  cbv zeta. destruct (_ && _); [now eexists; eexists|].
  destruct (AIService.dispatch _ _ _ _ _) as [tr [e|c]].
  - destruct (showProviderError_returns config e) as [tr' Hshow].
    unfold AIService.tryCatch, AIService.bind. rewrite Hshow.
    now eexists; eexists.
  - now exists tr, c.
Qed.

Lemma bind_ok {A B} (m : P World A) (k : A -> P World B) w tr w1 a :
  m w = (tr, w1, Ok a) ->
  bind m k w = (let '(tr', w2, r) := k a w1 in (tr ++ tr', w2, r)).
Proof. intro H. unfold bind. now rewrite H. Qed.

Lemma fail_run (message : jsstring) (w : World) :
  bind (@showErrorMessage World message)
    (fun _ => @sendAIGenerationFailed World this) w
  = (ErrorShown message
     :: (if view this then [Posted AIGenerationFailed] else []), w, Ok tt).
Proof.
  unfold bind, showErrorMessage, sendAIGenerationFailed, postMessage, emit.
  now destruct (view this).
Qed.

Lemma errors_failed (message : jsstring) :
  errors (ErrorShown message
          :: (if view this then [Posted AIGenerationFailed] else []))
  = [message].
Proof. now destruct (view this). Qed.

Lemma errors_service (tr : list AIService.Event) :
  errors (map Service tr) = [].
Proof. induction tr; trivial. Qed.

(** X17. Generating a message shows at most one error.  It is that no
    workspace folder was found, or that no staged file is there to analyse
    (nothing staged, or an empty staged diff), or, after the content that
    the AI service returned for the trimmed staged diff was posted to the
    view, that the generation failed, and this last one exactly when
    converting the confidence of that content to a percentage throws.  The
    call of the AI service itself never fails the handler: the diff text
    handed to it is trimmed and not empty, so it returns.  When the
    conversion gives a text, the handler ends with the success notification
    that shows it. *)
Theorem generateAIContent_errors (w : World) :
  let tr :=
    events (generateAIContent exec toLowerCase fetch JSON_stringify percent
              this w) in
  errors tr = [NO_WORKSPACE]
  \/ errors tr = [AIService.NO_STAGED_FILES]
  \/ exists stdout trg c,
       fst (exec DIFF_STAGED (snd (exec CHECK_STAGED w))) = Ok stdout
       /\ AIService.generateCommitContent toLowerCase fetch JSON_stringify
            (aiConfig this) (trim stdout)
          = (trg, Ok c)
       /\ let pre := [Ran CHECK_STAGED; Ran DIFF_STAGED] ++ map Service trg in
          errors pre = []
          /\ match percent c.(AIService.confidence) with
             | Ok shown =>
                 tr = pre
                      ++ (if view this then [Posted (AIContentGenerated c)]
                          else [])
                      ++ [InformationShown
                            (AI_CONTENT_GENERATED ++ lit " (信心度: "
                             ++ shown ++ lit "%)")]
             | Threw e =>
                 tr = pre
                      ++ (if view this then [Posted (AIContentGenerated c)]
                          else [])
                      ++ ErrorShown
                           (AI_GENERATION_FAILED ++ lit ": " ++ errorToString e)
                         :: (if view this then [Posted AIGenerationFailed]
                             else [])
             end.
Proof.
  intro tr. subst tr. unfold generateAIContent.
  destruct (gitService this); cbn [negb].
  - right. unfold tryCatch.
    erewrite bind_ok; [|apply hasStagedChanges_run].
    destruct (match fst (exec CHECK_STAGED w) with
              | Threw _ => false
              | Ok stdout => negb (isBlank stdout)
              end); cbn [negb].
    + erewrite bind_ok; [|apply getStagedChangesSummary_run].
      set (w1 := snd (exec CHECK_STAGED w)).
      destruct (fst (exec DIFF_STAGED w1)) as [e|stdout].
      * rewrite fail_run. left. unfold events. cbn [fst].
        now rewrite !errors_app, errors_failed.
      * destruct (trim_not_blank stdout) as [Hd|Hd].
        -- rewrite Hd, fail_run. left. unfold events. cbn [fst].
           now rewrite !errors_app, errors_failed.
        -- destruct (trim stdout) as [|x t] eqn:Ht; [discriminate Hd|].
           destruct (@gateway_returns (aiConfig this) (x :: t) Hd)
             as (trg & content & Hg).
           right. exists stdout, trg, content.
           split; [reflexivity|]. split; [rewrite Ht; exact Hg|]. cbv zeta.
           split; [rewrite errors_app, errors_service; reflexivity|].
           unfold bind, service, sendAIGenerationFailed, postMessage,
             showInformationMessage, showErrorMessage, liftE, emit, ret.
           rewrite Hg. cbn [fst snd]. unfold events.
           destruct (percent (AIService.confidence content)) as [e|shown];
             destruct (view this); cbn [fst app];
             rewrite <- ?app_assoc; reflexivity.
    + rewrite fail_run. left. unfold events. cbn [fst].
      now rewrite !errors_app, errors_failed.
  - left. rewrite fail_run. unfold events. cbn [fst].
    apply errors_failed.
Qed.

Lemma bind_threw {A B} (m : P World A) (k : A -> P World B) w tr w1 e :
  m w = (tr, w1, Threw e) -> bind m k w = (tr, w1, Threw e).
Proof. intro H. unfold bind. now rewrite H. Qed.

Lemma run_command (command : jsstring) (w : World) :
  bind (execAsync exec command) (fun _ => ret tt) w
  = ([Ran command], snd (exec command w),
     match fst (exec command w) with
     | Threw e => Threw e
     | Ok _ => Ok tt
     end).
Proof.
  unfold bind. rewrite run_execAsync. now destruct (fst (exec command w)).
Qed.

Lemma refreshFileList_commands (w : World) :
  exists tr w',
    refreshFileList exec this w = (tr, w', Ok tt)
    /\ errors tr = []
    /\ (commands tr = [] \/ commands tr = [STATUS]).
Proof.
  rewrite refreshFileList_run. destruct (_ && _).
  - eexists; eexists. split; [reflexivity|]. split; [reflexivity|now right].
  - eexists; eexists. split; [reflexivity|]. split; [reflexivity|now left].
Qed.

Lemma panel_stageAllFiles_run (w : World) :
  gitService this = true ->
  exists tr w',
    Panel.stageAllFiles exec this w = (tr, w', Ok tt)
    /\ (commands tr = [ADD_ALL] \/ commands tr = [ADD_ALL; STATUS])
    /\ match fst (exec ADD_ALL w) with
       | Threw e =>
           tr = [Ran ADD_ALL;
                 ErrorShown (STAGE_FAILED ++ lit ": " ++ errorToString e)]
           /\ w' = snd (exec ADD_ALL w)
       | Ok _ => errors tr = []
       end.
Proof.
  intro Hgit. unfold Panel.stageAllFiles, GitCommands.stageAllFiles, tryCatch.
  rewrite Hgit. cbn [negb].
  destruct (fst (exec ADD_ALL w)) as [e|out] eqn:He.
  - erewrite bind_threw; [|rewrite run_command, He; reflexivity].
    unfold showErrorMessage, emit.
    eexists; eexists. split; [reflexivity|]. split; [now left|].
    now split.
  - erewrite bind_ok; [|rewrite run_command, He; reflexivity].
    destruct (refreshFileList_commands (snd (exec ADD_ALL w)))
      as (tr & w' & Hrun & Herr & Hcmd).
    erewrite bind_ok; [|exact Hrun].
    unfold showInformationMessage, emit.
    eexists; eexists. split; [reflexivity|]. split.
    + rewrite !commands_app. cbn [commands flat_map app].
      fold (commands tr).
      destruct Hcmd as [-> | ->]; [left|right]; reflexivity.
    + rewrite !errors_app, Herr. reflexivity.
Qed.

Lemma askInformationMessage_run message items (w : World) :
  askInformationMessage pick message items w
  = ([Asked message items], snd (pick message items w),
     Ok (fst (pick message items w))).
Proof.
  unfold askInformationMessage. now destruct (pick message items w).
Qed.

Lemma ensureStagedChanges_run (w : World) :
  gitService this = true ->
  exists tr w' b mid,
    ensureStagedChanges exec pick this w = (tr, w', Ok b)
    /\ commands tr = CHECK_STAGED :: mid
    /\ (mid = [] \/ mid = [ADD_ALL] \/ mid = [ADD_ALL; STATUS])
    /\ (b = false -> mid = [] /\ errors tr = []).
Proof.
  intro Hgit. unfold ensureStagedChanges. rewrite Hgit. cbn [negb].
  erewrite bind_ok; [|apply hasStagedChanges_run].
  destruct (match fst (exec CHECK_STAGED w) with
            | Threw _ => false
            | Ok stdout => negb (isBlank stdout)
            end).
  - exists [Ran CHECK_STAGED], (snd (exec CHECK_STAGED w)), true, [].
    split; [reflexivity|]. split; [reflexivity|]. split; [now left|].
    discriminate.
  - erewrite bind_ok; [|apply askInformationMessage_run].
    set (w1 := snd (exec CHECK_STAGED w)).
    destruct (fst (pick STAGE_ALL_QUESTION [YES; NO] w1)) as [item|].
    + destruct (JsString.eqb item YES).
      * destruct (@panel_stageAllFiles_run
                    (snd (pick STAGE_ALL_QUESTION [YES; NO] w1)) Hgit)
          as (tr & w' & Hrun & Hcmd & _).
        erewrite bind_ok; [|exact Hrun]. unfold ret.
        exists ([Ran CHECK_STAGED]
                ++ [Asked STAGE_ALL_QUESTION [YES; NO]] ++ tr ++ []),
          w', true, (commands tr).
        split; [reflexivity|]. split.
        { rewrite !commands_app. cbn [commands flat_map app].
          now rewrite app_nil_r. }
        split; [tauto | discriminate].
      * eexists; eexists; exists false, []. unfold ret.
        split; [reflexivity|]. split; [reflexivity|].
        split; [now left | now split].
    + eexists; eexists; exists false, []. unfold ret.
      split; [reflexivity|]. split; [reflexivity|].
      split; [now left | now split].
Qed.

Lemma isGitRepository_bind {B} (k : bool -> P World B) (w : World) :
  bind (isGitRepository exec) k w
  = (let '(tr', w2, r) :=
       k (match fst (exec CHECK_REPO w) with
          | Ok _ => true
          | Threw _ => false
          end) (snd (exec CHECK_REPO w)) in
     ([Ran CHECK_REPO] ++ tr', w2, r)).
Proof. erewrite bind_ok; [reflexivity | apply isGitRepository_run]. Qed.

(** X18. The commands of a commit: none when the type is empty or the
    message blank (or no workspace folder is there); otherwise the
    repository check, then the check for staged changes, then git add . and
    git status when the user had nothing staged and agreed to stage
    everything, then the one git commit on the sanitized formatted message
    and the git status of the refresh.  Nothing else is ever run. *)
Theorem handleCommit_commands (commitType scope message : jsstring)
  (w : World) :
  let cs :=
    commands (events (handleCommit exec pick this commitType scope message
                        w)) in
  let commitCommand :=
    GitService.commitCommand
      (GitService.formatCommitMessage commitType scope message) in
  cs = []
  \/ validateCommitInput commitType message = true
     /\ (cs = [CHECK_REPO]
         \/ exists mid tail,
              cs = CHECK_REPO :: CHECK_STAGED :: mid ++ tail
              /\ (mid = [] \/ mid = [ADD_ALL] \/ mid = [ADD_ALL; STATUS])
              /\ (tail = [] \/ tail = [commitCommand]
                  \/ tail = [commitCommand; STATUS])).
Proof.
  intros cs commitCommand. subst cs. unfold handleCommit.
  destruct (gitService this) eqn:Hgit; cbn [negb]; [|now left].
  destruct (validateCommitInput commitType message); cbn [negb];
    [|now left].
  right. split; trivial. unfold tryCatch.
  rewrite isGitRepository_bind.
  destruct (fst (exec CHECK_REPO w)) as [e|out]; cbn [negb].
  - left. reflexivity.
  - right.
    destruct (@ensureStagedChanges_run (snd (exec CHECK_REPO w)) Hgit)
      as (tr & w1 & b & mid & Hrun & Hcmd & Hmid & Hfalse).
    erewrite bind_ok; [|exact Hrun].
    destruct b; cbn [negb].
    + exists mid. unfold commit. cbv zeta.
      change (withArgument COMMIT
                (GitService.sanitizeCommitMessage
                   (GitService.formatCommitMessage commitType scope message)))
        with commitCommand.
      destruct (fst (exec commitCommand w1)) as [e|out'] eqn:Hc.
      * erewrite bind_threw; [|rewrite run_command, Hc; reflexivity].
        exists [commitCommand].
        unfold showErrorMessage, emit, events. cbn [fst].
        rewrite !commands_app, Hcmd. cbn [commands flat_map].
        rewrite <- ?app_assoc. cbn [app]. rewrite ?app_nil_r.
        split; [reflexivity | tauto].
      * erewrite bind_ok; [|rewrite run_command, Hc; reflexivity].
        destruct (refreshFileList_commands (snd (exec commitCommand w1)))
          as (trr & w2 & Hr & _ & Hrc).
        erewrite bind_ok; [|exact Hr].
        exists (commitCommand :: commands trr).
        unfold clearInputs, postMessage, showInformationMessage, bind, emit,
          ret, events.
        destruct (view this); cbn [fst]; rewrite !commands_app, Hcmd;
          cbn [commands flat_map]; fold (commands trr);
          rewrite <- ?app_assoc; cbn [app]; rewrite ?app_nil_r;
          (split; [reflexivity|]); (split; [exact Hmid|]);
          destruct Hrc as [-> | ->]; tauto.
    + exists mid, []. unfold ret, events. cbn [fst].
      rewrite !commands_app, Hcmd. cbn [commands flat_map].
      rewrite <- ?app_assoc. cbn [app]. rewrite ?app_nil_r.
      split; [reflexivity | tauto].
Qed.

Lemma ensureStagedChanges_failed_staging (w1 : World) (e : JsError) :
  let w2 := snd (exec CHECK_STAGED w1) in
  let w3 := snd (pick STAGE_ALL_QUESTION [YES; NO] w2) in
  gitService this = true ->
  outcome (hasStagedChanges exec w1) = Ok false ->
  fst (pick STAGE_ALL_QUESTION [YES; NO] w2) = Some YES ->
  fst (exec ADD_ALL w3) = Threw e ->
  ensureStagedChanges exec pick this w1
  = ([Ran CHECK_STAGED; Asked STAGE_ALL_QUESTION [YES; NO]; Ran ADD_ALL;
      ErrorShown (STAGE_FAILED ++ lit ": " ++ errorToString e)],
     snd (exec ADD_ALL w3), Ok true).
Proof.
  intros w2 w3 Hgit Hstaged Hpick Hadd.
  unfold ensureStagedChanges. rewrite Hgit. cbn [negb].
  rewrite hasStagedChanges_run in Hstaged. unfold outcome in Hstaged.
  cbn [snd] in Hstaged. injection Hstaged as Hstaged.
  erewrite bind_ok; [|apply hasStagedChanges_run]. rewrite Hstaged.
  erewrite bind_ok; [|apply askInformationMessage_run].
  fold w2. rewrite Hpick.
  change (JsString.eqb YES YES) with true. cbv iota. fold w3.
  destruct (@panel_stageAllFiles_run w3 Hgit) as (tr & w' & Hrun & _ & Hf).
  rewrite Hadd in Hf. destruct Hf as [-> ->].
  erewrite bind_ok; [|exact Hrun]. reflexivity.
Qed.

(** X19. When nothing is staged, the user agrees to stage everything and
    git add . fails, the failure is shown and the commit is attempted all
    the same: [ensureStagedChanges] answers true whatever became of the
    staging. *)
Theorem handleCommit_commits_after_failed_staging
  (commitType scope message : jsstring) (w : World) :
  let w1 := snd (exec CHECK_REPO w) in
  let w2 := snd (exec CHECK_STAGED w1) in
  let w3 := snd (pick STAGE_ALL_QUESTION [YES; NO] w2) in
  gitService this = true ->
  validateCommitInput commitType message = true ->
  (exists out, fst (exec CHECK_REPO w) = Ok out) ->
  outcome (hasStagedChanges exec w1) = Ok false ->
  fst (pick STAGE_ALL_QUESTION [YES; NO] w2) = Some YES ->
  (exists e, fst (exec ADD_ALL w3) = Threw e) ->
  exists e rest,
    fst (exec ADD_ALL w3) = Threw e
    /\ events (handleCommit exec pick this commitType scope message w)
       = [Ran CHECK_REPO; Ran CHECK_STAGED;
          Asked STAGE_ALL_QUESTION [YES; NO]; Ran ADD_ALL;
          ErrorShown (STAGE_FAILED ++ lit ": " ++ errorToString e);
          Ran (GitService.commitCommand
                 (GitService.formatCommitMessage commitType scope message))]
         ++ rest.
Proof.
  intros w1 w2 w3 Hgit Hvalid [out Hrepo] Hstaged Hpick [e Hadd].
  exists e. unfold handleCommit. rewrite Hgit, Hvalid. cbn [negb].
  unfold tryCatch. rewrite isGitRepository_bind, Hrepo. cbn [negb].
  fold w1.
  erewrite bind_ok;
    [|exact (@ensureStagedChanges_failed_staging w1 e Hgit Hstaged Hpick
               Hadd)].
  cbn [negb]. unfold commit. cbv zeta.
  change (withArgument COMMIT
            (GitService.sanitizeCommitMessage
               (GitService.formatCommitMessage commitType scope message)))
    with (GitService.commitCommand
            (GitService.formatCommitMessage commitType scope message)).
  set (cmd := GitService.commitCommand _).
  set (w4 := snd (exec ADD_ALL _)).
  destruct (fst (exec cmd w4)) as [e'|out'] eqn:Hc.
  - erewrite bind_threw; [|rewrite run_command, Hc; reflexivity].
    eexists. split; [exact Hadd|].
    unfold showErrorMessage, emit, events. cbn [fst app]. reflexivity.
  - erewrite bind_ok; [|rewrite run_command, Hc; reflexivity].
    destruct (refreshFileList_commands (snd (exec cmd w4)))
      as (trr & w5 & Hr & _ & _).
    erewrite bind_ok; [|exact Hr].
    unfold clearInputs, postMessage, showInformationMessage, bind, emit,
      ret, events.
    destruct (view this); (eexists; split; [exact Hadd|]);
      cbn [fst app]; reflexivity.
Qed.

(** X20. Refreshing the list never shows an error.  With a view and a
    workspace folder it runs git status once and posts the file list read
    from its outcome, the empty list when git status failed; without one of
    them it does nothing. *)
Theorem refreshFileList_never_shows_error (w : World) :
  events (refreshFileList exec this w)
  = (if view this && gitService this then
       [Ran STATUS;
        Posted (UpdateFiles
                  (GitService.getFileStatus (fst (exec STATUS w))))]
     else [])
  /\ errors (events (refreshFileList exec this w)) = [].
Proof.
  rewrite refreshFileList_run.
  destruct (view this && gitService this); split; reflexivity.
Qed.

End MorePanel.

(** X19 in a workspace where nothing is staged and every command but the
    two checks fails, with a user who agrees. *)
Lemma handleCommit_commits_after_failed_staging_witness :
  exists e rest,
    fst (nothingStaged GitCommands.ADD_ALL tt) = Threw e
    /\ Host.events
         (Panel.handleCommit nothingStaged alwaysYes
            (Panel.mkProvider true true geminiConfig)
            (lit "fix") (lit "auth") (lit "handle expired tokens") tt)
       = [Host.Ran GitCommands.CHECK_REPO; Host.Ran GitCommands.CHECK_STAGED;
          Host.Asked Panel.STAGE_ALL_QUESTION [Panel.YES; Panel.NO];
          Host.Ran GitCommands.ADD_ALL;
          Host.ErrorShown
            (Panel.STAGE_FAILED ++ lit ": " ++ errorToString e);
          Host.Ran (GitService.commitCommand
                      (GitService.formatCommitMessage (lit "fix") (lit "auth")
                         (lit "handle expired tokens")))]
         ++ rest.
Proof.
  apply (@handleCommit_commits_after_failed_staging unit nothingStaged
           alwaysYes (Panel.mkProvider true true geminiConfig)
           (lit "fix") (lit "auth") (lit "handle expired tokens") tt).
  - reflexivity.
  - vm_compute; reflexivity.
  - eexists. vm_compute. reflexivity.
  - vm_compute; reflexivity.
  - reflexivity.
  - eexists. vm_compute. reflexivity.
Defined.

(** [generateAIContent] with one staged file, at two answers of the
    provider.  A confidence that is an object with a [toString] entry is
    kept by the parser, the conversion to a percentage throws on it, and
    the handler shows the generation error after it posted the content; a
    confidence of 0.9 is shown as 90. *)
Example generateAIContent_percentage :
  Host.errors
    (Host.events
       (Panel.generateAIContent oneStaged toLowerCaseAscii
          (answering
             (quoted "{'choices':[{'message':{'content':'{\'type\':\'fix\',\'confidence\':{\'toString\':1}}'}}]}"))
          noStringify percentOfNumber
          (Panel.mkProvider true true
             (AIService.mkConfig AIService.openai (Some (lit "sk-test")) None
                None))
          tt))
  = [Panel.AI_GENERATION_FAILED
     ++ lit ": TypeError: Cannot convert object to primitive value"]
  /\ last
       (Host.events
          (Panel.generateAIContent oneStaged toLowerCaseAscii
             (answering
                (quoted "{'choices':[{'message':{'content':'{\'type\':\'fix\',\'confidence\':0.9}'}}]}"))
             noStringify percentOfNumber
             (Panel.mkProvider true true
                (AIService.mkConfig AIService.openai (Some (lit "sk-test"))
                   None None))
             tt))
       (Host.Ran [])
     = Host.InformationShown
         (Panel.AI_CONTENT_GENERATED ++ lit " (信心度: 90%)").
Proof. split; vm_compute; reflexivity. Qed.

(** ** The staged diff *)

Section MoreStagedDiff.

Import StagedDiff.
Local Open Scope N_scope.

Lemma digit_cases (c : codeunit) :
  isDigit c = true ->
  c = 48 \/ c = 49 \/ c = 50 \/ c = 51 \/ c = 52 \/ c = 53 \/ c = 54
  \/ c = 55 \/ c = 56 \/ c = 57.
Proof.
  unfold isDigit. intro H. apply andb_true_iff in H as [H1 H2].
  apply N.leb_le in H1, H2. lia.
Qed.

Lemma digit_plain (c : codeunit) :
  isDigit c = true ->
  isWhiteSpace c = false /\ (c =? 45) = false /\ (c =? 43) = false
  /\ (c =? 120) = false /\ (c =? 88) = false /\ (c =? TAB) = false
  /\ (c =? LF) = false.
Proof.
  intro H. apply digit_cases in H.
  repeat (destruct H as [->|H]; [repeat split; reflexivity|]).
  subst c. repeat split; reflexivity.
Qed.

Lemma digits_go_S (fuel : nat) (n : N) (acc : jsstring) :
  digits_go (S fuel) n acc
  = if n <? 10 then (48 + n mod 10) :: acc
    else digits_go fuel (n / 10) ((48 + n mod 10) :: acc).
Proof. reflexivity. Qed.

Lemma digit_of_small (d : N) :
  d < 10 ->
  isDigit (48 + d) = true /\ digitValue (48 + d) = Z.of_N d.
Proof.
  intro H. assert (Hd : isDigit (48 + d) = true).
  { unfold isDigit. apply andb_true_iff. split; apply N.leb_le; lia. }
  split; trivial. unfold digitValue. rewrite Hd. lia.
Qed.

Lemma digits_go_value (fuel : nat) :
  forall n acc,
    n < 2 ^ N.of_nat fuel ->
    exists D,
      digits_go (S fuel) n acc = D ++ acc
      /\ (0 < length D)%nat
      /\ forallb isDigit D = true
      /\ forall a,
           decimal D a = (a * 10 ^ Z.of_nat (length D) + Z.of_N n)%Z.
Proof.
  induction fuel as [|fuel IH]; intros n acc Hn.
  - assert (n = 0) by (cbn in Hn; lia). subst n.
    exists [48]. split; [reflexivity|]. split; [cbn; lia|].
    split; [reflexivity|]. intro a. cbn. lia.
  - rewrite digits_go_S.
    pose proof (N.mod_upper_bound n 10) as Hm.
    destruct (digit_of_small (d := n mod 10)) as [Hd Hv]; [lia|].
    destruct (n <? 10) eqn:Hlt.
    + apply N.ltb_lt in Hlt. exists [48 + n mod 10].
      split; [reflexivity|]. split; [cbn; lia|]. split.
      * cbn [forallb]. now rewrite Hd.
      * intro a. unfold decimal. cbn [fold_left length]. rewrite Hv.
        rewrite N.mod_small by exact Hlt.
        change (10 ^ Z.of_nat 1)%Z with 10%Z. lia.
    + apply N.ltb_ge in Hlt.
      assert (Hdiv : n / 10 < 2 ^ N.of_nat fuel).
      { apply N.Div0.div_lt_upper_bound.
        rewrite Nnat.Nat2N.inj_succ, N.pow_succ_r' in Hn. lia. }
      destruct (IH (n / 10) ((48 + n mod 10) :: acc) Hdiv)
        as (D & HD & Hlen & Hdig & Hval).
      exists (D ++ [48 + n mod 10]).
      split; [now rewrite HD, <- app_assoc|].
      split; [rewrite length_app; cbn; lia|]. split.
      * rewrite forallb_app, Hdig. cbn [forallb]. now rewrite Hd.
      * intro a. unfold decimal in *. rewrite fold_left_app, Hval.
        cbn [fold_left]. rewrite Hv, length_app. cbn [length].
        replace (Z.of_nat (length D + 1)) with (Z.of_nat (length D) + 1)%Z
          by lia.
        rewrite Z.pow_add_r by lia. change (10 ^ 1)%Z with 10%Z.
        pose proof (N.div_mod n 10) as Hdm.
        assert (Z.of_N n = Z.of_N (n / 10) * 10 + Z.of_N (n mod 10))%Z by lia.
        lia.
Qed.

Lemma pos_lt_size (p : positive) : N.pos p < 2 ^ N.of_nat (Pos.size_nat p).
Proof.
  induction p as [p IH|p IH|]; cbn [Pos.size_nat];
    rewrite ?Nnat.Nat2N.inj_succ, ?N.pow_succ_r'; [| |reflexivity]; lia.
Qed.

Lemma NToString_value (n : N) :
  exists D,
    NToString n = D
    /\ (0 < length D)%nat
    /\ forallb isDigit D = true
    /\ decimal D 0 = Z.of_N n.
Proof.
  unfold NToString.
  assert (Hn : n < 2 ^ N.of_nat (N.size_nat n)).
  { destruct n as [|p]; [reflexivity | apply pos_lt_size]. }
  destruct (@digits_go_value _ n [] Hn) as (D & HD & Hlen & Hdig & Hval).
  exists D. rewrite HD, app_nil_r. split; [reflexivity|].
  split; [exact Hlen|]. split; [exact Hdig|].
  rewrite Hval. lia.
Qed.

Lemma parseInt_digits (D : jsstring) :
  (0 < length D)%nat -> forallb isDigit D = true ->
  parseInt D = Some (decimal D 0).
Proof.
  intros Hlen Hdig. destruct D as [|c t]; [inversion Hlen|].
  pose proof Hdig as Hall. cbn [forallb] in Hdig.
  apply andb_true_iff in Hdig as [Hc Ht].
  destruct (@digit_plain c Hc) as (Hws & Hminus & Hplus & _).
  unfold parseInt. cbn [trimStart]. rewrite Hws, Hminus, Hplus.
  assert (Hspan : span isDigit (c :: t) = (c :: t, []))
    by (apply span_all; exact Hall).
  destruct t as [|x t'].
  - cbv zeta iota beta. rewrite Hspan. cbn [fst].
    unfold decimal. f_equal. lia.
  - cbn [forallb] in Ht. apply andb_true_iff in Ht as [Hx _].
    destruct (@digit_plain x Hx) as (_ & _ & _ & H120 & H88 & _).
    rewrite H120, H88, andb_false_r. cbv zeta iota beta.
    rewrite Hspan. cbn [fst]. unfold decimal. f_equal. lia.
Qed.

Lemma parseIntOrZero_NToString (n : N) :
  parseIntOrZero (NToString n) = Z.of_N n.
Proof.
  destruct (NToString_value n) as (D & -> & Hlen & Hdig & Hval).
  unfold parseIntOrZero. now rewrite parseInt_digits, Hval.
Qed.

Lemma split_no_separator (sep : codeunit) (s : jsstring) :
  existsb (fun c => c =? sep) s = false -> split sep s = [s].
Proof.
  induction s as [|c t IH]; trivial. cbn [existsb split].
  intro H. apply orb_false_iff in H as [Hc Ht].
  now rewrite Hc, (IH Ht).
Qed.

Lemma split_at_separator (sep : codeunit) (a b : jsstring) :
  existsb (fun c => c =? sep) a = false ->
  split sep (a ++ sep :: b) = a :: split sep b.
Proof.
  induction a as [|c t IH]; cbn [existsb app].
  - intros _. cbn [split]. now rewrite N.eqb_refl.
  - intro H. apply orb_false_iff in H as [Hc Ht].
    cbn [split]. now rewrite Hc, (IH Ht).
Qed.

Lemma split_join (lines : list jsstring) :
  (0 < length lines)%nat ->
  forallb (fun l => negb (existsb (fun c => c =? LF) l)) lines = true ->
  split LF (join [LF] lines) = lines.
Proof.
  induction lines as [|l ls IH]; [inversion 1|]. intros _ H.
  cbn [forallb] in H. apply andb_true_iff in H as [Hl Hls].
  apply negb_true_iff in Hl.
  destruct ls as [|l2 ls'].
  - cbn [join]. now apply split_no_separator.
  - change (join [LF] (l :: l2 :: ls'))
      with (l ++ LF :: join [LF] (l2 :: ls')).
    rewrite split_at_separator by exact Hl.
    rewrite IH; trivial. cbn [length]. lia.
Qed.

Lemma terminated_lines (lines : list jsstring) :
  (0 < length lines)%nat ->
  flat_map (fun l => l ++ [LF]) lines = join [LF] lines ++ [LF].
Proof.
  induction lines as [|l ls IH]; [inversion 1|]. intros _.
  destruct ls as [|l2 ls']; [cbn [flat_map join]; now rewrite app_nil_r|].
  change (flat_map (fun l => l ++ [LF]) (l :: l2 :: ls'))
    with ((l ++ [LF]) ++ flat_map (fun l => l ++ [LF]) (l2 :: ls')).
  rewrite IH by (cbn [length]; lia).
  change (join [LF] (l :: l2 :: ls'))
    with (l ++ [LF] ++ join [LF] (l2 :: ls')).
  now rewrite <- !app_assoc.
Qed.

Lemma endsPlain_app (a b : jsstring) :
  endsPlain b = true -> endsPlain (a ++ b) = true.
Proof.
  unfold endsPlain. rewrite rev_app_distr.
  destruct (rev b); [discriminate | trivial].
Qed.

Lemma endsPlain_join (lines : list jsstring) :
  (0 < length lines)%nat ->
  forallb endsPlain lines = true -> endsPlain (join [LF] lines) = true.
Proof.
  induction lines as [|l ls IH]; [inversion 1|]. intros _ H.
  cbn [forallb] in H. apply andb_true_iff in H as [Hl Hls].
  destruct ls as [|l2 ls']; [exact Hl|].
  change (join [LF] (l :: l2 :: ls'))
    with (l ++ [LF] ++ join [LF] (l2 :: ls')).
  rewrite app_assoc. apply endsPlain_app.
  apply IH; trivial. cbn [length]. lia.
Qed.

Lemma trimEnd_plain (s : jsstring) : endsPlain s = true -> trimEnd s = s.
Proof.
  unfold endsPlain, trimEnd. intro H.
  destruct (rev s) as [|c r] eqn:Hr; [discriminate|].
  apply negb_true_iff in H. cbn [trimStart]. rewrite H.
  now rewrite <- Hr, rev_involutive.
Qed.

Lemma trimEnd_line_feed (s : jsstring) : trimEnd (s ++ [LF]) = trimEnd s.
Proof. unfold trimEnd. now rewrite rev_app_distr. Qed.

Lemma numstatLine_fields (a d : N) (p : jsstring) :
  plainPath p = true ->
  split TAB (numstatLine (a, d, p)) = [NToString a; NToString d; p]
  /\ existsb (fun c => c =? LF) (numstatLine (a, d, p)) = false
  /\ endsPlain (numstatLine (a, d, p)) = true
  /\ (exists c t, numstatLine (a, d, p) = c :: t /\ isWhiteSpace c = false).
Proof.
  intro Hp. unfold plainPath in Hp. apply andb_true_iff in Hp as [Hsep Hend].
  apply negb_true_iff in Hsep.
  assert (Htab : existsb (fun c => c =? TAB) p = false
                 /\ existsb (fun c => c =? LF) p = false).
  { clear Hend. induction p as [|c t IH]; [now split|].
    cbn [existsb] in Hsep. apply orb_false_iff in Hsep as [Hc Ht].
    apply orb_false_iff in Hc as [Hc1 Hc2]. destruct (IH Ht) as [H1 H2].
    cbn [existsb]. now rewrite Hc1, Hc2, H1, H2. }
  destruct Htab as [Htab Hlf].
  assert (Hdigits : forall n,
             existsb (fun c => c =? TAB) (NToString n) = false
             /\ existsb (fun c => c =? LF) (NToString n) = false
             /\ exists c t, NToString n = c :: t /\ isWhiteSpace c = false).
  { intro n. destruct (NToString_value n) as (D & -> & Hlen & Hdig & _).
    split; [|split].
    - clear Hlen. induction D as [|c t IH]; trivial.
      cbn [forallb] in Hdig. apply andb_true_iff in Hdig as [Hc Ht].
      destruct (@digit_plain c Hc) as (_ & _ & _ & _ & _ & H9 & _).
      cbn [existsb]. now rewrite H9, (IH Ht).
    - clear Hlen. induction D as [|c t IH]; trivial.
      cbn [forallb] in Hdig. apply andb_true_iff in Hdig as [Hc Ht].
      destruct (@digit_plain c Hc) as (_ & _ & _ & _ & _ & _ & H10).
      cbn [existsb]. now rewrite H10, (IH Ht).
    - destruct D as [|c t]; [inversion Hlen|].
      cbn [forallb] in Hdig. apply andb_true_iff in Hdig as [Hc _].
      exists c, t. split; trivial. now destruct (@digit_plain c Hc). }
  destruct (Hdigits a) as (Ha9 & Ha10 & ca & ta & Hca & Hwa).
  destruct (Hdigits d) as (Hd9 & Hd10 & _).
  unfold numstatLine. cbn [app]. split; [|split; [|split]].
  - rewrite split_at_separator by exact Ha9.
    rewrite split_at_separator by exact Hd9.
    now rewrite split_no_separator by exact Htab.
  - apply existsb_app_false; [exact Ha10|].
    change (existsb (fun c => c =? LF) (NToString d ++ TAB :: p) = false).
    apply existsb_app_false; [exact Hd10 | exact Hlf].
  - change (NToString a ++ TAB :: NToString d ++ TAB :: p)
      with (NToString a ++ (TAB :: NToString d) ++ TAB :: p).
    rewrite !app_assoc.
    change (((NToString a ++ TAB :: NToString d) ++ TAB :: p))
      with (((NToString a ++ TAB :: NToString d) ++ [TAB] ++ p)).
    rewrite app_assoc. apply endsPlain_app. exact Hend.
  - rewrite Hca. exists ca, (ta ++ TAB :: NToString d ++ TAB :: p).
    now split.
Qed.

Lemma numstatOutput_lines (entries : list (N * N * jsstring)) :
  numstatOutput entries
  = flat_map (fun l => l ++ [LF]) (map numstatLine entries).
Proof.
  unfold numstatOutput. induction entries as [|e es IH]; trivial.
  cbn [flat_map map]. now rewrite IH.
Qed.

Lemma trim_numstatOutput (entries : list (N * N * jsstring)) :
  (0 < length entries)%nat ->
  forallb (fun e => plainPath (snd e)) entries = true ->
  trim (numstatOutput entries) = join [LF] (map numstatLine entries).
Proof.
  intros Hlen Hplain.
  assert (Hlines : forallb endsPlain (map numstatLine entries) = true).
  { clear Hlen. induction entries as [|[[a d] p] es IH]; trivial.
    cbn [forallb snd map] in *. apply andb_true_iff in Hplain as [Hp Hes].
    destruct (@numstatLine_fields a d p Hp) as (_ & _ & He & _).
    now rewrite He, (IH Hes). }
  rewrite numstatOutput_lines, terminated_lines
    by (rewrite length_map; exact Hlen).
  assert (Hfirst : exists c t,
             join [LF] (map numstatLine entries) = c :: t
             /\ isWhiteSpace c = false).
  { destruct entries as [|[[a d] p] es]; [inversion Hlen|].
    cbn [forallb snd] in Hplain. apply andb_true_iff in Hplain as [Hp _].
    destruct (@numstatLine_fields a d p Hp) as (_ & _ & _ & c & t & Hl & Hc).
    cbn [map]. destruct (map numstatLine es) as [|l2 ls].
    - cbn [join]. now exists c, t.
    - change (join [LF] (numstatLine (a, d, p) :: l2 :: ls))
        with (numstatLine (a, d, p) ++ [LF] ++ join [LF] (l2 :: ls)).
      rewrite Hl. eexists; eexists. split; [reflexivity | exact Hc]. }
  destruct Hfirst as (c & t & Hjoin & Hc).
  unfold trim. rewrite Hjoin. cbn [app trimStart]. rewrite Hc.
  change (c :: t ++ [LF]) with ((c :: t) ++ [LF]). rewrite <- Hjoin.
  rewrite trimEnd_line_feed. apply trimEnd_plain.
  apply endsPlain_join; [rewrite length_map; exact Hlen | exact Hlines].
Qed.

(** X21. The staged diff information reads git's numstat output back: for
    the output that lists text files with their counts of added and
    deleted lines, one line each, it gives one entry for each file, in
    order, with that path and those counts.  The paths are as git prints
    them unquoted (no tab, no line feed, no white space at the end) and
    the counts are below 2^53. *)
Theorem diffInfos_reads_numstat (entries : list (N * N * jsstring))
  (diffContent : jsstring) :
  forallb plainEntry entries = true ->
  diffInfos (numstatOutput entries) diffContent
  = map (fun '(added, deleted, file) =>
           mkGitDiffInfo file (getFileStatusFromDiff diffContent file)
             (Z.of_N added) (Z.of_N deleted)
             (extractFileDiff diffContent file))
      entries.
Proof.
  intro Hentries.
  assert (Hplain : forallb (fun e => plainPath (snd e)) entries = true).
  { clear - Hentries. induction entries as [|[[a d] p] es IH]; trivial.
    cbn [forallb snd plainEntry] in *.
    apply andb_true_iff in Hentries as [He Hes].
    apply andb_true_iff in He as [He _]. apply andb_true_iff in He as [Hp _].
    now rewrite Hp, (IH Hes). }
  clear Hentries. destruct entries as [|e es]; [reflexivity|].
  unfold diffInfos. rewrite trim_numstatOutput; trivial;
    [|cbn [length]; lia].
  assert (Hlf : forallb (fun l => negb (existsb (fun c => c =? LF) l))
                  (map numstatLine (e :: es)) = true).
  { clear - Hplain. induction (e :: es) as [|[[a d] p] l IH]; trivial.
    cbn [forallb snd map] in *. apply andb_true_iff in Hplain as [Hp Hl].
    destruct (@numstatLine_fields a d p Hp) as (_ & Hno & _).
    now rewrite Hno, (IH Hl). }
  rewrite split_join; [|rewrite length_map; cbn [length]; lia | exact Hlf].
  clear Hlf. induction (e :: es) as [|[[a d] p] l IH]; trivial.
  cbn [forallb snd] in Hplain. apply andb_true_iff in Hplain as [Hp Hl].
  destruct (@numstatLine_fields a d p Hp) as (Hsplit & _ & _ & c & t & Hc & _).
  cbn [map filter]. rewrite Hc at 1. cbn [length Nat.eqb negb flat_map].
  rewrite Hsplit, !parseIntOrZero_NToString. cbn [app]. f_equal.
  exact (IH Hl).
Qed.

(** X22. All entries of the staged diff information carry one and the same
    status letter, A, D, R or M: it is read off the whole diff, not off the
    section of the file.  As soon as the diff holds the words new file
    mode anywhere, every file is reported as added. *)
Theorem diffInfos_one_status (numstat diffContent : jsstring) :
  exists st,
    In st [lit "A"; lit "D"; lit "R"; lit "M"]
    /\ Forall (fun info => info.(status) = st)
         (diffInfos numstat diffContent)
    /\ (includes diffContent (lit "new file mode") = true -> st = lit "A").
Proof.
  exists (getFileStatusFromDiff diffContent []).
  split; [|split].
  - unfold getFileStatusFromDiff.
    repeat match goal with
           | |- context [if ?b then _ else _] => destruct b
           end; cbn [In]; tauto.
  - unfold diffInfos.
    generalize (filter (fun line => negb (Nat.eqb (length line) 0))
                  (split LF (trim numstat))).
    intro lines. induction lines as [|line lines IH]; [constructor|].
    cbn [flat_map]. apply Forall_app. split; trivial.
    destruct (split TAB line) as [|p0 [|p1 [|p2 rest]]]; constructor;
      [reflexivity | constructor].
  - intro H. unfold getFileStatusFromDiff. now rewrite H.
Qed.

Lemma dropUntil_spec {A} (p : A -> bool) (l : list A) :
  exists pre,
    l = pre ++ dropUntil p l
    /\ forallb (fun x => negb (p x)) pre = true
    /\ match dropUntil p l with
       | [] => True
       | x :: _ => p x = true
       end.
Proof.
  induction l as [|x t IH].
  - exists []. now repeat split.
  - cbn [dropUntil]. destruct (p x) eqn:Hx.
    + exists []. now repeat split.
    + destruct IH as (pre & Hl & Hpre & Hhd). exists (x :: pre).
      split; [cbn [app]; now rewrite <- Hl|]. split; trivial.
      cbn [forallb]. now rewrite Hx, Hpre.
Qed.

Lemma takeUntil_spec {A} (p : A -> bool) (l : list A) :
  exists post,
    l = takeUntil p l ++ post
    /\ forallb (fun x => negb (p x)) (takeUntil p l) = true
    /\ match post with
       | [] => True
       | x :: _ => p x = true
       end.
Proof.
  induction l as [|x t IH].
  - exists []. now repeat split.
  - cbn [takeUntil]. destruct (p x) eqn:Hx.
    + exists (x :: t). now repeat split.
    + destruct IH as (post & Hl & Htake & Hhd). exists post.
      split; [cbn [app]; now rewrite <- Hl|]. split; trivial.
      cbn [forallb]. now rewrite Hx, Htake.
Qed.

(** X23. The section extracted for a file is empty when no line of the
    diff starts the diff of that file; otherwise it is a block of
    consecutive lines of the diff: the first line that starts the diff of
    the file, and the lines after it up to, not including, the next line
    that starts with diff --git (or up to the end). *)
Theorem extractFileDiff_block (fullDiff filePath : jsstring) :
  (extractFileDiff fullDiff filePath = []
   /\ forallb (fun line => negb (fileStartPattern filePath line))
        (split LF fullDiff) = true)
  \/ exists pre start body post,
       split LF fullDiff = pre ++ start :: body ++ post
       /\ extractFileDiff fullDiff filePath = join [LF] (start :: body)
       /\ forallb (fun line => negb (fileStartPattern filePath line)) pre
          = true
       /\ fileStartPattern filePath start = true
       /\ forallb (fun line => negb (startsWith line (lit "diff --git")))
            body = true
       /\ match post with
          | [] => True
          | next :: _ => startsWith next (lit "diff --git") = true
          end.
Proof.
  unfold extractFileDiff. cbv zeta.
  destruct (dropUntil_spec (fileStartPattern filePath) (split LF fullDiff))
    as (pre & Hl & Hpre & Hhd).
  destruct (dropUntil (fileStartPattern filePath) (split LF fullDiff))
    as [|start rest].
  - left. split; trivial. rewrite Hl, app_nil_r. exact Hpre.
  - right.
    destruct (takeUntil_spec
                (fun line => startsWith line (lit "diff --git")) rest)
      as (post & Hrest & Hbody & Hpost).
    exists pre, start,
      (takeUntil (fun line => startsWith line (lit "diff --git")) rest),
      post.
    split; [now rewrite <- Hrest|]. now repeat split.
Qed.

End MoreStagedDiff.

(** X21 on two files. *)
Lemma diffInfos_reads_numstat_witness :
  StagedDiff.diffInfos
    (numstatOutput
       [(3%N, 1%N, lit "src/auth/login.ts"); (10%N, 0%N, lit "README.md")])
    loginFix
  = [StagedDiff.mkGitDiffInfo (lit "src/auth/login.ts") (lit "M") 3 1 [];
     StagedDiff.mkGitDiffInfo (lit "README.md") (lit "M") 10 0 []].
Proof.
  apply (@diffInfos_reads_numstat
           [(3%N, 1%N, lit "src/auth/login.ts"); (10%N, 0%N, lit "README.md")]
           loginFix).
  vm_compute; reflexivity.
Defined.

(** ** The file list of the view *)

Section MoreWebview.

Import Webview.
Local Open Scope N_scope.

Lemma flat_map_flat_map {A B C} (f : B -> list C) (g : A -> list B)
  (l : list A) :
  flat_map f (flat_map g l) = flat_map (fun x => flat_map f (g x)) l.
Proof.
  induction l as [|x t IH]; trivial.
  cbn [flat_map]. now rewrite flat_map_app, IH.
Qed.

(** The five replacements work unit by unit. *)
Lemma escapedPath_by_unit (path : jsstring) :
  escapedPath path = flat_map htmlUnit path.
Proof.
  unfold escapedPath. rewrite !replaceAll_one_unit, !flat_map_flat_map.
  apply flat_map_ext. intro c. unfold htmlUnit.
  destruct (c =? AMP) eqn:E1; [reflexivity|]. cbn [flat_map app].
  destruct (c =? LT) eqn:E2; [reflexivity|]. cbn [flat_map app].
  destruct (c =? GT) eqn:E3; [reflexivity|]. cbn [flat_map app].
  destruct (c =? DQUOTE) eqn:E4; [reflexivity|]. cbn [flat_map app].
  destruct (c =? SQUOTE) eqn:E5; reflexivity.
Qed.

Lemma countOf_app (c : codeunit) (a b : jsstring) :
  countOf c (a ++ b) = (countOf c a + countOf c b)%nat.
Proof. unfold countOf. now rewrite filter_app, length_app. Qed.

Lemma countOf_htmlUnit (c x : codeunit) :
  isMarkup c = true -> countOf c (htmlUnit x) = 0%nat.
Proof.
  unfold isMarkup. intro H.
  assert (Hc : c = LT \/ c = GT \/ c = DQUOTE \/ c = SQUOTE).
  { repeat (apply orb_true_iff in H as [H|H]); apply N.eqb_eq in H; tauto. }
  unfold htmlUnit.
  destruct (x =? AMP) eqn:E1;
    [destruct Hc as [->|[->|[->| ->]]]; reflexivity|].
  destruct (x =? LT) eqn:E2;
    [destruct Hc as [->|[->|[->| ->]]]; reflexivity|].
  destruct (x =? GT) eqn:E3;
    [destruct Hc as [->|[->|[->| ->]]]; reflexivity|].
  destruct (x =? DQUOTE) eqn:E4;
    [destruct Hc as [->|[->|[->| ->]]]; reflexivity|].
  destruct (x =? SQUOTE) eqn:E5;
    [destruct Hc as [->|[->|[->| ->]]]; reflexivity|].
  unfold countOf. cbn [filter].
  destruct Hc as [->|[->|[->| ->]]]; rewrite N.eqb_sym;
    first [rewrite E2 | rewrite E3 | rewrite E4 | rewrite E5]; reflexivity.
Qed.

Lemma countOf_escapedPath (c : codeunit) (path : jsstring) :
  isMarkup c = true -> countOf c (escapedPath path) = 0%nat.
Proof.
  intro H. rewrite escapedPath_by_unit.
  induction path as [|x t IH]; trivial.
  cbn [flat_map]. now rewrite countOf_app, IH, countOf_htmlUnit.
Qed.

(** X24. The markup of an item of the file list does not depend on the
    path: whatever the path holds, the item has as many angle brackets,
    double quotes and single quotes as the item of the empty path, the
    path adds none. *)
Theorem createFileItem_markup (file : GitService.GitFileStatus)
  (isStaged : bool) (c : codeunit) :
  isMarkup c = true ->
  countOf c (createFileItem file isStaged)
  = countOf c
      (createFileItem
         (GitService.mkGitFileStatus [] file.(GitService.status)
            file.(GitService.description) file.(GitService.staged))
         isStaged).
Proof.
  intro H. unfold createFileItem, onclick. cbv zeta.
  cbn [GitService.path GitService.status].
  rewrite !countOf_app, !(@countOf_escapedPath c _ H).
  change (escapedPath []) with (@nil codeunit).
  change (countOf c []) with 0%nat. reflexivity.
Qed.

Lemma decode_unit (c : codeunit) (r : jsstring) :
  decode_go 0 (htmlUnit c ++ r) = c :: decode_go 0 r.
Proof.
  unfold htmlUnit.
  destruct (c =? AMP) eqn:E1;
    [apply N.eqb_eq in E1; subst c; now destruct r|].
  destruct (c =? LT) eqn:E2;
    [apply N.eqb_eq in E2; subst c; now destruct r|].
  destruct (c =? GT) eqn:E3;
    [apply N.eqb_eq in E3; subst c; now destruct r|].
  destruct (c =? DQUOTE) eqn:E4;
    [apply N.eqb_eq in E4; subst c; now destruct r|].
  destruct (c =? SQUOTE) eqn:E5;
    [apply N.eqb_eq in E5; subst c; now destruct r|].
  cbn [app decode_go]. now rewrite E1.
Qed.

Lemma decode_escaped (path r : jsstring) :
  decode_go 0 (escapedPath path ++ r) = path ++ decode_go 0 r.
Proof.
  rewrite escapedPath_by_unit. induction path as [|c t IH]; trivial.
  cbn [flat_map]. rewrite <- app_assoc, decode_unit, IH. reflexivity.
Qed.

(** X25. Decoding the character references gives the path back: what the
    view shows as title and text of an item is the path itself, and the
    script of its [onclick] attribute, once the attribute value is decoded,
    is the call of [toggleFile] with the path itself between single
    quotes. *)
Theorem decode_escapedPath (path : jsstring) (isStaged : bool) :
  decode (escapedPath path) = path
  /\ decode (onclick (escapedPath path) isStaged)
     = lit "toggleFile('" ++ path ++ lit "', " ++ boolToString isStaged
       ++ lit ")".
Proof.
  unfold decode. split.
  - rewrite <- (app_nil_r (escapedPath path)), decode_escaped.
    apply app_nil_r.
  - unfold onclick.
    change (decode_go 0 (lit "toggleFile('" ++ ?x)) with
      (lit "toggleFile('" ++ decode_go 0 x).
    rewrite decode_escaped. now destruct isStaged.
Qed.

End MoreWebview.

(** X24 on a path that holds markup, for the single quote. *)
Lemma createFileItem_markup_witness :
  isMarkup SQUOTE = true
  /\ countOf SQUOTE
       (Webview.createFileItem
          (GitService.mkGitFileStatus (lit "a'); alert('b") (lit "M")
             (lit "Modified") false) false)
     = countOf SQUOTE
         (Webview.createFileItem
            (GitService.mkGitFileStatus [] (lit "M") (lit "Modified") false)
            false).
Proof.
  split; [reflexivity|].
  apply (@createFileItem_markup
           (GitService.mkGitFileStatus (lit "a'); alert('b") (lit "M")
              (lit "Modified") false) false SQUOTE).
  reflexivity.
Defined.

(** ** The commit button of the view *)

Section MoreCommitForm.

Import CommitForm.

(** X26. The commit button of the view and the validation of the provider
    agree: the button is disabled exactly when a click posts nothing, and
    what a click posts (the type, the scope, the trimmed message) always
    passes [validateCommitInput], so the validation error is never shown
    for a commit started from the view. *)
Theorem click_passes_validation (commitType scope message : jsstring) :
  match click commitType scope message with
  | Some (t, s, m) =>
      t = commitType /\ s = scope /\ m = trim message
      /\ Panel.validateCommitInput t m = true
      /\ updateCommitButton commitType message = false
  | None => updateCommitButton commitType message = true
  end.
Proof.
  unfold click, updateCommitButton.
  destruct (isValid commitType message) eqn:Hv; [|reflexivity].
  repeat split. unfold isValid in Hv. unfold Panel.validateCommitInput.
  destruct commitType as [|c t]; [discriminate|].
  destruct (trim_not_blank message) as [H|H]; [now rewrite H in Hv|].
  now rewrite H.
Qed.

End MoreCommitForm.

(** ** The file watcher *)

Section MoreFileWatcher.

Import FileWatcher.

Lemma settled_initial : Settled initial.
Proof. split; [now left | discriminate]. Qed.

Lemma debouncedRefresh_settled (s : Watcher * Loop) :
  Settled s ->
  debouncedRefresh (fst s) (snd s)
  = (mkWatcher (Some (fresh (snd s))),
     mkLoop (now (snd s))
       [(fresh (snd s), now (snd s) + DEBOUNCE_DELAY)%nat]
       (S (fresh (snd s))) (refreshed (snd s))).
Proof.
  destruct s as [w l]. intros [Htimers Hid]. cbn [fst snd] in *.
  unfold debouncedRefresh, setTimeout.
  destruct (refreshTimer w) as [id|] eqn:Hr.
  - destruct Htimers as [Ht|(id' & due & Ht & Hid' & _)].
    + unfold clearTimeout. cbn [now timers fresh refreshed]. now rewrite Ht.
    + injection Hid' as <-. unfold clearTimeout.
      cbn [now timers fresh refreshed]. rewrite Ht. cbn [filter fst].
      now rewrite Nat.eqb_refl.
  - destruct Htimers as [Ht|(id' & due & Ht & Hid' & _)]; [|discriminate].
    now rewrite Ht.
Qed.

Lemma step_settled (s : Watcher * Loop) (i : Input) :
  Settled s -> Settled (step s i).
Proof.
  intro H. destruct i; cbn [step].
  - rewrite (debouncedRefresh_settled H). split; cbn [fst snd timers now
      refreshTimer fresh].
    + right. exists (fresh (snd s)), (now (snd s) + DEBOUNCE_DELAY)%nat.
      repeat split; unfold DEBOUNCE_DELAY; lia.
    + intros id [= <-]. lia.
  - destruct s as [w l]. destruct H as [Htimers Hid]. cbn [fst snd] in *.
    unfold forceRefresh.
    destruct (refreshTimer w) as [id|] eqn:Hr.
    + split; cbn [fst snd refreshTimer]; [|discriminate]. left.
      unfold onChangeCallback, clearTimeout. cbn [timers].
      destruct Htimers as [Ht|(id' & due & Ht & Hid' & _)]; rewrite Ht;
        trivial.
      injection Hid' as <-. cbn [filter fst]. now rewrite Nat.eqb_refl.
    + split; cbn [fst snd]; [|now rewrite Hr]. left.
      destruct Htimers as [Ht|(id' & due & Ht & Hid' & _)];
        [exact Ht | discriminate].
  - destruct s as [w l]. destruct H as [Htimers Hid]. cbn [fst snd] in *.
    unfold disposeWatchers.
    destruct (refreshTimer w) as [id|] eqn:Hr.
    + split; cbn [fst snd refreshTimer]; [|discriminate]. left.
      unfold clearTimeout. cbn [timers].
      destruct Htimers as [Ht|(id' & due & Ht & Hid' & _)]; rewrite Ht;
        trivial.
      injection Hid' as <-. cbn [filter fst]. now rewrite Nat.eqb_refl.
    + split; cbn [fst snd]; [|now rewrite Hr]. left.
      destruct Htimers as [Ht|(id' & due & Ht & Hid' & _)];
        [exact Ht | discriminate].
  - destruct s as [w l]. destruct H as [Htimers Hid]. cbn [fst snd] in *.
    split; cbn [fst snd].
    + unfold tick. destruct Htimers as [Ht|(id & due & Ht & Hr & Hdue)];
        rewrite Ht; cbn [filter snd].
      * now left.
      * destruct (Nat.leb due (S (now l))) eqn:E; cbn [negb fold_left].
        -- now left.
        -- right. exists id, due. apply Nat.leb_gt in E.
           cbn [timers now]. repeat split; trivial; lia.
    + intros id Hr. unfold tick.
      assert (Hf : forall due l0,
                 fresh (fold_left (fun l' (_ : nat * nat) =>
                                     onChangeCallback l') due l0)
                 = fresh l0).
      { induction due as [|x due IH]; intro l0; trivial.
        cbn [fold_left]. now rewrite IH. }
      rewrite Hf. cbn [fresh]. auto.
Qed.

Lemma run_settled (inputs : list Input) (s : Watcher * Loop) :
  Settled s -> Settled (run inputs s).
Proof.
  unfold run. revert s. induction inputs as [|i inputs IH]; intros s H;
    cbn [fold_left]; trivial.
  apply IH. now apply step_settled.
Qed.

(** X27. Whatever sequence of changes, forced refreshes, disposals and
    passing milliseconds a watcher goes through, at most one refresh is
    pending at any moment. *)
Theorem debouncedRefresh_one_pending (inputs : list Input) :
  (length (timers (snd (run inputs initial))) <= 1)%nat.
Proof.
  destruct (run_settled inputs settled_initial) as [[H|(id & due & H & _)] _];
    rewrite H; cbn [length]; lia.
Qed.

Lemma ticks_waiting (k : nat) :
  forall w l id due,
    timers l = [(id, due)] -> (now l + k < due)%nat ->
    run (repeat Tick k) (w, l)
    = (w, mkLoop (now l + k) [(id, due)] (fresh l) (refreshed l)).
Proof.
  induction k as [|k IH]; intros w l id due Ht Hk.
  - cbn [repeat run fold_left]. rewrite Nat.add_0_r, <- Ht. now destruct l.
  - cbn [repeat]. unfold run. cbn [fold_left step fst snd]. fold (run (repeat Tick k)).
    unfold tick. rewrite Ht. cbn [filter snd].
    replace (Nat.leb due (S (now l))) with false
      by (symmetry; apply Nat.leb_gt; lia).
    cbn [negb fold_left].
    erewrite IH; [|reflexivity|cbn [now]; lia].
    cbn [now fresh refreshed]. do 2 f_equal. lia.
Qed.

(** X28. A change cancels the pending refresh and schedules one: in any
    state a watcher can reach, after a change no refresh runs during the
    next 299 milliseconds, and when 300 milliseconds have passed without
    another change exactly one refresh has run, at that moment, and none
    is pending. *)
Theorem debouncedRefresh_waits (inputs : list Input) (k : nat) :
  let s := run inputs initial in
  (k < DEBOUNCE_DELAY)%nat ->
  refreshed (snd (run (Changed :: repeat Tick k) s)) = refreshed (snd s)
  /\ (exists id,
        timers (snd (run (Changed :: repeat Tick k) s))
        = [(id, now (snd s) + DEBOUNCE_DELAY)%nat])
  /\ refreshed (snd (run (Changed :: repeat Tick DEBOUNCE_DELAY) s))
     = (now (snd s) + DEBOUNCE_DELAY)%nat :: refreshed (snd s)
  /\ timers (snd (run (Changed :: repeat Tick DEBOUNCE_DELAY) s)) = [].
Proof.
  intros s Hk.
  pose proof (run_settled inputs settled_initial) as Hs. fold s in Hs.
  assert (Hchanged : forall rest,
             run (Changed :: rest) s
             = run rest
                 (mkWatcher (Some (fresh (snd s))),
                  mkLoop (now (snd s))
                    [(fresh (snd s), now (snd s) + DEBOUNCE_DELAY)%nat]
                    (S (fresh (snd s))) (refreshed (snd s)))).
  { intro rest. unfold run. cbn [fold_left step].
    now rewrite (debouncedRefresh_settled Hs). }
  rewrite !Hchanged.
  split; [|split].
  - erewrite ticks_waiting; [reflexivity | reflexivity | cbn [now]; lia].
  - erewrite ticks_waiting; [|reflexivity | cbn [now]; lia].
    now eexists.
  - change DEBOUNCE_DELAY with (299 + 1)%nat at 1 4.
    rewrite !repeat_app. unfold run. rewrite !fold_left_app.
    fold (run (repeat Tick 299)).
    erewrite ticks_waiting;
      [|reflexivity | cbn [now]; unfold DEBOUNCE_DELAY; lia].
    cbn [repeat fold_left step fst snd]. unfold tick.
    cbn [timers now filter snd fresh refreshed].
    replace (Nat.leb (now (snd s) + DEBOUNCE_DELAY) (S (now (snd s) + 299)))
      with true by (symmetry; apply Nat.leb_le; unfold DEBOUNCE_DELAY; lia).
    cbn [negb fold_left]. unfold onChangeCallback.
    cbn [now timers fresh refreshed].
    split; [|reflexivity]. f_equal. unfold DEBOUNCE_DELAY. lia.
Qed.

End MoreFileWatcher.

(** X28 after a change and one millisecond, for five milliseconds. *)
Lemma debouncedRefresh_waits_witness :
  (5 < FileWatcher.DEBOUNCE_DELAY)%nat
  /\ FileWatcher.refreshed
       (snd (FileWatcher.run
               (FileWatcher.Changed :: repeat FileWatcher.Tick 5)
               (FileWatcher.run [FileWatcher.Changed; FileWatcher.Tick]
                  FileWatcher.initial)))
     = FileWatcher.refreshed
         (snd (FileWatcher.run [FileWatcher.Changed; FileWatcher.Tick]
                 FileWatcher.initial)).
Proof.
  assert (H : (5 < FileWatcher.DEBOUNCE_DELAY)%nat)
    by (unfold FileWatcher.DEBOUNCE_DELAY; lia).
  split; [exact H|].
  exact (proj1 (@debouncedRefresh_waits
                  [FileWatcher.Changed; FileWatcher.Tick] 5%nat H)).
Defined.

(** ** The condensed text on the Gemini path *)

Section GeminiCondensing.

Import AIService.

Variable toLowerCase : jsstring -> jsstring.
Variable fetch : Request -> Exc Response.
Variable JSON_stringify : JsValue -> jsstring.

Lemma startsWith_length (p : jsstring) :
  forall s, startsWith s p = true -> (length p <= length s)%nat.
Proof.
  induction p as [|y p IH]; intros s H; cbn [length]; [lia|].
  destruct s as [|x s]; [discriminate H|].
  cbn [startsWith] in H. apply andb_true_iff in H as [_ H].
  specialize (IH s H). cbn [length]. lia.
Qed.

Lemma includes_length (s p : jsstring) :
  includes s p = true -> (length p <= length s)%nat.
Proof.
  induction s as [|x s IH]; cbn [includes]; intro H.
  - now apply startsWith_length.
  - apply orb_true_iff in H as [H|H].
    + now apply startsWith_length.
    + specialize (IH H). cbn [length]. lia.
Qed.

Lemma includes_In (s p : jsstring) (c : codeunit) :
  includes s (c :: p) = true -> In c s.
Proof.
  induction s as [|x s IH]; cbn [includes]; intro H; [discriminate H|].
  apply orb_true_iff in H as [H|H].
  - cbn [startsWith] in H. apply andb_true_iff in H as [H _].
    apply N.eqb_eq in H. now left.
  - right. auto.
Qed.

Lemma trimStart_keeps (s : jsstring) (c : codeunit) :
  In c s -> isWhiteSpace c = false ->
  exists x t, trimStart s = x :: t /\ isWhiteSpace x = false.
Proof.
  intros Hin Hc. induction s as [|y s IH]; [destruct Hin|].
  cbn [trimStart]. destruct (isWhiteSpace y) eqn:Hy.
  - destruct Hin as [->|Hin]; [congruence | auto].
  - now exists y, s.
Qed.

Lemma trim_keeps (s : jsstring) (c : codeunit) :
  In c s -> isWhiteSpace c = false -> (0 < length (trim s))%nat.
Proof.
  intros Hin Hc. destruct (@trimStart_keeps s c Hin Hc) as (x & t & Hs & Hx).
  unfold trim. rewrite Hs, (@trimEnd_cons x t Hx). cbn [length]. lia.
Qed.

Lemma split_pieces (sep : codeunit) (s : jsstring) :
  Forall (fun l => existsb (fun c => (c =? sep)%N) l = false) (split sep s).
Proof.
  induction s as [|c t IH]; cbn [split]; [repeat constructor|].
  destruct (c =? sep)%N eqn:Hc; [now constructor|].
  destruct (split sep t) as [|w ws].
  - constructor; [cbn [existsb]; now rewrite Hc | constructor].
  - inversion_clear IH. constructor; trivial. cbn [existsb]. now rewrite Hc.
Qed.

Lemma createGeminiPrompt_length config (text : jsstring) :
  (length (createGeminiPrompt config text) <= length text + 200)%nat.
Proof.
  unfold createGeminiPrompt.
  destruct (match model config with Some m => _ | None => _ end);
    rewrite !length_app;
    repeat match goal with
           | |- context [length (lit ?s)] =>
               let n := eval vm_compute in (length (lit s)) in
               change (length (lit s)) with n
           end;
    cbn [length]; lia.
Qed.

Lemma fileHeader_first (line : jsstring) fileLines statsLines :
  exists rest, fileHeader 3 (line :: fileLines) statsLines = line ++ LF :: rest.
Proof.
  cbn [fileHeader]. destruct statsLines as [|st sts]; eexists; reflexivity.
Qed.

Lemma file_line_plain (diffSummary line : jsstring) :
  firstFileLine diffSummary = Some line ->
  existsb (fun c => (c =? LF)%N) line = false
  /\ (0 < length (trim line))%nat.
Proof.
  unfold firstFileLine. intro H.
  destruct (filter _ (split LF diffSummary)) as [|l ls] eqn:Hf;
    [discriminate H|].
  injection H as ->.
  assert (Hin : In line (filter (fun l => includes l (lit "檔案:"))
                           (split LF diffSummary)))
    by (rewrite Hf; now left).
  apply filter_In in Hin as [Hin Hinc]. split.
  - pose proof (split_pieces LF diffSummary) as Hall.
    rewrite Forall_forall in Hall. now apply Hall.
  - apply includes_In in Hinc. now apply (@trim_keeps line _ Hinc).
Qed.

Lemma takeSections_first (line : jsstring) sections :
  (length line <= 749)%nat ->
  takeSections 0 (line :: sections)
  = line ++ [LF] ++ takeSections (length line + 1) sections.
Proof.
  intro H. cbn [takeSections]. change (800 - 50)%nat with 750%nat.
  cbn [Nat.add].
  destruct (length line + 1 <=? 750)%nat eqn:E; [reflexivity|].
  apply Nat.leb_gt in E. lia.
Qed.


Lemma truncateDiffForGemini_first_file (diffSummary line : jsstring) :
  (800 < Z.of_nat (length diffSummary))%Z ->
  firstFileLine diffSummary = Some line ->
  (length line <= 749)%nat ->
  startsWith (truncateDiffForGemini diffSummary) (line ++ [LF]) = true.
Proof.
  intros Hlong Hfirst Hline.
  destruct (file_line_plain _ Hfirst) as [Hplain Htrim].
  unfold truncateDiffForGemini. cbv zeta.
  change GEMINI_SUMMARY_LENGTH with (inject_Z 800).
  assert (Hgt : gt (lengthOf diffSummary) (inject_Z 800) = true)
    by (rewrite gt_lengthOf; now apply Z.ltb_lt).
  unfold gt in Hgt. apply negb_true_iff in Hgt. rewrite Hgt.
  unfold firstFileLine in Hfirst.
  destruct (filter (fun l => includes l (lit "檔案:")) (split LF diffSummary))
    as [|l fileLines] eqn:Hf; [discriminate Hfirst|].
  injection Hfirst as ->.
  match goal with
  | |- context [fileHeader 3 (line :: fileLines) ?st] =>
      destruct (fileHeader_first line fileLines st) as [rest0 Hhead];
      rewrite Hhead; clear Hhead
  end.
  match goal with
  | |- context [gt (lengthOf ?s) _] =>
      assert (Hs : exists rest, s = line ++ LF :: rest)
        by (repeat match goal with
                   | |- context [match ?il with [] => _ | _ :: _ => _ end] =>
                       destruct il
                   end;
            match goal with
            | |- context [if ?b then _ else _] => destruct b
            end;
            eexists; rewrite <- ?app_assoc; reflexivity);
      destruct Hs as [rest3 Hs]; rewrite Hs; clear Hs
  end.
  destruct (gt (lengthOf (line ++ LF :: rest3)) (inject_Z 800)).
  - rewrite (split_at_separator LF line rest3 Hplain). cbn [filter].
    destruct (length (trim line)) as [|n] eqn:Hn; [lia|]. cbn [Nat.eqb negb].
    rewrite (@takeSections_first line _ Hline).
    rewrite <- !app_assoc. rewrite (app_assoc line [LF]).
    apply startsWith_app.
  - change (line ++ LF :: rest3) with (line ++ [LF] ++ rest3).
    rewrite app_assoc. apply startsWith_app.
Qed.

Lemma generateWithGemini_send_check_passes config d processed response :
  fetch (geminiTestRequest config) = Ok response ->
  response.(ok) = true ->
  exists rest,
    fst (generateWithGemini_send toLowerCase fetch JSON_stringify config d
           processed)
    = Fetched (geminiTestRequest config)
      :: Fetched (geminiRequest config processed) :: rest
    /\ requests rest = 0%nat.
Proof.
  intros Hfetch Hok.
  assert (Hshape : exists rest,
             fst (generateWithGemini_send toLowerCase fetch JSON_stringify
                    config d processed)
             = Fetched (geminiTestRequest config)
               :: Fetched (geminiRequest config processed) :: rest).
  { unfold generateWithGemini_send.
    unfold await_fetch at 1. unfold bind at 2. rewrite Hfetch, Hok.
    cbn [negb ret tryCatch]. unfold bind at 1.
    unfold await_fetch at 1. unfold bind at 1.
    destruct (fetch (geminiRequest config processed)) as [e|r].
    - now exists [].
    - match goal with
      | |- context [let (tr', r0) := ?k in _] =>
          match k with
          | if _ then _ else _ => destruct k as [rest x]
          end
      end.
      now exists rest. }
  destruct Hshape as [rest Htr]. exists rest. split; [exact Htr|].
  pose proof (generateWithGemini_send_requests_count toLowerCase fetch
                JSON_stringify config d processed) as Hcount.
  unfold AtMost in Hcount. rewrite Htr in Hcount.
  unfold requests in *. cbn [filter length] in Hcount. lia.
Qed.

(** C7 (as the code has it). On a diff text longer than 3000 units
    [generateWithGemini] builds the condensed text, which has at most 800
    units when the diff has fewer than 2^34 and starts with the first file
    line of the diff when that line has at most 749 units. The generation
    request is a POST whose body carries, as the text of its only part, the
    prompt built from the condensed text; the prompt contains the condensed
    text and, that text having at most 1200 units, not the raw diff.
    Without an API key the call throws at once. With a key: if the
    condensed text is longer than 1200 units, the rule engine's content is
    returned after one notice and nothing was sent; otherwise the notice
    is shown and the key check is sent: once it is answered with success
    the generation request follows and no other request is sent, and when
    it is rejected or answered without success nothing more is sent and the
    call throws. *)
Theorem generateWithGemini_condenses config (diffSummary : jsstring) :
  (3000 < Z.of_nat (length diffSummary))%Z ->
  let condensed := truncateDiffForGemini diffSummary in
  let prompt := createGeminiPrompt config condensed in
  let generation := geminiRequest config condensed in
  let check := geminiTestRequest config in
  let run :=
    generateWithGemini toLowerCase fetch JSON_stringify config diffSummary in
  ((Z.of_nat (length diffSummary) < 2 ^ 34)%Z ->
   (length condensed <= 800)%nat)
  /\ (forall line,
        firstFileLine diffSummary = Some line ->
        (length line <= 749)%nat ->
        startsWith condensed (line ++ [LF]) = true)
  /\ generation.(method) = POST
  /\ requestText generation = Ok (JStr prompt)
  /\ includes prompt condensed = true
  /\ ((Z.of_nat (length condensed) <= 1200)%Z ->
      includes prompt diffSummary = false)
  /\ (isSet config.(apiKey) = false ->
      run = ([], Threw (Error (lit "Google Gemini API key not configured"))))
  /\ (isSet config.(apiKey) = true ->
      (1200 < Z.of_nat (length condensed))%Z ->
      run = ([InformationShown NOTICE_TOO_COMPLEX],
             Ok (generateWithEnhancedRules toLowerCase diffSummary)))
  /\ (isSet config.(apiKey) = true ->
      (Z.of_nat (length condensed) <= 1200)%Z ->
      run = bind (emit (InformationShown NOTICE_CONDENSING))
              (fun _ =>
                 generateWithGemini_send toLowerCase fetch JSON_stringify
                   config diffSummary condensed)
      /\ (forall response,
             fetch check = Ok response ->
             response.(ok) = true ->
             exists rest,
               fst run = InformationShown NOTICE_CONDENSING
                         :: Fetched check :: Fetched generation :: rest
               /\ requests rest = 0%nat)
      /\ ((exists e, fetch check = Threw e)
          \/ (exists response,
                fetch check = Ok response /\ response.(ok) = false) ->
          fst run = [InformationShown NOTICE_CONDENSING; Fetched check]
          /\ exists e, snd run = Threw e)).
Proof.
  intros Hlong condensed prompt generation check run.
  split; [apply truncateDiffForGemini_length|].
  split; [intros line; apply truncateDiffForGemini_first_file; lia|].
  split; [reflexivity|]. split; [reflexivity|].
  split; [apply createGeminiPrompt_contains|].
  split.
  { intro Hshort.
    destruct (includes prompt diffSummary) eqn:Hin; [|reflexivity].
    apply includes_length in Hin.
    pose proof (createGeminiPrompt_length config condensed) as Hlen.
    fold prompt in Hlen. lia. }
  split.
  { intro Hkey. unfold run, generateWithGemini. now rewrite Hkey. }
  split.
  { intros Hkey Hover. unfold run.
    rewrite (generateWithGemini_large toLowerCase fetch JSON_stringify
               config diffSummary Hkey Hlong).
    fold condensed. apply Z.ltb_lt in Hover. now rewrite Hover. }
  intros Hkey Hunder.
  assert (Hrun : run
                 = bind (emit (InformationShown NOTICE_CONDENSING))
                     (fun _ =>
                        generateWithGemini_send toLowerCase fetch
                          JSON_stringify config diffSummary condensed)).
  { unfold run.
    rewrite (generateWithGemini_large toLowerCase fetch JSON_stringify
               config diffSummary Hkey Hlong).
    fold condensed. apply Z.ltb_ge in Hunder. now rewrite Hunder. }
  split; [exact Hrun|]. split.
  - intros response Hfetch Hok.
    destruct (@generateWithGemini_send_check_passes config diffSummary
                condensed response Hfetch Hok) as (rest & Htr & Hrest).
    exists rest. split; [|exact Hrest].
    rewrite Hrun. unfold bind, emit. fold generation check in Htr.
    destruct (generateWithGemini_send _ _ _ _ _ _) as [tr x].
    cbn [fst] in *. now rewrite Htr.
  - intro Hfail.
    destruct (generateWithGemini_send_check_fails toLowerCase fetch
                JSON_stringify config diffSummary condensed Hfail)
      as [x Hsend].
    rewrite Hrun, Hsend. split; [reflexivity|]. eexists. reflexivity.
Qed.

End GeminiCondensing.

(** C7 at a diff text of 5433 units whose condensed text has 129, with a
    host that answers every request: the condensed text starts with the
    file line, and the generation request that carries its prompt is sent
    after the key check. *)
Lemma generateWithGemini_condenses_witness :
  (3000 < Z.of_nat (length largeDiff))%Z
  /\ startsWith (AIService.truncateDiffForGemini largeDiff)
       (lit "檔案: src/total.ts" ++ [LF]) = true
  /\ requestText
       (AIService.geminiRequest geminiConfig
          (AIService.truncateDiffForGemini largeDiff))
     = Ok (JStr (AIService.createGeminiPrompt geminiConfig
                   (AIService.truncateDiffForGemini largeDiff)))
  /\ exists rest,
       fst (AIService.generateWithGemini toLowerCaseAscii
              (answering (lit "{}")) noStringify geminiConfig largeDiff)
       = AIService.InformationShown AIService.NOTICE_CONDENSING
         :: AIService.Fetched (AIService.geminiTestRequest geminiConfig)
         :: AIService.Fetched
              (AIService.geminiRequest geminiConfig
                 (AIService.truncateDiffForGemini largeDiff))
         :: rest
       /\ requests rest = 0%nat.
Proof.
  assert (H1 : (3000 < Z.of_nat (length largeDiff))%Z)
    by (vm_compute; reflexivity).
  assert (H2 : (Z.of_nat (length (AIService.truncateDiffForGemini largeDiff))
                <= 1200)%Z)
    by (apply Z.leb_le; vm_compute; reflexivity).
  destruct (generateWithGemini_condenses toLowerCaseAscii
              (answering (lit "{}")) noStringify geminiConfig largeDiff H1)
    as (_ & Hfirst & _ & Htext & _ & _ & _ & _ & Hsend).
  split; [exact H1|].
  split;
    [apply Hfirst;
       [vm_compute; reflexivity | apply Nat.leb_le; vm_compute; reflexivity]|].
  split; [exact Htext|].
  destruct (Hsend eq_refl H2) as (_ & Hpass & _).
  exact (Hpass _ eq_refl eq_refl).
Defined.

(** C7 at the same text, whose condensed text is under the ceiling:
    without a key the call throws and nothing is sent; with a key and no
    network only the key check is sent. *)
Lemma generateWithGemini_sends_no_generation :
  (3000 <? Z.of_nat (length largeDiff))%Z = true
  /\ (Z.of_nat (length (AIService.truncateDiffForGemini largeDiff))
      <=? 1200)%Z = true
  /\ AIService.generateWithGemini toLowerCaseAscii (answering (lit "{}"))
       noStringify (AIService.mkConfig AIService.gemini None None None)
       largeDiff
     = ([], Threw (Error (lit "Google Gemini API key not configured")))
  /\ fst (AIService.generateWithGemini toLowerCaseAscii offline noStringify
            geminiConfig largeDiff)
     = [AIService.InformationShown AIService.NOTICE_CONDENSING;
        AIService.Fetched (AIService.geminiTestRequest geminiConfig)].
Proof. repeat split; vm_compute; reflexivity. Qed.
